(** * GTR Manager: the process registry and its lifecycle operations

    A shallow embedding of [src/index.js]: the registry file
    [processes.json], the snapshot [ecosystem.json], and the functions
    [readProcesses], [writeProcesses], [generateId], [findProcess],
    [startGTR], [stopGTR], [monitorProcesses] together with the actions of
    the [restart], [delete], [save], [resurrect] and [prune] commands.

    Modelling conventions.
    - A JavaScript Number that holds an integer ([id], [pid], [instances],
      [restarts]) is a [Z].  Where the source makes a Number from text
      ([parseInt]) or text from a Number ([String]), the rounding to
      binary64 and the exponent notation are written out.  The sums
      [restarts + 1] and [id++] are exact: counters and ids stay far below
      [2^53] in any registry the commands produce.  The two percentages
      [cpu] and [memory] are binary64 values, [float].
    - An ISO-8601 time stamp ([new Date().toISOString()]) is modelled by the
      instant it denotes, in milliseconds since the epoch.
    - Strings are ASCII strings.
    - A property that [JSON.stringify] omits because it is [undefined] is an
      [option] field holding [None]; so is [instances] when it is written
      as [null], which is how JSON writes an infinite Number.
    - Callbacks handed to [exec] and [setTimeout] run after the function that
      registers them has returned; each one is a function of the world it
      finds when it runs, and the registering function returns the list of
      callbacks it scheduled. *)

From Stdlib Require Import ZArith List String Ascii Bool Lia.
From Stdlib Require Import Floats.PrimFloat.
From Stdlib Require Import DecimalString DecimalPos DecimalZ FinFun.
Import ListNotations.
Local Open Scope string_scope.
Local Open Scope Z_scope.

(** ** JavaScript values and built-ins the source relies on *)

Module Js.

(** The values that reach [parseInt] in this program: a command-line string,
    a Number or [null] read from a record, or [undefined]. *)
Inductive Value : Type :=
| VStr (s : string)
| VNum (n : Z)
| VNull
| VUndefined.

(** ASCII members of ECMAScript's WhiteSpace and LineTerminator. *)
Definition isWhiteSpace (c : ascii) : bool :=
  match nat_of_ascii c with
  | 9%nat | 10%nat | 11%nat | 12%nat | 13%nat | 32%nat => true
  | _ => false
  end.

Fixpoint trimStart (s : string) : string :=
  match s with
  | String c rest => if isWhiteSpace c then trimStart rest else s
  | EmptyString => s
  end.

Definition digitValue (c : ascii) : option Z :=
  let n := Z.of_nat (nat_of_ascii c) in
  if (48 <=? n) && (n <=? 57) then Some (n - 48) else None.

(** Longest prefix of decimal digits; [acc] is [None] until a digit is read. *)
Fixpoint readDigits (s : string) (acc : option Z) : option Z :=
  match s with
  | String c rest =>
      match digitValue c with
      | Some d =>
          readDigits rest (Some (10 * match acc with Some a => a | None => 0 end + d))
      | None => acc
      end
  | EmptyString => acc
  end.

(** The integer that the longest prefix of [s] denoting a decimal integer
    denotes, after leading white space and an optional sign: the value
    [sign * mathInt] of [parseInt(s, 10)]; [None] when no digit is read. *)
Definition mathInt (s : string) : option Z :=
  match trimStart s with
  | String "-"%char rest => option_map Z.opp (readDigits rest None)
  | String "+"%char rest => readDigits rest None
  | s1 => readDigits s1 None
  end.

(** A Number whose finite values are integers: NaN, an integer that
    binary64 represents, or an infinity. *)
Inductive Num : Type :=
| NaN
| Finite (n : Z)
| Infinite (negative : bool).

(** The Number for the mathematical integer [n]: the nearest binary64
    value, a tie going to the even significand, and an infinity from
    [2^1024 - 2^970] on. *)
Definition toNumber (n : Z) : Num :=
  let a := Z.abs n in
  if a <? 2 ^ 53 then Finite n
  else
    let e := Z.log2 a - 52 in
    let q := Z.shiftr a e in
    let r := a - Z.shiftl q e in
    let half := Z.shiftl 1 (e - 1) in
    let q' := if (half <? r) || ((r =? half) && Z.odd q) then q + 1 else q in
    let m := Z.shiftl q' e in
    if 2 ^ 1024 <=? m then Infinite (n <? 0) else Finite (Z.sgn n * m).

Definition Num_eqb (x y : Num) : bool :=
  match x, y with
  | Finite a, Finite b => a =? b
  | Infinite a, Infinite b => Bool.eqb a b
  | _, _ => false
  end.

(** [parseInt(s, 10)] on a string. *)
Definition parseIntString (s : string) : Num :=
  match mathInt s with
  | Some n => toNumber n
  | None => NaN
  end.

(** The decimal numeral of an integer. *)
Definition decimal (n : Z) : string := NilZero.string_of_int (Z.to_int n).

(** The digits of Number::toString for the integer Number [a] of [len]
    decimal digits: the least [k], from [k] on, for which some [s] of [k]
    digits has [s * 10 ^ (len - k)] read back as [a], with that [s] (the
    nearer one if two do, the even one if both are as near) and the
    exponent of ten.  Seventeen digits tell any two Numbers apart. *)
Fixpoint shortestDigits (fuel : nat) (k a len : Z) : Z * Z :=
  match fuel with
  | O => (a, 0)
  | S fuel' =>
      let e := len - k in
      let p := 10 ^ e in
      let s1 := a / p in
      let lo := s1 * p in
      let hi := lo + p in
      let okLo := Num_eqb (toNumber lo) (Finite a) in
      let okHi := Num_eqb (toNumber hi) (Finite a) in
      let pick :=
        if okLo && okHi
        then if (a - lo <? hi - a) || ((a - lo =? hi - a) && Z.even s1)
             then Some s1 else Some (s1 + 1)
        else if okLo then Some s1
        else if okHi then Some (s1 + 1)
        else None in
      match pick with
      | Some s => if s =? 10 ^ k then (1, e + k) else (s, e)
      | None => shortestDigits fuel' (k + 1) a len
      end
  end.

(** [String(n)] for an integer Number [n]: the decimal numeral below
    [10^21], and from there on the shortest digits that read back as [n],
    with a point after the first one, and the exponent. *)
Definition stringOfNumber (n : Z) : string :=
  let a := Z.abs n in
  if a <? 10 ^ 21 then decimal n
  else
    let '(s, e) :=
      shortestDigits 17 1 a (Z.of_nat (String.length (decimal a))) in
    let digits := decimal s in
    let exponent := e + Z.of_nat (String.length digits) - 1 in
    ((if (n <? 0)%Z then "-" else "")
     ++ match digits with
        | String d EmptyString => String d EmptyString
        | String d more => String d (String "."%char more)
        | EmptyString => EmptyString
        end
     ++ "e+" ++ decimal exponent)%string.

(** [parseInt(v, 10)]: the argument is first converted to a string. *)
Definition parseIntNum (v : Value) : Num :=
  match v with
  | VStr s => parseIntString s
  | VNum n => parseIntString (stringOfNumber n)
  | VNull => parseIntString "null"
  | VUndefined => parseIntString "undefined"
  end.

(** The integer [parseInt(v, 10)] returns; [None] when it returns NaN or
    an infinity. *)
Definition parseInt (v : Value) : option Z :=
  match parseIntNum v with
  | Finite n => Some n
  | _ => None
  end.

Definition isNaN (x : Num) : bool :=
  match x with
  | NaN => true
  | _ => false
  end.

(** [x || d] on a Number: NaN and 0 are falsy. *)
Definition numOr (x : option Z) (d : Z) : Z :=
  match x with
  | Some n => if n =? 0 then d else n
  | None => d
  end.

(** [x || d] on a Number that may be infinite. *)
Definition orNum (x : Num) (d : Z) : Num :=
  match x with
  | NaN => Finite d
  | Finite n => if n =? 0 then Finite d else Finite n
  | Infinite _ => x
  end.

(** What [JSON.stringify] writes for a Number and [JSON.parse] reads
    back: the number, or [null] ([None]) for NaN and the infinities. *)
Definition jsonNumber (x : Num) : option Z :=
  match x with
  | Finite n => Some n
  | _ => None
  end.

(** The value of a property read from a parsed JSON file. *)
Definition ofJson (x : option Z) : Value :=
  match x with
  | Some n => VNum n
  | None => VNull
  end.

(** [p.name === identifier]: strict equality never holds between a string
    and a value of another type. *)
Definition strictEqString (s : string) (v : Value) : bool :=
  match v with
  | VStr t => String.eqb s t
  | _ => false
  end.

(** [x === num] for an integer Number [x] read from a record. *)
Definition strictEqNum (x : Z) (num : Num) : bool :=
  match num with
  | Finite n => x =? n
  | _ => false
  end.

(** [Array.prototype.find] and [findIndex]. *)
Fixpoint findIndex {A : Type} (f : A -> bool) (l : list A) : option nat :=
  match l with
  | [] => None
  | x :: rest => if f x then Some O else option_map S (findIndex f rest)
  end.

(** [arr.splice(i, 1)]. *)
Fixpoint splice1 {A : Type} (i : nat) (l : list A) : list A :=
  match l, i with
  | [], _ => []
  | _ :: rest, O => rest
  | x :: rest, S j => x :: splice1 j rest
  end.

(** In-place update of the object stored at index [i]. *)
Fixpoint updateAt {A : Type} (i : nat) (f : A -> A) (l : list A) : list A :=
  match l, i with
  | [], _ => []
  | x :: rest, O => f x :: rest
  | x :: rest, S j => x :: updateAt j f rest
  end.

End Js.

(** ** Process records *)

Inductive Status : Type := online | stopping | stopped.

Definition Status_eqb (a b : Status) : bool :=
  match a, b with
  | online, online | stopping, stopping | stopped, stopped => true
  | _, _ => false
  end.

Definition Env : Type := list (string * string).

(** The object [processInfo] that [startGTR] builds, as the registry file
    holds it: [instances] is [None] when the file says [null]. *)
Record ProcessInfo : Type := mkProcessInfo {
  id : Z;
  name : string;
  pid : option Z;
  script : string;
  logFile : string;
  errorLogFile : string;
  status : Status;
  instances : option Z;
  restarts : Z;
  memory : float;
  cpu : float;
  env : Env;
  createdAt : option Z;
  updatedAt : Z
}.

Definition set_status (s : Status) (p : ProcessInfo) : ProcessInfo :=
  mkProcessInfo (id p) (name p) (pid p) (script p) (logFile p) (errorLogFile p)
    s (instances p) (restarts p) (memory p) (cpu p) (env p) (createdAt p)
    (updatedAt p).

Definition set_updatedAt (t : Z) (p : ProcessInfo) : ProcessInfo :=
  mkProcessInfo (id p) (name p) (pid p) (script p) (logFile p) (errorLogFile p)
    (status p) (instances p) (restarts p) (memory p) (cpu p) (env p)
    (createdAt p) t.

Definition set_usage (c m : float) (p : ProcessInfo) : ProcessInfo :=
  mkProcessInfo (id p) (name p) (pid p) (script p) (logFile p) (errorLogFile p)
    (status p) (instances p) (restarts p) m c (env p) (createdAt p)
    (updatedAt p).

(** The [options] argument of [startGTR]; a field left out by the caller is
    [None]. *)
Record Options : Type := mkOptions {
  opt_instances : Js.Value;
  opt_env : option Env;
  opt_restarts : option Z;
  opt_createdAt : option Z
}.

(** ** The host: file system, process table and clock *)

Inductive SpawnOutcome : Type :=
| SpawnThrows
| Spawned (childPid : option Z).

(** What the operating system and Node's library answer.  [spawn k s] is
    the outcome of the [k]-th call of [spawn] on script [s], [Date_now k]
    the instant returned by the [k]-th reading of the clock. *)
Class Host : Type := {
  existsSync : string -> bool;
  openSync_ok : string -> bool;
  spawn : nat -> string -> SpawnOutcome;
  Date_now : nat -> Z;
  path_resolve : string -> string;
  path_join : string -> string -> string;
  LOG_DIR : string;
  parseFloat : string -> float
}.

(** The mutable part of the world.  [processFile] is the parsed content of
    [PROCESS_FILE], [None] when the file cannot be read or parsed;
    [ecosystemFile] is [None] when [ecosystem.json] does not exist.
    [storeWritable] tells whether the files under [GTR_HOME] can be
    written. *)
Record World : Type := mkWorld {
  processFile : option (list ProcessInfo);
  ecosystemFile : option (list ProcessInfo);
  storeWritable : bool;
  spawnCalls : nat;
  clockReads : nat
}.

Definition with_processFile (ps : list ProcessInfo) (w : World) : World :=
  mkWorld (Some ps) (ecosystemFile w) (storeWritable w) (spawnCalls w)
    (clockReads w).

Definition with_ecosystemFile (ps : list ProcessInfo) (w : World) : World :=
  mkWorld (processFile w) (Some ps) (storeWritable w) (spawnCalls w)
    (clockReads w).

Definition with_spawnCalls (n : nat) (w : World) : World :=
  mkWorld (processFile w) (ecosystemFile w) (storeWritable w) n (clockReads w).

Definition with_clockReads (n : nat) (w : World) : World :=
  mkWorld (processFile w) (ecosystemFile w) (storeWritable w) (spawnCalls w) n.

(** [new Date()]: reads the clock. *)
Definition newDate `{Host} (w : World) : Z * World :=
  (Date_now (clockReads w), with_clockReads (S (clockReads w)) w).

(** ** Registry store *)

(** [readProcesses]: the parsed file, or [[]] after logging when reading or
    parsing throws. *)
Definition readProcesses (w : World) : list ProcessInfo :=
  match processFile w with
  | Some ps => ps
  | None => []
  end.

(** [writeProcesses]: replaces the file content; [false] after logging when
    the write throws. *)
Definition writeProcesses (processes : list ProcessInfo) (w : World)
  : bool * World :=
  if storeWritable w then (true, with_processFile processes w) else (false, w).

(** [generateId]: the [while (existingIds.has(id)) id++] loop, run for at
    most [fuel] tests of the condition; [None] when the fuel is spent. *)
Fixpoint generateId_loop (fuel : nat) (existingIds : list Z) (id0 : Z)
  : option Z :=
  match fuel with
  | O => None
  | S fuel' =>
      if existsb (Z.eqb id0) existingIds
      then generateId_loop fuel' existingIds (id0 + 1)
      else Some id0
  end.

Definition generateId (w : World) : option Z :=
  let processes := readProcesses w in
  let existingIds := map id processes in
  generateId_loop (S (List.length existingIds)) existingIds 0.

(** The predicate of [findProcess]'s [find]. *)
Definition matchesIdentifier (identifier : Js.Value) (p : ProcessInfo) : bool :=
  let num := Js.parseIntNum identifier in
  Js.strictEqNum (id p) num
  || Js.strictEqString (name p) identifier
  || (negb (Js.isNaN num)
      && match pid p with
         | Some q => Js.strictEqNum q num
         | None => false
         end).

(** [findProcess]: the first record, in file order, that satisfies the
    predicate. *)
Definition findProcess (identifier : Js.Value) (w : World)
  : option ProcessInfo :=
  let processes := readProcesses w in
  find (matchesIdentifier identifier) processes.

(** ** Starting a process *)

Inductive StartError : Type :=
| ScriptMissing    (* "Script ... does not exist" *)
| AlreadyRunning   (* "Process ... is already running. Use restart instead." *)
| SpawnFailed.     (* "Error starting process ..." *)

Inductive StartResult : Type :=
| StartNull (e : StartError)   (* logs [e] and returns null *)
| StartThrows                  (* [fs.openSync] throws; the caller's catch logs it *)
| StartDiverges                (* [generateId] never leaves its loop *)
| Started (newId : Z).         (* returns the id *)

Definition logFileOf `{Host} (name0 : string) : string :=
  path_join LOG_DIR (name0 ++ ".log")%string.

Definition errorLogFileOf `{Host} (name0 : string) : string :=
  path_join LOG_DIR (name0 ++ "-error.log")%string.

(** [p.name === name && p.status === 'online'] *)
Definition onlineNamed (name0 : string) (p : ProcessInfo) : bool :=
  String.eqb (name p) name0 && Status_eqb (status p) online.

(** The object literal [processInfo]; [createdAt0] and [updatedAt0] are the
    values its two time-stamp properties evaluate to. *)
Definition buildProcessInfo `{Host} (id0 : Z) (name0 : string)
    (pid0 : option Z) (script0 : string) (options : Options)
    (existingId : option Z) (createdAt0 : option Z) (updatedAt0 : Z)
  : ProcessInfo :=
  {| id := id0;
     name := name0;
     pid := pid0;
     script := path_resolve script0;
     logFile := logFileOf name0;
     errorLogFile := errorLogFileOf name0;
     status := online;
     instances :=
       Js.jsonNumber (Js.orNum (Js.parseIntNum (opt_instances options)) 1);
     restarts := match existingId with
                 | Some _ => Js.numOr (opt_restarts options) 0 + 1
                 | None => 0
                 end;
     memory := 0%float;
     cpu := 0%float;
     env := match opt_env options with Some e => e | None => [] end;
     createdAt := createdAt0;
     updatedAt := updatedAt0 |}.

Definition startGTR `{Host} (name0 script0 : string) (options : Options)
    (existingId : option Z) (w : World) : StartResult * World :=
  if negb (existsSync script0) then (StartNull ScriptMissing, w)
  else
    let existingProcesses := readProcesses w in
    if existsb (onlineNamed name0) existingProcesses
    then (StartNull AlreadyRunning, w)
    else if negb (openSync_ok (logFileOf name0)) then (StartThrows, w)
    else if negb (openSync_ok (errorLogFileOf name0)) then (StartThrows, w)
    else
      let w1 := with_spawnCalls (S (spawnCalls w)) w in
      match spawn (spawnCalls w) script0 with
      | SpawnThrows => (StartNull SpawnFailed, w1)
      | Spawned pid0 =>
          let processes := readProcesses w1 in
          match (match existingId with
                 | Some i => Some i
                 | None => generateId w1
                 end) with
          | None => (StartDiverges, w1)
          | Some id0 =>
              let '(createdAt0, w2) :=
                match existingId with
                | Some _ => (opt_createdAt options, w1)
                | None => let '(t, w') := newDate w1 in (Some t, w')
                end in
              let '(updatedAt0, w3) := newDate w2 in
              let processInfo :=
                buildProcessInfo id0 name0 pid0 script0 options existingId
                  createdAt0 updatedAt0 in
              let '(_, w4) := writeProcesses (processes ++ [processInfo])%list w3 in
              (Started id0, w4)
          end
      end.

(** ** Stopping a process *)

(** Callbacks waiting in the event loop, each with the record object its
    closure captured. *)
Inductive Task : Type :=
| KillDone (process : ProcessInfo)        (* callback of [exec(`kill pid`)] *)
| KillForceDone (process : ProcessInfo)   (* callback of [exec(`kill -9 pid`)] *)
| RestartTimeout (process : ProcessInfo)  (* [setTimeout(..., 2000)] of restart *)
| DeleteTimeout (process : ProcessInfo).  (* [setTimeout(..., 1000)] of delete *)

(** [if (process.pid)]: an absent pid and the number 0 are falsy. *)
Definition pidTruthy (p : ProcessInfo) : bool :=
  match pid p with
  | Some q => negb (q =? 0)
  | None => false
  end.

(** [p.id === process.id] *)
Definition sameId (process p : ProcessInfo) : bool := id p =? id process.

(** The three statements that mark the record with [process]'s id as
    stopped in a freshly read array and write the array back. *)
Definition markStopped `{Host} (process : ProcessInfo) (w : World) : World :=
  let updatedProcesses := readProcesses w in
  match Js.findIndex (sameId process) updatedProcesses with
  | Some processIndex =>
      let '(t, w1) := newDate w in
      snd (writeProcesses
             (Js.updateAt processIndex
                (fun p => set_updatedAt t (set_status stopped p))
                updatedProcesses) w1)
  | None => w
  end.

(** [stopGTR].  [processes] is the array parsed at the function's first
    line.  [findProcess] parses the file again, so the object [process] it
    returns belongs to that second array and not to [processes]: the
    assignments to [process.status] and [process.updatedAt] change that
    object only, and [writeProcesses(processes)] writes the first array,
    which they have not touched.  [exec] is taken not to throw.  The result
    is the returned boolean, the world, the callbacks scheduled, and the
    object [process] as the assignments left it ([None] when nothing
    matched). *)
Definition stopGTR `{Host} (identifier : Js.Value) (w : World)
  : bool * World * list Task * option ProcessInfo :=
  let processes := readProcesses w in
  match findProcess identifier w with
  | None => (false, w, [], None)
  | Some process =>
      let '(t, w1) := newDate w in
      let process1 := set_updatedAt t (set_status stopping process) in
      let '(_, w2) := writeProcesses processes w1 in
      if pidTruthy process1
      then (true, w2, [KillDone process1], Some process1)
      else
        let process2 := set_status stopped process1 in
        let '(_, w3) := writeProcesses processes w2 in
        (true, w3, [], Some process2)
  end.

(** Callback of [exec(`kill pid`)]; [error] tells whether exec reported an
    error. *)
Definition onKillDone `{Host} (process : ProcessInfo) (error : bool)
    (w : World) : World * list Task :=
  if error then (w, [KillForceDone process])
  else (markStopped process w, []).

(** Callback of [exec(`kill -9 pid`)]. *)
Definition onKillForceDone `{Host} (process : ProcessInfo) (error : bool)
    (w : World) : World :=
  if error then w else markStopped process w.

(** ** The restart and delete commands *)

Inductive RestartResult : Type :=
| RestartNotFound                       (* "Process ... not found" *)
| RestartScheduled.                     (* stop issued, timer armed *)

Definition restart `{Host} (identifier : Js.Value) (w : World)
  : RestartResult * World * list Task :=
  match findProcess identifier w with
  | None => (RestartNotFound, w, [])
  | Some process =>
      let '(_, w1, tasks, _) := stopGTR (Js.VNum (id process)) w in
      (RestartScheduled, w1, (tasks ++ [RestartTimeout process])%list)
  end.

Inductive TimeoutResult : Type :=
| RestartLost                           (* "... was lost during restart" *)
| Restarted (r : StartResult).          (* old record removed, [startGTR] called *)

(** The options object the restart callback passes to [startGTR]. *)
Definition restartOptions (process : ProcessInfo) : Options :=
  {| opt_instances := Js.ofJson (instances process);
     opt_env := Some (env process);
     opt_restarts := Some (restarts process);
     opt_createdAt := createdAt process |}.

(** The function handed to [setTimeout] by restart. *)
Definition onRestartTimeout `{Host} (process : ProcessInfo) (w : World)
  : TimeoutResult * World :=
  let updatedProcesses := readProcesses w in
  match find (sameId process) updatedProcesses with
  | None => (RestartLost, w)
  | Some _ =>
      let w1 :=
        match Js.findIndex (sameId process) updatedProcesses with
        | Some processIndex =>
            snd (writeProcesses (Js.splice1 processIndex updatedProcesses) w)
        | None => w
        end in
      let '(r, w2) :=
        startGTR (name process) (script process) (restartOptions process)
          (Some (id process)) w1 in
      (Restarted r, w2)
  end.

Inductive DeleteResult : Type :=
| DeleteNotFound
| DeleteScheduled
| Deleted.

(** The action of the delete command; [stop] is [options.stop]. *)
Definition delete `{Host} (identifier : Js.Value) (stop : bool) (w : World)
  : DeleteResult * World * list Task :=
  let processes := readProcesses w in
  match findProcess identifier w with
  | None => (DeleteNotFound, w, [])
  | Some process =>
      if stop && Status_eqb (status process) online
      then
        let '(_, w1, tasks, _) := stopGTR (Js.VNum (id process)) w in
        (DeleteScheduled, w1, (tasks ++ [DeleteTimeout process])%list)
      else
        let processes' :=
          match Js.findIndex (sameId process) processes with
          | Some processIndex => Js.splice1 processIndex processes
          | None => removelast processes     (* [splice(-1, 1)] *)
          end in
        (Deleted, snd (writeProcesses processes' w), [])
  end.

(** The function handed to [setTimeout] by delete. *)
Definition onDeleteTimeout (process : ProcessInfo) (w : World) : World :=
  let updatedProcesses := readProcesses w in
  match Js.findIndex (sameId process) updatedProcesses with
  | Some processIndex =>
      snd (writeProcesses (Js.splice1 processIndex updatedProcesses) w)
  | None => w
  end.

(** ** The show and logs commands *)

Inductive ShowResult : Type :=
| ShowNotFound                          (* "Process ... not found" *)
| ShowDetails (process : ProcessInfo).  (* the details of the record are printed *)

Definition show (identifier : Js.Value) (w : World) : ShowResult :=
  match findProcess identifier w with
  | None => ShowNotFound
  | Some process => ShowDetails process
  end.

Inductive LogsResult : Type :=
| LogsNotFound                          (* "Process ... not found" *)
| LogsNoFile (name0 : string)           (* "No logs found for ..." *)
| LogsTail (file : string).             (* [tail] runs on the file *)

(** The action of the logs command up to the choice of the file; [error]
    is [options.error].  Clearing and tailing act on the log file only. *)
Definition logs `{Host} (identifier : Js.Value) (error : bool) (w : World)
  : LogsResult :=
  match findProcess identifier w with
  | None => LogsNotFound
  | Some process =>
      let file := if error then errorLogFile process else logFile process in
      if negb (existsSync file) then LogsNoFile (name process)
      else LogsTail file
  end.

(** ** save, resurrect, prune *)

(** The action of the save command; the snapshot is written when the store
    is writable, otherwise the error is logged. *)
Definition save (w : World) : World :=
  let processes := readProcesses w in
  if storeWritable w then with_ecosystemFile processes w else w.

(** The options object resurrect passes to [startGTR]. *)
Definition resurrectOptions (process : ProcessInfo) : Options :=
  {| opt_instances := Js.ofJson (instances process);
     opt_env := Some (env process);
     opt_restarts := None;
     opt_createdAt := None |}.

Inductive ResurrectItem : Type :=
| Resurrecting (name0 : string) (r : StartResult)   (* [startGTR] was called *)
| CannotResurrect (name0 : string).                 (* "Cannot resurrect ..." *)

(** The [forEach] loop of resurrect.  An exception of [startGTR] leaves the
    loop: the entries after it are not visited. *)
Fixpoint resurrectEach `{Host} (processes : list ProcessInfo) (w : World)
  : list ResurrectItem * World :=
  match processes with
  | [] => ([], w)
  | process :: rest =>
      if existsSync (script process)
      then
        let '(r, w1) :=
          startGTR (name process) (script process) (resurrectOptions process)
            None w in
        match r with
        | StartThrows | StartDiverges => ([Resurrecting (name process) r], w1)
        | _ =>
            let '(items, w2) := resurrectEach rest w1 in
            (Resurrecting (name process) r :: items, w2)
        end
      else
        let '(items, w1) := resurrectEach rest w in
        (CannotResurrect (name process) :: items, w1)
  end.

Inductive ResurrectResult : Type :=
| NoSavedList                           (* "No saved process list found" *)
| EmptyEcosystem                        (* "No processes in saved ecosystem" *)
| Resurrected (items : list ResurrectItem).

Definition resurrect `{Host} (w : World) : ResurrectResult * World :=
  match ecosystemFile w with
  | None => (NoSavedList, w)
  | Some processes =>
      if (List.length processes =? 0)%nat then (EmptyEcosystem, w)
      else
        let '(items, w1) := resurrectEach processes w in
        (Resurrected items, w1)
  end.

Inductive PruneResult : Type :=
| NothingToPrune                        (* "No stopped processes to prune" *)
| Pruned (count : nat).

Definition isOnline (p : ProcessInfo) : bool := Status_eqb (status p) online.

Definition prune (w : World) : PruneResult * World :=
  let processes := readProcesses w in
  let initialCount := List.length processes in
  let activeProcesses := filter isOnline processes in
  if (List.length activeProcesses =? initialCount)%nat
  then (NothingToPrune, w)
  else
    (Pruned (initialCount - List.length activeProcesses),
     snd (writeProcesses activeProcesses w)).

(** ** Monitoring *)

Module JsString.

Fixpoint dropWhiteSpace (l : list ascii) : list ascii :=
  match l with
  | c :: rest => if Js.isWhiteSpace c then dropWhiteSpace rest else l
  | [] => []
  end.

(** [s.trim()] *)
Definition trim (s : string) : string :=
  string_of_list_ascii
    (rev (dropWhiteSpace (rev (dropWhiteSpace (list_ascii_of_string s))))).

(** [s.split(sep)] for a one-character separator; [cur] holds the piece
    being read, last character first. *)
Fixpoint splitChars (sep : ascii) (l cur : list ascii) : list string :=
  match l with
  | [] => [string_of_list_ascii (rev cur)]
  | c :: rest =>
      if Ascii.eqb c sep
      then string_of_list_ascii (rev cur) :: splitChars sep rest []
      else splitChars sep rest (c :: cur)
  end.

Definition split (sep : ascii) (s : string) : list string :=
  splitChars sep (list_ascii_of_string s) [].

(** [s.split(/\s+/)]; [inSep] tells that the previous character belonged to
    a separator. *)
Fixpoint splitWhiteSpaceChars (l cur : list ascii) (inSep : bool)
  : list string :=
  match l with
  | [] => [string_of_list_ascii (rev cur)]
  | c :: rest =>
      if Js.isWhiteSpace c
      then
        if inSep then splitWhiteSpaceChars rest cur true
        else string_of_list_ascii (rev cur) :: splitWhiteSpaceChars rest [] true
      else splitWhiteSpaceChars rest (c :: cur) false
  end.

Definition splitWhiteSpace (s : string) : list string :=
  splitWhiteSpaceChars (list_ascii_of_string s) [] false.

End JsString.

(** How a call of [exec] through [safeExec] ends: [exec] throws and the
    callback runs at once with [(error, null)], or the callback runs later
    with [(error, stdout)]. *)
Inductive ExecAnswer : Type :=
| ExecThrows
| ExecCalls (error : bool) (stdout : string).

(** The answers of the operating system to the queries about one record:
    [ps -p pid -o pid=] and [ps -p pid -o %cpu,%mem]. *)
Record Answers : Type := mkAnswers {
  liveness : ExecAnswer;
  usage : ExecAnswer
}.

(** The local state of one call of [monitorProcesses]: the array
    [processes], whose objects the callbacks mutate, and the flag
    [updated]. *)
Record Poll : Type := mkPoll {
  polled : list ProcessInfo;
  updated : bool
}.

(** [process.status = 'stopped'; process.updatedAt = ...; updated = true]
    on the object at index [i]. *)
Definition stopInMemory `{Host} (i : nat) (m : Poll) (w : World)
  : Poll * World :=
  let '(t, w1) := newDate w in
  (mkPoll (Js.updateAt i (fun p => set_updatedAt t (set_status stopped p))
             (polled m)) true, w1).

(** Callback of the usage query for the object at index [i]. *)
Definition usageCallback `{Host} (i : nat) (a : ExecAnswer) (m : Poll)
    (w : World) : Poll * World :=
  match a with
  | ExecThrows => (m, w)
  | ExecCalls error stdout =>
      if negb error && negb (String.eqb stdout "")
      then
        let lines := JsString.split "010"%char (JsString.trim stdout) in
        if (1 <? List.length lines)%nat
        then
          let fields :=
            JsString.splitWhiteSpace (JsString.trim (nth 1 lines "")) in
          let cpu0 := parseFloat (nth 0 fields "undefined") in
          let mem0 := parseFloat (nth 1 fields "undefined") in
          let '(t, w1) := newDate w in
          (mkPoll (Js.updateAt i
                     (fun p => set_updatedAt t (set_usage cpu0 mem0 p))
                     (polled m)) true, w1)
        else (m, w)
      else (m, w)
  end.

(** [error || !stdout.trim()] in the liveness callback. *)
Definition reportsDead (a : ExecAnswer) : bool :=
  match a with
  | ExecThrows => true
  | ExecCalls error stdout => error || String.eqb (JsString.trim stdout) ""
  end.

(** Callback of the liveness query for the object at index [i], followed by
    the callback of the query it issues in turn.  The callback of
    [kill -9] ignores its arguments. *)
Definition livenessCallback `{Host} (i : nat) (a : Answers) (m : Poll)
    (w : World) : Poll * World :=
  match nth_error (polled m) i with
  | None => (m, w)
  | Some process =>
      if reportsDead (liveness a)
      then
        if negb (Status_eqb (status process) stopped)
        then stopInMemory i m w
        else (m, w)
      else if Status_eqb (status process) stopping
      then
        let '(now, w1) := newDate w in
        let stoppingDuration := now - updatedAt process in
        if stoppingDuration >? 30000 then stopInMemory i m w1 else (m, w1)
      else usageCallback i (usage a) m w
  end.

(** [process.status === 'online' || process.status === 'stopping'] *)
Definition isPolled (p : ProcessInfo) : bool :=
  Status_eqb (status p) online || Status_eqb (status p) stopping.

(** The [for ... of] loop of [monitorProcesses] over the [count] objects
    from index [i] on.  Only a callback run by [safeExec]'s catch runs
    inside the loop. *)
Fixpoint monitorLoop `{Host} (answers : nat -> Answers) (count i : nat)
    (m : Poll) (w : World) : Poll * World :=
  match count with
  | O => (m, w)
  | S count' =>
      let '(m1, w1) :=
        match nth_error (polled m) i with
        | Some process =>
            if isPolled process
            then
              match liveness (answers i) with
              | ExecThrows => livenessCallback i (answers i) m w
              | ExecCalls _ _ => (m, w)
              end
            else (m, w)
        | None => (m, w)
        end in
      monitorLoop answers count' (S i) m1 w1
  end.

(** [monitorProcesses] up to its return: the loop and the conditional
    write.  The callbacks still pending run afterwards, see [settle]; what
    they change is the array only, which is not written again. *)
Definition monitorProcesses `{Host} (answers : nat -> Answers) (w : World)
  : Poll * World :=
  let processes := readProcesses w in
  let '(m, w1) :=
    monitorLoop answers (List.length processes) 0 (mkPoll processes false) w in
  if updated m then (m, snd (writeProcesses (polled m) w1)) else (m, w1).

(** The liveness callback of the object at index [i] is pending when
    [monitorProcesses] returns: the loop issued the query and [exec] did
    not throw.  [registered] is the array as the loop found it. *)
Definition pendingCallback (answers : nat -> Answers)
    (registered : list ProcessInfo) (i : nat) : bool :=
  match nth_error registered i with
  | Some process =>
      isPolled process
      && match liveness (answers i) with
         | ExecThrows => false
         | ExecCalls _ _ => true
         end
  | None => false
  end.

(** The pending callbacks run once [monitorProcesses] has returned, in the
    order in which the queries complete: [order] lists the indices of the
    objects in that order. *)
Fixpoint settle `{Host} (answers : nat -> Answers)
    (registered : list ProcessInfo) (order : list nat) (m : Poll) (w : World)
  : Poll * World :=
  match order with
  | [] => (m, w)
  | i :: rest =>
      let '(m1, w1) :=
        if pendingCallback answers registered i
        then livenessCallback i (answers i) m w
        else (m, w) in
      settle answers registered rest m1 w1
  end.

(** ** Text of numbers, uptime display *)

(** [String(n)] for an integer Number below [10^21] in magnitude: its
    decimal numeral. *)
Definition numberToString (n : Z) : string :=
  NilZero.string_of_int (Z.to_int n).

(** [formatUptime].  The argument is a difference of two dates: an integer
    number of milliseconds, or NaN ([None]) when a date is invalid.  On an
    integer, [Math.floor(x / k)] is [x / k] and [%] is [Z.rem]. *)
Definition formatUptime (ms : option Z) : string :=
  match ms with
  | None => "NaNs"
  | Some ms =>
      let seconds := ms / 1000 in
      let minutes := seconds / 60 in
      let hours := minutes / 60 in
      let days := hours / 24 in
      if days >? 0
      then (numberToString days ++ "d "
            ++ numberToString (Z.rem hours 24) ++ "h")%string
      else if hours >? 0
      then (numberToString hours ++ "h "
            ++ numberToString (Z.rem minutes 60) ++ "m")%string
      else if minutes >? 0
      then (numberToString minutes ++ "m "
            ++ numberToString (Z.rem seconds 60) ++ "s")%string
      else (numberToString seconds ++ "s")%string
  end.

(** The uptime cell of a row of the list and monitor tables; [now] is the
    value of [new Date()]. *)
Definition uptimeColumn (now : Z) (process : ProcessInfo) : string :=
  if Status_eqb (status process) online
  then formatUptime (option_map (fun c => now - c) (createdAt process))
  else "0s".

(** ** The [--env] option of start *)

(** A canonical array index: such property names come first, in ascending
    numeric order, when the properties of an object are listed. *)
Definition arrayIndex (key : string) : option Z :=
  match Js.mathInt key with
  | Some n =>
      if String.eqb (numberToString n) key && (0 <=? n) && (n <? 4294967295)
      then Some n
      else None
  | None => None
  end.

(** Position of a new array-index property among those already there. *)
Fixpoint insertIndexKey (n : Z) (key value : string) (env0 : Env) : Env :=
  match env0 with
  | [] => [(key, value)]
  | (k, v) :: rest =>
      match arrayIndex k with
      | Some m =>
          if m <? n then (k, v) :: insertIndexKey n key value rest
          else (key, value) :: env0
      | None => (key, value) :: env0
      end
  end.

(** [env[key] = value] on a plain object, listed in property order.  An
    existing property keeps its place; a new one goes after the others, or
    among the array indices when it is one.  Assigning a string to
    [__proto__] creates no property. *)
Definition envAssign (key value : string) (env0 : Env) : Env :=
  if String.eqb key "__proto__" then env0
  else if existsb (fun kv => String.eqb (fst kv) key) env0
  then map (fun kv => if String.eqb (fst kv) key then (key, value) else kv)
         env0
  else
    match arrayIndex key with
    | Some n => insertIndexKey n key value env0
    | None => (env0 ++ [(key, value)])%list
    end.

(** The body of the [reduce] callback: [const [key, value] =
    item.split('=')], then the guarded assignment. *)
Definition parseEnvItem (env0 : Env) (item : string) : Env :=
  match JsString.split "="%char item with
  | key :: value :: _ =>
      if negb (String.eqb key "")
      then envAssign (JsString.trim key) (JsString.trim value) env0
      else env0
  | _ => env0
  end.

(** The argument parser of [-e, --env <items>]. *)
Definition parseEnv (val : string) : Env :=
  fold_left parseEnvItem (JsString.split ","%char val) [].

(** [env[key]] *)
Definition envLookup (key : string) (env0 : Env) : option string :=
  option_map snd (find (fun kv => String.eqb (fst kv) key) env0).

(** ** The clearlogs command *)







(** ** Specification vocabulary *)

(** [i] is the smallest non-negative integer that does not occur in [ids]. *)
Definition leastUnused (ids : list Z) (i : Z) : Prop :=
  0 <= i /\ ~ In i ids /\ forall j, 0 <= j < i -> In j ids.

Definition idsOf (w : World) : list Z := map id (readProcesses w).

(** A [start] request as the command line gives it. *)
Record StartRequest : Type := mkStartRequest {
  req_name : string;
  req_script : string;
  req_options : Options
}.

(** A run of [start] calls, every one of which returns an id. *)
Inductive StartsAll `{Host}
  : World -> list StartRequest -> list Z -> World -> Prop :=
| StartsAll_nil : forall w, StartsAll w [] [] w
| StartsAll_cons : forall w r rs i ids w1 w2,
    startGTR (req_name r) (req_script r) (req_options r) None w
      = (Started i, w1) ->
    StartsAll w1 rs ids w2 ->
    StartsAll w (r :: rs) (i :: ids) w2.

(** ** Auxiliary definitions *)

(** Number of ids not below [k]: the loop's variant. *)
Definition atLeast (k : Z) (l : list Z) : nat :=
  List.length (filter (fun x => k <=? x) l).

(** The values of the two time-stamp properties of the new record. *)
Definition stampsOf `{Host} (options : Options) (existingId : option Z)
    (w : World) : option Z * Z :=
  match existingId with
  | Some _ => (opt_createdAt options, Date_now (clockReads w))
  | None => (Some (Date_now (clockReads w)), Date_now (S (clockReads w)))
  end.

(** The usage query failed or returned no data: [exec] threw, the callback
    got an error, the output is empty, or the output has no line after the
    header. *)
Definition usageUnavailable (a : ExecAnswer) : bool :=
  match a with
  | ExecThrows => true
  | ExecCalls error stdout =>
      error || String.eqb stdout ""
      || (List.length (JsString.split "010"%char (JsString.trim stdout))
          <=? 1)%nat
  end.

(** Answers for [appWorld]: the process is alive, the usage query fails. *)
Definition aliveNoUsage (k : nat) : Answers :=
  mkAnswers (ExecCalls false " 1000") (ExecCalls true "").

(** The saved entries resurrect tries to start. *)
Definition resurrectable `{Host} (saved : list ProcessInfo)
  : list ProcessInfo :=
  filter (fun p => existsSync (script p)) saved.

(** The start request resurrect issues for a saved entry. *)
Definition resurrectRequest (e : ProcessInfo) : StartRequest :=
  mkStartRequest (name e) (script e) (resurrectOptions e).

(** The count [startGTR] stores when it is handed [v] as
    [options.instances]: [parseInt(v, 10) || 1], as [JSON.stringify] writes
    it. *)
Definition storedInstances (v : Js.Value) : option Z :=
  Js.jsonNumber (Js.orNum (Js.parseIntNum v) 1).

(** A count that restart and resurrect carry over unchanged: a non-zero
    integer Number below [10^21] in magnitude, from where on [String]
    writes an exponent. *)
Definition plainCount (x : option Z) : Prop :=
  exists n, x = Some n /\ n <> 0 /\ Z.abs n < 10 ^ 21
            /\ Js.toNumber n = Js.Finite n.

(** [r] is the record a fresh start builds from the saved entry [e]. *)
Definition resurrectedFrom `{Host} (e r : ProcessInfo) : Prop :=
  name r = name e
  /\ script r = path_resolve (script e)
  /\ env r = env e
  /\ instances r = storedInstances (Js.ofJson (instances e))
  /\ (plainCount (instances e) -> instances r = instances e)
  /\ status r = online
  /\ restarts r = 0
  /\ exists k, createdAt r = Some (Date_now k).

(** What resurrect does with one entry of the snapshot. *)
Inductive Plan : Type :=
| PlanMissing (name0 : string)   (* script missing: skipped and reported *)
| PlanRejected (name0 : string)  (* the name is online: AlreadyRunning *)
| PlanStart (e : ProcessInfo).   (* a new record is started *)

(** What resurrect does with the entries of the snapshot, in their order,
    when every start that passes the checks succeeds; [taken] tells the
    names that are online in the registry.  An entry whose script exists
    is started unless its name is online, by then also the names of the
    entries started before it. *)
Fixpoint resurrectPlan `{Host} (taken : string -> bool)
    (saved : list ProcessInfo) : list Plan :=
  match saved with
  | [] => []
  | e :: rest =>
      if existsSync (script e)
      then
        if taken (name e)
        then PlanRejected (name e) :: resurrectPlan taken rest
        else
          PlanStart e
          :: resurrectPlan (fun n => String.eqb (name e) n || taken n) rest
      else PlanMissing (name e) :: resurrectPlan taken rest
  end.

(** The entries a plan starts. *)
Definition planStarts (plan : list Plan) : list ProcessInfo :=
  flat_map (fun p => match p with PlanStart e => [e] | _ => [] end) plan.

(** The line resurrect reports for a step of the plan. *)
Definition reportedAs (p : Plan) (item : ResurrectItem) : Prop :=
  match p with
  | PlanMissing n => item = CannotResurrect n
  | PlanRejected n => item = Resurrecting n (StartNull AlreadyRunning)
  | PlanStart e => exists i, item = Resurrecting (name e) (Started i)
  end.

(** The names online in the registry of [w]. *)
Definition onlineIn (w : World) (n : string) : bool :=
  existsb (onlineNamed n) (readProcesses w).

(** The claim about the round trip, at one world: after [save], resurrect
    adds one new online record for every saved entry whose script
    exists. *)
Definition RoundTripAddsRecords (h : Host) (w : World) : Prop :=
  let saved := readProcesses w in
  let w' := snd (@resurrect h (save w)) in
  exists news,
    readProcesses w' = (readProcesses (save w) ++ news)%list
    /\ List.length news = List.length (@resurrectable h saved)
    /\ forall r, In r news -> status r = online.



(** One command or one callback of the program. *)
Inductive Step `{Host} (w : World) : World -> Prop :=
| Step_start : forall name0 script0 options,
    Step w (snd (startGTR name0 script0 options None w))
| Step_stop : forall identifier,
    Step w (snd (fst (fst (stopGTR identifier w))))
| Step_killDone : forall process error,
    Step w (fst (onKillDone process error w))
| Step_killForceDone : forall process error,
    Step w (onKillForceDone process error w)
| Step_restart : forall identifier,
    Step w (snd (fst (restart identifier w)))
| Step_restartTimeout : forall process,
    Step w (snd (onRestartTimeout process w))
| Step_delete : forall identifier stop,
    Step w (snd (fst (delete identifier stop w)))
| Step_deleteTimeout : forall process,
    Step w (onDeleteTimeout process w)
| Step_save : Step w (save w)
| Step_resurrect : Step w (snd (resurrect w))
| Step_prune : Step w (snd (prune w))
| Step_monitor : forall answers,
    Step w (snd (monitorProcesses answers w)).

(** The worlds the program reaches from an empty registry file. *)
Inductive Reachable `{Host} : World -> Prop :=
| Reachable_init : forall eco writable spawns reads,
    Reachable (mkWorld (Some []) eco writable spawns reads)
| Reachable_step : forall w w',
    Reachable w -> Step w w' -> Reachable w'.

(** What every registry written by the program satisfies: ids are pairwise
    distinct and no record has [instances] 0. *)
Definition registryInvariant (l : list ProcessInfo) : Prop :=
  NoDup (map id l) /\ Forall (fun p => instances p <> Some 0) l.

(** ** Resolution as specified *)

(** Resolution as the specification words it: an identifier that parses as
    an integer is compared against [id] and [pid] only, any other
    identifier against [name] only. *)
Definition resolveAsSpecified (identifier : Js.Value)
    (processes : list ProcessInfo) : option ProcessInfo :=
  match Js.parseInt identifier with
  | Some n =>
      find (fun p => (id p =? n)
                     || match pid p with Some q => q =? n | None => false end)
        processes
  | None => find (fun p => Js.strictEqString (name p) identifier) processes
  end.

(** ** A concrete host and concrete worlds *)

(** A host on which every script but [/missing.js] exists, log files open,
    and the [k]-th spawn yields pid [1000 + k]. *)
Definition demoHost : Host :=
  {| existsSync := fun s => negb (String.eqb s "/missing.js");
     openSync_ok := fun _ => true;
     spawn := fun k _ => Spawned (Some (1000 + Z.of_nat k));
     Date_now := fun k => 1700000000000 + Z.of_nat k;
     path_resolve := fun s => s;
     path_join := fun d f => (d ++ "/" ++ f)%string;
     LOG_DIR := "/home/gtr/.gtr-manager/logs";
     parseFloat := fun _ => 0%float |}.

(** The registry right after installation: [processes.json] holds [[]]. *)
Definition freshWorld : World := mkWorld (Some []) None true 0 0.

(** The options of [start app.js] with no flag given. *)
Definition cliOptions : Options :=
  mkOptions (Js.VStr "1") (Some []) None None.

(** The world after [start /srv/app.js --name app] on [freshWorld]. *)
Definition appWorld : World :=
  snd (@startGTR demoHost "app" "/srv/app.js" cliOptions None freshWorld).

(** The world after [start /srv/app.js --name 7] on [freshWorld]. *)
Definition sevenWorld : World :=
  snd (@startGTR demoHost "7" "/srv/app.js" cliOptions None freshWorld).

(** The same host, except that [spawn] returns a child whose [pid] is
    undefined (the interpreter could not be launched). *)
Definition pidlessHost : Host :=
  {| existsSync := @existsSync demoHost;
     openSync_ok := @openSync_ok demoHost;
     spawn := fun _ _ => Spawned None;
     Date_now := @Date_now demoHost;
     path_resolve := @path_resolve demoHost;
     path_join := @path_join demoHost;
     LOG_DIR := @LOG_DIR demoHost;
     parseFloat := @parseFloat demoHost |}.

(** The world after [start /srv/app.js --name app] on that host: the
    record is online and has no [pid] property. *)
Definition orphanWorld : World :=
  snd (@startGTR pidlessHost "app" "/srv/app.js" cliOptions None freshWorld).

Definition orphanRecord : ProcessInfo :=
  {| id := 0; name := "app"; pid := None; script := "/srv/app.js";
     logFile := "/home/gtr/.gtr-manager/logs/app.log";
     errorLogFile := "/home/gtr/.gtr-manager/logs/app-error.log";
     status := online; instances := Some 1; restarts := 0;
     memory := 0%float; cpu := 0%float; env := [];
     createdAt := Some 1700000000000; updatedAt := 1700000000001 |}.

(** ** A restart whose termination requests both fail *)

(** The record of [appWorld], as the restart command captures it. *)
Definition appRecord : ProcessInfo :=
  {| id := 0; name := "app"; pid := Some 1000; script := "/srv/app.js";
     logFile := "/home/gtr/.gtr-manager/logs/app.log";
     errorLogFile := "/home/gtr/.gtr-manager/logs/app-error.log";
     status := online; instances := Some 1; restarts := 0;
     memory := 0%float; cpu := 0%float; env := [];
     createdAt := Some 1700000000000; updatedAt := 1700000000001 |}.

(** The object [process] inside [stopGTR] after its two assignments. *)
Definition appStopping : ProcessInfo :=
  set_updatedAt 1700000000002 (set_status stopping appRecord).

(** The world [restart app] leaves when it returns. *)
Definition afterRestartCommand : World :=
  snd (fst (@restart demoHost (Js.VStr "app") appWorld)).

(** [kill 1000] reports an error, then [kill -9 1000] reports an error. *)
Definition afterFailedKills : World :=
  @onKillForceDone demoHost appStopping true
    (fst (@onKillDone demoHost appStopping true afterRestartCommand)).

(** The world after the restart timer has fired on [afterFailedKills],
    and the record the callback wrote. *)
Definition restartedOnce : World :=
  snd (@onRestartTimeout demoHost appRecord afterFailedKills).












(** A registry with a stopped record between two online ones. *)
Definition mixedWorld : World :=
  mkWorld
    (Some [appRecord;
           set_status stopped
             (mkProcessInfo 1 "api" (Some 1001) "/srv/api.js"
                "/home/gtr/.gtr-manager/logs/api.log"
                "/home/gtr/.gtr-manager/logs/api-error.log"
                online (Some 1) 0 0%float 0%float [] (Some 1700000000002)
                1700000000003);
           mkProcessInfo 2 "web" (Some 1002) "/srv/web.js"
             "/home/gtr/.gtr-manager/logs/web.log"
             "/home/gtr/.gtr-manager/logs/web-error.log"
             online (Some 1) 0 0%float 0%float [] (Some 1700000000004)
             1700000000005])
    None true 3 6.

(** The claim about a duplicate start, at one call: the call fails with
    AlreadyRunning and leaves the world as it was. *)
Definition DuplicateStartFailsAlreadyRunning (h : Host)
    (name0 script0 : string) (options : Options) (w : World) : Prop :=
  existsb (onlineNamed name0) (readProcesses w) = true ->
  @startGTR h name0 script0 options None w = (StartNull AlreadyRunning, w).

(** The world after [start /srv/api.js --name api] on [appWorld]. *)
Definition twoAppsWorld : World :=
  snd (@startGTR demoHost "api" "/srv/api.js" cliOptions None appWorld).

(** The world after [delete app --no-stop] on [twoAppsWorld]. *)
Definition afterDeleteApp : World :=
  snd (fst (@delete demoHost (Js.VStr "app") false twoAppsWorld)).

(** A saved entry whose script has gone. *)
Definition goneRecord : ProcessInfo :=
  mkProcessInfo 1 "gone" (Some 1001) "/missing.js"
    "/home/gtr/.gtr-manager/logs/gone.log"
    "/home/gtr/.gtr-manager/logs/gone-error.log"
    online (Some 1) 0 0%float 0%float [] (Some 1700000000002) 1700000000003.

(** An empty registry next to a snapshot of two entries. *)
Definition snapshotWorld : World :=
  mkWorld (Some []) (Some [appRecord; goneRecord]) true 0 0.

(** A snapshot that names [app] twice, around an entry whose script is
    gone, and an empty registry. *)
Definition twiceWorld : World :=
  mkWorld (Some []) (Some [appRecord; goneRecord; appRecord]) true 0 0.

(** ** Vocabulary of the further properties *)

(** Value of a digit sequence read after the prefix [acc]. *)
Fixpoint uintValue (d : Decimal.uint) (acc : Z) : Z :=
  match d with
  | Decimal.Nil => acc
  | Decimal.D0 l => uintValue l (10 * acc)
  | Decimal.D1 l => uintValue l (10 * acc + 1)
  | Decimal.D2 l => uintValue l (10 * acc + 2)
  | Decimal.D3 l => uintValue l (10 * acc + 3)
  | Decimal.D4 l => uintValue l (10 * acc + 4)
  | Decimal.D5 l => uintValue l (10 * acc + 5)
  | Decimal.D6 l => uintValue l (10 * acc + 6)
  | Decimal.D7 l => uintValue l (10 * acc + 7)
  | Decimal.D8 l => uintValue l (10 * acc + 8)
  | Decimal.D9 l => uintValue l (10 * acc + 9)
  end.

(** The text ends or goes on with a character that is no decimal digit. *)
Definition stopsDigits (rest : string) : Prop :=
  match rest with
  | EmptyString => True
  | String c _ => Js.digitValue c = None
  end.

(** The character [c] does not occur in [s]. *)
Definition noChar (c : ascii) (s : string) : Prop :=
  ~ In c (list_ascii_of_string s).

(** The entry [kv] is the variable [key]. *)
Definition hasKey (key : string) (kv : string * string) : bool :=
  String.eqb (fst kv) key.

(** No variable twice, and no property named [__proto__]. *)
Definition envWellFormed (env0 : Env) : Prop :=
  NoDup (map fst env0) /\ ~ In "__proto__" (map fst env0).

(** [l] is [l'] with some elements left out. *)
Inductive Subseq {A : Type} : list A -> list A -> Prop :=
| Subseq_nil : Subseq [] []
| Subseq_skip : forall x l l', Subseq l l' -> Subseq l (x :: l')
| Subseq_keep : forall x l l', Subseq l l' -> Subseq (x :: l) (x :: l').

(** The names of the online records, in registry order. *)
Definition onlineNames (l : list ProcessInfo) : list string :=
  map name (filter isOnline l).

(** No two online records have the same name. *)
Definition namesUnique (l : list ProcessInfo) : Prop :=
  NoDup (onlineNames l).

(** [q] is the record [p] after a monitoring pass: identity, location,
    counters and environment as before; the status as before or
    ['stopped']. *)
Definition polledFrom (p q : ProcessInfo) : Prop :=
  id q = id p /\ name q = name p /\ pid q = pid p /\ script q = script p
  /\ logFile q = logFile p /\ errorLogFile q = errorLogFile p
  /\ instances q = instances p /\ restarts q = restarts p
  /\ env q = env p /\ createdAt q = createdAt p
  /\ (status q = status p \/ status q = stopped).

(** ** Lemmas on the registry store and on id allocation *)

Section StoreFacts.

Context `{Host}.

Lemma readProcesses_write (ps : list ProcessInfo) (w : World) :
  storeWritable w = true ->
  readProcesses (snd (writeProcesses ps w)) = ps.
Proof.
  intros Hw. unfold writeProcesses. rewrite Hw. reflexivity.
Qed.

Lemma writeProcesses_frame (ps : list ProcessInfo) (w : World) :
  let w' := snd (writeProcesses ps w) in
  storeWritable w' = storeWritable w
  /\ ecosystemFile w' = ecosystemFile w
  /\ spawnCalls w' = spawnCalls w
  /\ clockReads w' = clockReads w.
Proof.
  unfold writeProcesses. destruct (storeWritable w) eqn:E; cbn; auto.
Qed.

Lemma writeProcesses_readonly (ps : list ProcessInfo) (w : World) :
  storeWritable w = false -> snd (writeProcesses ps w) = w.
Proof.
  intros Hw. unfold writeProcesses. now rewrite Hw.
Qed.

Lemma write_back_same (w : World) :
  readProcesses (snd (writeProcesses (readProcesses w) w)) = readProcesses w.
Proof.
  unfold writeProcesses. destruct (storeWritable w); reflexivity.
Qed.

Lemma existsb_eqb_In (x : Z) (l : list Z) :
  existsb (Z.eqb x) l = true <-> In x l.
Proof.
  rewrite existsb_exists. split.
  - intros [y [Hy Hxy]]. apply Z.eqb_eq in Hxy. now subst.
  - intros Hx. exists x. split; [assumption | apply Z.eqb_refl].
Qed.

Lemma atLeast_le_length (k : Z) (l : list Z) :
  (atLeast k l <= List.length l)%nat.
Proof.
  unfold atLeast. induction l as [|x l IH]; cbn; [lia|].
  destruct (k <=? x); cbn; lia.
Qed.

Lemma atLeast_mono (k : Z) (l : list Z) :
  (atLeast (k + 1) l <= atLeast k l)%nat.
Proof.
  unfold atLeast. induction l as [|x l IH]; cbn; [lia|].
  destruct (k + 1 <=? x) eqn:E1, (k <=? x) eqn:E2; cbn; lia.
Qed.

Lemma atLeast_succ (k : Z) (l : list Z) :
  In k l -> (atLeast (k + 1) l < atLeast k l)%nat.
Proof.
  induction l as [|x l IH]; intros Hin; [contradiction|].
  unfold atLeast in *. cbn.
  destruct Hin as [-> | Hin].
  - replace (k + 1 <=? k) with false by lia.
    replace (k <=? k) with true by lia. cbn.
    pose proof (atLeast_mono k l) as Hm. unfold atLeast in Hm. lia.
  - specialize (IH Hin).
    destruct (k + 1 <=? x) eqn:E1, (k <=? x) eqn:E2; cbn; lia.
Qed.

(** With enough fuel the loop stops, on the first unused integer from
    [k] on. *)
Lemma generateId_loop_spec (ids : list Z) :
  forall (fuel : nat) (k : Z),
    (atLeast k ids < fuel)%nat ->
    exists r, generateId_loop fuel ids k = Some r
              /\ k <= r /\ ~ In r ids
              /\ forall j, k <= j < r -> In j ids.
Proof.
  induction fuel as [|fuel IH]; intros k Hfuel; [lia|].
  cbn [generateId_loop].
  destruct (existsb (Z.eqb k) ids) eqn:E.
  - apply existsb_eqb_In in E.
    pose proof (atLeast_succ k ids E) as Hlt.
    destruct (IH (k + 1)) as [r [Hr [Hle [Hnin Hall]]]]; [lia|].
    exists r. repeat split; try assumption; try lia.
    intros j Hj. destruct (Z.eq_dec j k) as [-> | Hne]; [assumption|].
    apply Hall. lia.
  - exists k. repeat split; try lia.
    intros Hin. apply existsb_eqb_In in Hin. congruence.
Qed.

(** [generateId] returns, and what it returns is the least unused id. *)
Lemma generateId_least (w : World) :
  exists i, generateId w = Some i /\ leastUnused (idsOf w) i.
Proof.
  unfold generateId, idsOf.
  destruct (generateId_loop_spec (map id (readProcesses w))
              (S (List.length (map id (readProcesses w)))) 0)
    as [r [Hr [Hle [Hnin Hall]]]].
  - pose proof (atLeast_le_length 0 (map id (readProcesses w))). lia.
  - exists r. split; [assumption|]. repeat split; assumption.
Qed.

Lemma leastUnused_unique (ids : list Z) (i j : Z) :
  leastUnused ids i -> leastUnused ids j -> i = j.
Proof.
  intros [Hi0 [Hi1 Hi2]] [Hj0 [Hj1 Hj2]].
  destruct (Z.lt_trichotomy i j) as [Hlt | [Heq | Hgt]]; [|assumption|].
  - exfalso. apply Hi1, Hj2. lia.
  - exfalso. apply Hj1, Hi2. lia.
Qed.

End StoreFacts.

(** ** Facts about [startGTR] *)

Section StartFacts.

Context `{Host}.

(** What a call that returns an id has done. *)
Lemma startGTR_Started (name0 script0 : string) (options : Options)
    (existingId : option Z) (w w' : World) (i : Z) :
  startGTR name0 script0 options existingId w = (Started i, w') ->
  exists pid0,
    existsSync script0 = true
    /\ existsb (onlineNamed name0) (readProcesses w) = false
    /\ spawn (spawnCalls w) script0 = Spawned pid0
    /\ match existingId with
       | Some x => i = x
       | None => generateId w = Some i
       end
    /\ storeWritable w' = storeWritable w
    /\ ecosystemFile w' = ecosystemFile w
    /\ spawnCalls w' = S (spawnCalls w)
    /\ (storeWritable w = true ->
        readProcesses w'
        = (readProcesses w
             ++ [buildProcessInfo i name0 pid0 script0 options existingId
                   (fst (stampsOf options existingId w))
                   (snd (stampsOf options existingId w))])%list)
    /\ (storeWritable w = false -> readProcesses w' = readProcesses w).
Proof.
  unfold startGTR.
  destruct (existsSync script0) eqn:Hex; cbn [negb]; [|discriminate].
  destruct (existsb (onlineNamed name0) (readProcesses w)) eqn:Hon;
    [discriminate|].
  destruct (openSync_ok (logFileOf name0)); cbn [negb]; [|discriminate].
  destruct (openSync_ok (errorLogFileOf name0)); cbn [negb]; [|discriminate].
  destruct (spawn (spawnCalls w) script0) as [|pid0] eqn:Hsp; [discriminate|].
  intros Hrun. exists pid0.
  destruct existingId as [x|].
  - cbn in Hrun. unfold writeProcesses in Hrun. cbn in Hrun.
    destruct (storeWritable w) eqn:Hw; inversion Hrun; subst; cbn;
      repeat split; auto; try discriminate.
  - change (generateId (with_spawnCalls (S (spawnCalls w)) w))
      with (generateId w) in Hrun.
    destruct (generateId w) as [g|] eqn:Hg; [|discriminate].
    cbn in Hrun. unfold writeProcesses in Hrun. cbn in Hrun.
    destruct (storeWritable w) eqn:Hw; inversion Hrun; subst; cbn;
      repeat split; auto; try discriminate.
Qed.

(** A fresh start never stays in [generateId]'s loop. *)
Lemma startGTR_returns (name0 script0 : string) (options : Options)
    (existingId : option Z) (w : World) :
  fst (startGTR name0 script0 options existingId w) <> StartDiverges.
Proof.
  unfold startGTR.
  destruct (existsSync script0); cbn [negb]; [|discriminate].
  destruct (existsb (onlineNamed name0) (readProcesses w)); [discriminate|].
  destruct (openSync_ok (logFileOf name0)); cbn [negb]; [|discriminate].
  destruct (openSync_ok (errorLogFileOf name0)); cbn [negb]; [|discriminate].
  destruct (spawn (spawnCalls w) script0) as [|pid0]; [discriminate|].
  destruct existingId as [x|].
  - cbn. destruct (writeProcesses _ _). discriminate.
  - change (generateId (with_spawnCalls (S (spawnCalls w)) w))
      with (generateId w).
    destruct (generateId_least w) as [g [Hg _]]. rewrite Hg.
    cbn. destruct (writeProcesses _ _). discriminate.
Qed.

(** When nothing stands in the way the call returns an id. *)
Lemma startGTR_succeeds (name0 script0 : string) (options : Options)
    (existingId : option Z) (w : World) (pid0 : option Z) :
  existsSync script0 = true ->
  existsb (onlineNamed name0) (readProcesses w) = false ->
  openSync_ok (logFileOf name0) = true ->
  openSync_ok (errorLogFileOf name0) = true ->
  spawn (spawnCalls w) script0 = Spawned pid0 ->
  exists i w', startGTR name0 script0 options existingId w = (Started i, w').
Proof.
  intros Hex Hon Ho1 Ho2 Hsp. unfold startGTR.
  rewrite Hex, Hon, Ho1, Ho2, Hsp. cbn [negb].
  destruct existingId as [x|].
  - cbn. destruct (writeProcesses _ _). eauto.
  - change (generateId (with_spawnCalls (S (spawnCalls w)) w))
      with (generateId w).
    destruct (generateId_least w) as [g [Hg _]]. rewrite Hg.
    cbn. destruct (writeProcesses _ _). eauto.
Qed.

End StartFacts.

(** ** Claims about [startGTR] *)

Section StartClaims.

Context `{Host}.

(** With an online record of that name in the registry the call ends at
    one of its first two checks and the world is the one it found. *)
Lemma startGTR_online_name (name0 script0 : string) (options : Options)
    (existingId : option Z) (w : World) :
  existsb (onlineNamed name0) (readProcesses w) = true ->
  startGTR name0 script0 options existingId w
  = (StartNull (if existsSync script0 then AlreadyRunning else ScriptMissing),
     w).
Proof.
  intros Hon. unfold startGTR. rewrite Hon.
  destruct (existsSync script0); reflexivity.
Qed.


(** C5, as amended. When the registry holds an online record named [n], a
    start call with name [n] creates no record and leaves the world exactly
    as it was; it fails with AlreadyRunning when its script exists, and
    with ScriptMissing when it does not (the script is checked first). *)
Theorem start_duplicate_rejected (name0 script0 : string)
    (options : Options) (existingId : option Z) (w : World) :
  existsb (onlineNamed name0) (readProcesses w) = true ->
  snd (startGTR name0 script0 options existingId w) = w
  /\ (existsSync script0 = true ->
      fst (startGTR name0 script0 options existingId w)
      = StartNull AlreadyRunning)
  /\ (existsSync script0 = false ->
      fst (startGTR name0 script0 options existingId w)
      = StartNull ScriptMissing).
Proof.
  intros Hon. rewrite (startGTR_online_name _ _ _ _ _ Hon).
  cbn [fst snd]. repeat split; intros ->; reflexivity.
Qed.

(** Ids stay pairwise distinct when a least unused id is appended. *)
Lemma NoDup_app_unused (ids : list Z) (i : Z) :
  NoDup ids -> ~ In i ids -> NoDup (ids ++ [i]).
Proof.
  intros Hnd Hnin. induction Hnd as [|x l Hx Hnd IH]; cbn.
  - constructor; [intros []|constructor].
  - constructor.
    + rewrite in_app_iff. intros [Hin | [Heq | []]]; [contradiction|].
      subst. apply Hnin. now left.
    + apply IH. intros Hin. apply Hnin. now right.
Qed.

(** One fresh start: the id is the least unused one. *)
Lemma fresh_start_least (name0 script0 : string) (options : Options)
    (w w' : World) (i : Z) :
  startGTR name0 script0 options None w = (Started i, w') ->
  leastUnused (idsOf w) i.
Proof.
  intros Hrun.
  destruct (startGTR_Started _ _ _ _ _ _ _ Hrun)
    as [pid0 [_ [_ [_ [Hid _]]]]].
  destruct (generateId_least w) as [g [Hg Hleast]].
  rewrite Hg in Hid. now inversion Hid; subst.
Qed.

Lemma fresh_start_ids (name0 script0 : string) (options : Options)
    (w w' : World) (i : Z) :
  storeWritable w = true ->
  startGTR name0 script0 options None w = (Started i, w') ->
  idsOf w' = (idsOf w ++ [i])%list /\ storeWritable w' = true.
Proof.
  intros Hw Hrun.
  destruct (startGTR_Started _ _ _ _ _ _ _ Hrun)
    as [pid0 [_ [_ [_ [_ [Hsw [_ [_ [Happ _]]]]]]]]].
  unfold idsOf. rewrite (Happ Hw), map_app. split; [reflexivity|congruence].
Qed.

End StartClaims.

(** ** Facts about [find], [findIndex] and [splice] *)

Section ArrayFacts.

Variable A : Type.
Variable f : A -> bool.

(** [findIndex] returns the position of the first element that satisfies
    the predicate, and [splice(i, 1)] removes exactly that element. *)
Lemma findIndex_Some (l : list A) (i : nat) :
  Js.findIndex f l = Some i ->
  exists l1 x l2,
    l = (l1 ++ x :: l2)%list /\ List.length l1 = i /\ f x = true
    /\ (forall y, In y l1 -> f y = false)
    /\ Js.splice1 i l = (l1 ++ l2)%list.
Proof.
  revert i. induction l as [|a l IH]; intros i Hi; cbn in Hi; [discriminate|].
  destruct (f a) eqn:Ha.
  - inversion Hi; subst. exists [], a, l. cbn. repeat split; auto.
    intros y [].
  - destruct (Js.findIndex f l) as [j|] eqn:Hj; [|discriminate].
    cbn in Hi. inversion Hi; subst.
    destruct (IH j eq_refl) as [l1 [x [l2 [Hl [Hlen [Hx [Hbefore Hsp]]]]]]].
    exists (a :: l1), x, l2. cbn. repeat split; auto.
    + now rewrite Hl.
    + intros y [-> | Hy]; auto.
    + now rewrite Hsp.
Qed.

Lemma findIndex_None (l : list A) :
  Js.findIndex f l = None -> forall y, In y l -> f y = false.
Proof.
  induction l as [|a l IH]; intros Hn y Hy; [contradiction|].
  cbn in Hn. destruct (f a) eqn:Ha; [discriminate|].
  destruct (Js.findIndex f l); [discriminate|].
  destruct Hy as [-> | Hy]; auto.
Qed.

Lemma find_findIndex (l : list A) (x : A) :
  find f l = Some x ->
  exists i, Js.findIndex f l = Some i /\ nth_error l i = Some x.
Proof.
  induction l as [|a l IH]; intros Hf; cbn in Hf; [discriminate|].
  cbn. destruct (f a) eqn:Ha.
  - inversion Hf; subst. exists O. split; reflexivity.
  - destruct (IH Hf) as [i [Hi Hn]]. exists (S i). rewrite Hi. split; auto.
Qed.

Lemma find_None_iff (l : list A) :
  find f l = None <-> forall y, In y l -> f y = false.
Proof.
  split.
  - intros Hn y Hy. exact (find_none f l Hn y Hy).
  - induction l as [|a l IH]; intros Hall; [reflexivity|].
    cbn. rewrite (Hall a (or_introl eq_refl)).
    apply IH. intros y Hy. apply Hall. now right.
Qed.

Lemma updateAt_length (g : A -> A) (l : list A) (i : nat) :
  List.length (Js.updateAt i g l) = List.length l.
Proof.
  revert i. induction l as [|a l IH]; intros [|i]; cbn; auto.
Qed.

Lemma updateAt_other (g : A -> A) (l : list A) (i k : nat) :
  i <> k -> nth_error (Js.updateAt i g l) k = nth_error l k.
Proof.
  revert i k. induction l as [|a l IH]; intros [|i] [|k] Hne; cbn; auto;
    congruence.
Qed.

End ArrayFacts.

(** ** Id allocation over runs of [start] *)

Section Allocation.

Context `{Host}.

Lemma StartsAll_ids (w w' : World) (reqs : list StartRequest)
    (ids : list Z) :
  storeWritable w = true ->
  StartsAll w reqs ids w' ->
  idsOf w' = (idsOf w ++ ids)%list /\ storeWritable w' = true.
Proof.
  intros Hw Hall. induction Hall as [w|w r rs i ids w1 w2 Hstart Hall IH].
  - rewrite app_nil_r. auto.
  - destruct (fresh_start_ids _ _ _ _ _ _ Hw Hstart) as [Hids Hw1].
    destruct (IH Hw1) as [Hids2 Hw2].
    rewrite Hids2, Hids, <- app_assoc. auto.
Qed.

Lemma StartsAll_least (w w' : World) (reqs : list StartRequest)
    (ids : list Z) :
  storeWritable w = true ->
  StartsAll w reqs ids w' ->
  forall k i, nth_error ids k = Some i ->
              leastUnused (idsOf w ++ firstn k ids) i.
Proof.
  intros Hw Hall. induction Hall as [w|w r rs i0 ids w1 w2 Hstart Hall IH];
    intros k i Hk.
  - destruct k; discriminate.
  - destruct (fresh_start_ids _ _ _ _ _ _ Hw Hstart) as [Hids Hw1].
    destruct k as [|k]; cbn in Hk.
    + inversion Hk; subst. cbn. rewrite app_nil_r.
      exact (fresh_start_least _ _ _ _ _ _ Hstart).
    + specialize (IH Hw1 k i Hk). rewrite Hids, <- app_assoc in IH.
      exact IH.
Qed.

Lemma StartsAll_NoDup (w w' : World) (reqs : list StartRequest)
    (ids : list Z) :
  storeWritable w = true ->
  StartsAll w reqs ids w' ->
  NoDup (idsOf w) -> NoDup (idsOf w').
Proof.
  intros Hw Hall. induction Hall as [w|w r rs i ids w1 w2 Hstart Hall IH];
    intros Hnd; [assumption|].
  destruct (fresh_start_ids _ _ _ _ _ _ Hw Hstart) as [Hids Hw1].
  apply (IH Hw1). rewrite Hids.
  apply NoDup_app_unused; [assumption|].
  exact (proj1 (proj2 (fresh_start_least _ _ _ _ _ _ Hstart))).
Qed.

(** Deleting without stopping removes the first record that carries the
    matched record's id. *)
Lemma delete_now_ids (identifier : Js.Value) (w : World) (p : ProcessInfo) :
  storeWritable w = true ->
  findProcess identifier w = Some p ->
  exists l1 x l2,
    readProcesses w = (l1 ++ x :: l2)%list /\ id x = id p
    /\ (forall y, In y l1 -> id y <> id p)
    /\ delete identifier false w
       = (Deleted, snd (writeProcesses (l1 ++ l2)%list w), [])
    /\ readProcesses (snd (writeProcesses (l1 ++ l2)%list w))
       = (l1 ++ l2)%list.
Proof.
  intros Hw Hfind. unfold delete. rewrite Hfind. cbn [andb].
  unfold findProcess in Hfind.
  assert (Hin : In p (readProcesses w))
    by (apply find_some in Hfind; tauto).
  destruct (Js.findIndex (sameId p) (readProcesses w)) as [ix|] eqn:Hix.
  - destruct (findIndex_Some _ _ _ _ Hix)
      as [l1 [x [l2 [Hl [_ [Hx [Hbefore Hsp]]]]]]].
    exists l1, x, l2. rewrite Hsp. repeat split; auto.
    + unfold sameId in Hx. lia.
    + intros y Hy. specialize (Hbefore y Hy). unfold sameId in Hbefore. lia.
    + now apply readProcesses_write.
  - pose proof (findIndex_None _ _ _ Hix p Hin) as Hp.
    unfold sameId in Hp. lia.
Qed.

End Allocation.

(** ** Restart *)

Section RestartFacts.

Context `{Host}.

(** The timer callback of restart, at a registry that holds a record with
    the captured id: the first such record is removed and [startGTR] is
    called on what is left. *)
Lemma onRestartTimeout_present (x : ProcessInfo) (w : World)
    (l1 l2 : list ProcessInfo) (y : ProcessInfo) :
  storeWritable w = true ->
  readProcesses w = (l1 ++ y :: l2)%list ->
  id y = id x ->
  (forall z, In z l1 -> id z <> id x) ->
  onRestartTimeout x w
  = (Restarted
       (fst (startGTR (name x) (script x) (restartOptions x) (Some (id x))
               (with_processFile (l1 ++ l2)%list w))),
     snd (startGTR (name x) (script x) (restartOptions x) (Some (id x))
            (with_processFile (l1 ++ l2)%list w))).
Proof.
  intros Hw Hl Hy Hbefore. unfold onRestartTimeout.
  assert (Hfind : find (sameId x) (readProcesses w) = Some y).
  { rewrite Hl. clear Hl. induction l1 as [|a l1 IH]; cbn.
    - unfold sameId. replace (id y =? id x) with true by lia. reflexivity.
    - unfold sameId at 1.
      replace (id a =? id x) with false
        by (specialize (Hbefore a (or_introl eq_refl)); lia).
      apply IH. intros z Hz. apply Hbefore. now right. }
  rewrite Hfind.
  assert (Hix : Js.findIndex (sameId x) (readProcesses w)
                = Some (List.length l1)
                /\ Js.splice1 (List.length l1) (readProcesses w)
                   = (l1 ++ l2)%list).
  { rewrite Hl. clear Hl Hfind. induction l1 as [|a l1 IH]; cbn.
    - unfold sameId. replace (id y =? id x) with true by lia. auto.
    - unfold sameId at 1.
      replace (id a =? id x) with false
        by (specialize (Hbefore a (or_introl eq_refl)); lia).
      destruct IH as [IH1 IH2]; [intros z Hz; apply Hbefore; now right|].
      rewrite IH1, IH2. auto. }
  destruct Hix as [Hix Hsp]. rewrite Hix, Hsp.
  unfold writeProcesses. rewrite Hw. cbn [snd].
  destruct (startGTR (name x) (script x) (restartOptions x) (Some (id x))
              (with_processFile (l1 ++ l2)%list w)).
  reflexivity.
Qed.

(** Shape of the registry when the callback finds the captured id. *)
Lemma find_sameId_split (x : ProcessInfo) (l : list ProcessInfo)
    (y : ProcessInfo) :
  find (sameId x) l = Some y ->
  exists l1 l2, l = (l1 ++ y :: l2)%list /\ id y = id x
                /\ forall z, In z l1 -> id z <> id x.
Proof.
  induction l as [|a l IH]; intros Hf; cbn in Hf; [discriminate|].
  destruct (sameId x a) eqn:Ha.
  - inversion Hf; subst. exists [], l. unfold sameId in Ha.
    repeat split; try lia. intros z [].
  - destruct (IH Hf) as [l1 [l2 [Hl [Hy Hb]]]].
    exists (a :: l1), l2. rewrite Hl. repeat split; auto.
    intros z [-> | Hz]; [unfold sameId in Ha; lia | now apply Hb].
Qed.

(** A successful restart step: the registry afterwards is the registry
    without the old record, followed by the record built from the captured
    one. *)
Lemma onRestartTimeout_Started (x : ProcessInfo) (w w' : World) (i : Z) :
  storeWritable w = true ->
  onRestartTimeout x w = (Restarted (Started i), w') ->
  exists l1 y l2 pid0 t,
    readProcesses w = (l1 ++ y :: l2)%list /\ id y = id x
    /\ (forall z, In z l1 -> id z <> id x)
    /\ i = id x
    /\ readProcesses w'
       = (l1 ++ l2
            ++ [buildProcessInfo (id x) (name x) pid0 (script x)
                  (restartOptions x) (Some (id x)) (createdAt x) t])%list.
Proof.
  intros Hw Hrun.
  destruct (find (sameId x) (readProcesses w)) as [y|] eqn:Hfind.
  - destruct (find_sameId_split _ _ _ Hfind) as [l1 [l2 [Hl [Hy Hb]]]].
    rewrite (onRestartTimeout_present x w l1 l2 y Hw Hl Hy Hb) in Hrun.
    inversion Hrun as [[Hres Hw']].
    destruct (startGTR (name x) (script x) (restartOptions x) (Some (id x))
                (with_processFile (l1 ++ l2)%list w)) as [r w2] eqn:Hst.
    cbn in Hres, Hw'. subst r w2.
    destruct (startGTR_Started _ _ _ _ _ _ _ Hst)
      as [pid0 [_ [_ [_ [Hid [_ [_ [_ [Happ _]]]]]]]]].
    exists l1, y, l2, pid0, (Date_now (clockReads w)).
    split; [exact Hl|]. split; [exact Hy|]. split; [exact Hb|].
    split; [exact Hid|].
    cbn [snd]. rewrite (Happ Hw). subst i. cbn.
    now rewrite <- app_assoc.
  - unfold onRestartTimeout in Hrun. rewrite Hfind in Hrun. discriminate.
Qed.


End RestartFacts.

(** ** Numerals: [parseInt] after [String] *)

Section Numerals.

Import Decimal.

Lemma readDigits_stop (rest : string) (acc : option Z) :
  stopsDigits rest -> Js.readDigits rest acc = acc.
Proof.
  destruct rest as [|c rest]; cbn; [reflexivity|]. now intros ->.
Qed.

Lemma readDigits_uint (d : uint) (rest : string) :
  stopsDigits rest ->
  forall acc : Z,
    Js.readDigits (NilEmpty.string_of_uint d ++ rest) (Some acc)
    = Some (uintValue d acc).
Proof.
  intros Hrest. induction d; intros acc;
    cbn [NilEmpty.string_of_uint append uintValue Js.readDigits];
    [now apply readDigits_stop| | | | | | | | | |];
    match goal with
    | |- context [Js.digitValue ?c] =>
        let v := eval vm_compute in (Js.digitValue c) in
        change (Js.digitValue c) with v
    end; cbv beta iota; rewrite IHd; f_equal; f_equal; lia.
Qed.

Lemma readDigits_uint_first (d : uint) (rest : string) :
  stopsDigits rest -> d <> Nil ->
  Js.readDigits (NilEmpty.string_of_uint d ++ rest) None
  = Some (uintValue d 0).
Proof.
  intros Hrest Hd. destruct d; [congruence| | | | | | | | | |];
    cbn [NilEmpty.string_of_uint append uintValue Js.readDigits];
    match goal with
    | |- context [Js.digitValue ?c] =>
        let v := eval vm_compute in (Js.digitValue c) in
        change (Js.digitValue c) with v
    end; cbv beta iota; rewrite readDigits_uint by assumption;
    reflexivity.
Qed.

Lemma uintValue_of_uint_acc (d : uint) :
  forall acc : positive,
    Z.pos (Pos.of_uint_acc d acc) = uintValue d (Z.pos acc).
Proof.
  induction d; intros acc; cbn - [Z.mul Z.add Pos.mul Pos.add];
    try reflexivity; rewrite IHd; f_equal; lia.
Qed.

Lemma uintValue_of_uint (d : uint) : Z.of_uint d = uintValue d 0.
Proof.
  unfold Z.of_uint. induction d; cbn - [Z.mul Z.add]; try reflexivity;
    try assumption;
    rewrite uintValue_of_uint_acc; reflexivity.
Qed.

(** A numeral starts with a digit or with the minus sign, so [trimStart]
    and the sign test of [parseInt] go through as on a digit. *)
Lemma mathInt_uint (d : uint) (rest : string) :
  stopsDigits rest -> d <> Nil ->
  Js.mathInt (NilEmpty.string_of_uint d ++ rest)
  = Some (Z.of_uint d).
Proof.
  intros Hrest Hd. rewrite uintValue_of_uint.
  rewrite <- (readDigits_uint_first d rest Hrest Hd).
  destruct d; [congruence| | | | | | | | | |]; reflexivity.
Qed.

(** The digits of the decimal numeral of every integer are read back
    exactly, whatever follows the numeral, as long as it is not a digit. *)
Lemma mathInt_numberToString (n : Z) (rest : string) :
  stopsDigits rest ->
  Js.mathInt (numberToString n ++ rest) = Some n.
Proof.
  intros Hrest. unfold numberToString.
  rewrite <- (DecimalZ.of_to n) at 2.
  destruct n as [|p|p]; cbn [Z.to_int NilZero.string_of_int Z.of_int].
  - exact (mathInt_uint (D0 Nil) rest Hrest ltac:(discriminate)).
  - pose proof (DecimalPos.Unsigned.to_uint_nonnil p) as Hnn.
    unfold NilZero.string_of_uint.
    destruct (Pos.to_uint p) eqn:E; try congruence;
      rewrite <- E in *; apply mathInt_uint; assumption.
  - pose proof (DecimalPos.Unsigned.to_uint_nonnil p) as Hnn.
    unfold NilZero.string_of_uint.
    assert (Hs : Js.mathInt
                   (String "-" (NilEmpty.string_of_uint (Pos.to_uint p))
                    ++ rest)
                 = Some (- Z.of_uint (Pos.to_uint p))).
    { unfold Js.mathInt. cbn [append Js.trimStart].
      change (Js.isWhiteSpace "-") with false. cbn iota.
      rewrite readDigits_uint_first by assumption.
      rewrite uintValue_of_uint. reflexivity. }
    destruct (Pos.to_uint p) eqn:E; try congruence; exact Hs.
Qed.

(** Below [2^53] every integer is a Number. *)
Lemma toNumber_small (n : Z) :
  Z.abs n < 2 ^ 53 -> Js.toNumber n = Js.Finite n.
Proof.
  intros Hn. unfold Js.toNumber. cbv zeta.
  destruct (Z.ltb_spec (Z.abs n) (2 ^ 53)) as [_|Hge]; [reflexivity|lia].
Qed.

(** [parseInt] on a decimal numeral gives the Number nearest to the
    integer it denotes. *)
Lemma parseIntString_numeral (n : Z) (rest : string) :
  stopsDigits rest ->
  Js.parseIntString (numberToString n ++ rest) = Js.toNumber n.
Proof.
  intros Hrest. unfold Js.parseIntString.
  now rewrite (mathInt_numberToString n rest Hrest).
Qed.

Lemma stringOfNumber_plain (n : Z) :
  Z.abs n < 10 ^ 21 -> Js.stringOfNumber n = numberToString n.
Proof.
  intros Hn. unfold Js.stringOfNumber. cbv zeta.
  destruct (Z.ltb_spec (Z.abs n) (10 ^ 21)) as [_|Hge]; [reflexivity|lia].
Qed.

Lemma append_empty_r (s : string) : (s ++ EmptyString)%string = s.
Proof.
  induction s as [|c s IH]; cbn; [reflexivity|now rewrite IH].
Qed.

(** [parseInt] on an integer Number below [10^21] gives that Number. *)
Lemma parseIntNum_plain (n : Z) :
  Z.abs n < 10 ^ 21 -> Js.toNumber n = Js.Finite n ->
  Js.parseIntNum (Js.VNum n) = Js.Finite n.
Proof.
  intros Hn Hnum. cbn [Js.parseIntNum].
  rewrite (stringOfNumber_plain n Hn).
  rewrite <- (append_empty_r (numberToString n)).
  rewrite (parseIntString_numeral n EmptyString I). exact Hnum.
Qed.

(** A plain count handed to [startGTR] is stored as it is. *)
Lemma storedInstances_plain (x : option Z) :
  plainCount x -> storedInstances (Js.ofJson x) = x.
Proof.
  intros [n [-> [Hne [Hn Hnum]]]]. unfold storedInstances.
  cbn [Js.ofJson]. rewrite (parseIntNum_plain n Hn Hnum).
  unfold Js.orNum. destruct (n =? 0) eqn:E; [lia|reflexivity].
Qed.

Lemma shortestDigits_nonneg (fuel : nat) :
  forall k a len : Z, 0 <= a -> 0 <= fst (Js.shortestDigits fuel k a len).
Proof.
  induction fuel as [|fuel IH]; intros k a len Ha; [exact Ha|].
  cbn [Js.shortestDigits]. cbv zeta.
  assert (Hs1 : 0 <= a / 10 ^ (len - k)).
  { apply Zdiv.Z_div_nonneg_nonneg; [exact Ha|]. apply Z.pow_nonneg. lia. }
  set (s1 := a / 10 ^ (len - k)) in *.
  destruct (Js.Num_eqb _ _ && Js.Num_eqb _ _).
  - destruct (_ || _); cbn [fst];
      match goal with |- 0 <= fst (if ?c then _ else _) => destruct c end;
      cbn [fst]; lia.
  - destruct (Js.Num_eqb _ _).
    + match goal with |- 0 <= fst (if ?c then _ else _) => destruct c end;
        cbn [fst]; lia.
    + destruct (Js.Num_eqb _ _).
      * match goal with |- 0 <= fst (if ?c then _ else _) => destruct c end;
          cbn [fst]; lia.
      * apply IH. exact Ha.
Qed.

Lemma decimal_head (s : Z) :
  0 <= s ->
  exists c rest v,
    Js.decimal s = String c rest /\ Js.digitValue c = Some v /\ 0 <= v <= 9.
Proof.
  intros Hs. unfold Js.decimal. destruct s as [|p|p]; [| |lia].
  - exists "0"%char, EmptyString, 0. repeat split; lia.
  - cbn [Z.to_int NilZero.string_of_int].
    pose proof (DecimalPos.Unsigned.to_uint_nonnil p) as Hnn.
    unfold NilZero.string_of_uint.
    destruct (Pos.to_uint p) as [|d|d|d|d|d|d|d|d|d|d];
      [congruence| | | | | | | | | |];
      cbn [NilEmpty.string_of_uint];
      eexists; eexists; eexists; (split; [reflexivity|]);
      (split; [vm_compute; reflexivity|lia]).
Qed.

Lemma mathInt_digit_head (c : ascii) (v : Z) (tail : string) :
  Js.digitValue c = Some v -> stopsDigits tail ->
  Js.mathInt (String c tail) = Some v
  /\ Js.mathInt (String "-" (String c tail)) = Some (- v).
Proof.
  intros Hd Ht.
  destruct c as [b0 b1 b2 b3 b4 b5 b6 b7].
  destruct b0, b1, b2, b3, b4, b5, b6, b7; vm_compute in Hd;
    try discriminate Hd; inversion Hd; subst v;
    unfold Js.mathInt; cbn [Js.trimStart];
    repeat match goal with
           | |- context [Js.isWhiteSpace ?c] =>
               let b := eval vm_compute in (Js.isWhiteSpace c) in
               change (Js.isWhiteSpace c) with b
           end;
    cbv iota; cbn [Js.readDigits];
    repeat match goal with
           | |- context [Js.digitValue ?c] =>
               let b := eval vm_compute in (Js.digitValue c) in
               change (Js.digitValue c) with b
           end;
    cbv iota beta; rewrite !(readDigits_stop tail _ Ht);
    split; reflexivity.
Qed.

Lemma parseIntNum_large (n : Z) :
  10 ^ 21 <= Z.abs n ->
  exists v, Js.parseIntNum (Js.VNum n) = Js.Finite v /\ Z.abs v <= 9.
Proof.
  intros Hn. cbn [Js.parseIntNum]. unfold Js.stringOfNumber. cbv zeta.
  destruct (Z.ltb_spec (Z.abs n) (10 ^ 21)) as [Hlt|_]; [lia|].
  destruct (Js.shortestDigits 17 1 (Z.abs n)
              (Z.of_nat (String.length (Js.decimal (Z.abs n)))))
    as [s e] eqn:E.
  assert (Hs : 0 <= s).
  { pose proof (shortestDigits_nonneg 17 1 (Z.abs n)
                  (Z.of_nat (String.length (Js.decimal (Z.abs n))))
                  (Z.abs_nonneg n)) as Hnn.
    now rewrite E in Hnn. }
  destruct (decimal_head s Hs) as [c [rest [v [Hdec [Hv Hr]]]]].
  rewrite Hdec.
  assert (Hsmall : forall x, Z.abs x <= 9 -> Js.toNumber x = Js.Finite x).
  { intros x Hx. apply toNumber_small.
    assert (9 < 2 ^ 53) by reflexivity. lia. }
  set (tailText := ("e+" ++ Js.decimal
                              (e + Z.of_nat (String.length (String c rest))
                               - 1))%string).
  assert (Htail : exists tail,
            stopsDigits tail
            /\ (match String c rest with
                | String d EmptyString => String d EmptyString
                | String d more => String d (String "."%char more)
                | EmptyString => EmptyString
                end ++ tailText)%string = String c tail).
  { destruct rest as [|r0 rest'].
    - exists tailText. split; [reflexivity|reflexivity].
    - eexists. split; [|reflexivity]. reflexivity. }
  destruct Htail as [tail [Hstop Heq]].
  destruct (mathInt_digit_head c v tail Hv Hstop) as [Hpos Hneg].
  unfold Js.parseIntString.
  destruct (n <? 0).
  - exists (- v). change (("-" ++ ?x)%string) with (String "-"%char x).
    cbn [append]. rewrite Heq, Hneg. split; [apply Hsmall|]; lia.
  - exists v. cbn [append]. rewrite Heq, Hpos. split; [apply Hsmall|]; lia.
Qed.

(** From [10^21] on, what [startGTR] stores for a count handed over as a
    Number is an integer of one digit, not 0. *)
Lemma storedInstances_large (n : Z) :
  10 ^ 21 <= Z.abs n ->
  exists d, storedInstances (Js.VNum n) = Some d /\ 1 <= Z.abs d <= 9.
Proof.
  intros Hn. destruct (parseIntNum_large n Hn) as [v [Hp Hv]].
  unfold storedInstances. rewrite Hp. unfold Js.orNum.
  destruct (Z.eqb_spec v 0) as [->|Hne].
  - exists 1. split; [reflexivity|lia].
  - exists v. split; [reflexivity|lia].
Qed.

Lemma storedInstances_null : storedInstances Js.VNull = Some 1.
Proof.
  vm_compute. reflexivity.
Qed.

End Numerals.

(** ** The registry invariant *)

Section Invariant.

Context `{Host}.

Lemma numOr_nonzero (x : option Z) (d : Z) : d <> 0 -> Js.numOr x d <> 0.
Proof.
  intros Hd. unfold Js.numOr. destruct x as [n|]; [|assumption].
  destruct (n =? 0) eqn:E; [assumption|lia].
Qed.

Lemma orNum_nonzero (x : Js.Num) (d : Z) :
  d <> 0 -> Js.jsonNumber (Js.orNum x d) <> Some 0.
Proof.
  intros Hd. unfold Js.orNum. destruct x as [|n|b]; cbn.
  - congruence.
  - destruct (n =? 0) eqn:E; cbn; intros Heq; inversion Heq; lia.
  - discriminate.
Qed.

(** Every record [startGTR] builds has a non-zero [instances]. *)
Lemma buildProcessInfo_instances (i : Z) (name0 : string) (pid0 : option Z)
    (script0 : string) (options : Options) (existingId c : option Z) (u : Z) :
  instances (buildProcessInfo i name0 pid0 script0 options existingId c u)
  <> Some 0.
Proof.
  cbn [instances buildProcessInfo]. apply orNum_nonzero. discriminate.
Qed.

Lemma map_id_updateAt (f : ProcessInfo -> ProcessInfo)
    (l : list ProcessInfo) (i : nat) :
  (forall p, id (f p) = id p) -> map id (Js.updateAt i f l) = map id l.
Proof.
  intros Hf. revert i. induction l as [|a l IH]; intros [|i]; cbn;
    rewrite ?Hf, ?IH; reflexivity.
Qed.

Lemma Forall_updateAt (P : ProcessInfo -> Prop)
    (f : ProcessInfo -> ProcessInfo) (l : list ProcessInfo) (i : nat) :
  (forall p, P p -> P (f p)) -> Forall P l -> Forall P (Js.updateAt i f l).
Proof.
  intros Hf Hl. revert i. induction Hl as [|a l Ha Hl IH]; intros [|i]; cbn;
    constructor; auto.
Qed.

(** Changing status, time stamp or usage of one object keeps the
    invariant. *)
Lemma inv_updateAt (f : ProcessInfo -> ProcessInfo) (l : list ProcessInfo)
    (i : nat) :
  (forall p, id (f p) = id p) ->
  (forall p, instances (f p) = instances p) ->
  registryInvariant l -> registryInvariant (Js.updateAt i f l).
Proof.
  intros Hid Hinst [Hnd Hall]. split.
  - now rewrite map_id_updateAt.
  - apply Forall_updateAt; [|assumption]. intros p Hp. now rewrite Hinst.
Qed.

Lemma In_splice1 (A : Type) (i : nat) (l : list A) (x : A) :
  In x (Js.splice1 i l) -> In x l.
Proof.
  revert i. induction l as [|a l IH]; intros [|i]; cbn; auto.
  intros [-> | Hx]; [now left|right; eauto].
Qed.

Lemma inv_splice1 (i : nat) (l : list ProcessInfo) :
  registryInvariant l -> registryInvariant (Js.splice1 i l).
Proof.
  intros [Hnd Hall]. split.
  - revert i Hnd. clear Hall. induction l as [|a l IH]; intros [|i] Hnd; cbn.
    + constructor.
    + constructor.
    + now inversion Hnd.
    + inversion Hnd as [|? ? Hnotin Hnd']; subst. constructor.
      * intros Hin. apply Hnotin. apply in_map_iff in Hin.
        destruct Hin as [y [Hy Hin]]. apply in_map_iff. exists y.
        split; [assumption|]. eapply In_splice1; eassumption.
      * now apply IH.
  - apply Forall_forall. intros x Hx.
    rewrite Forall_forall in Hall. apply Hall. eapply In_splice1; eassumption.
Qed.

Lemma In_removelast (A : Type) (l : list A) (x : A) :
  In x (removelast l) -> In x l.
Proof.
  induction l as [|a l IH]; [auto|].
  destruct l as [|b l]; [intros []|].
  change (removelast (a :: b :: l)) with (a :: removelast (b :: l)).
  intros [-> | Hx]; [now left|right; now apply IH].
Qed.

Lemma inv_removelast (l : list ProcessInfo) :
  registryInvariant l -> registryInvariant (removelast l).
Proof.
  intros [Hnd Hall]. split.
  - clear Hall. induction l as [|a l IH]; [constructor|].
    destruct l as [|b l]; [constructor|].
    change (removelast (a :: b :: l)) with (a :: removelast (b :: l)).
    inversion Hnd as [|? ? Hnotin Hnd']; subst. cbn [map]. constructor.
    + intros Hin. apply Hnotin. apply in_map_iff in Hin.
      destruct Hin as [y [Hy Hin]].
      change (In (id a) (map id (b :: l))). apply in_map_iff. exists y.
      split; [assumption|]. now apply In_removelast.
    + now apply IH.
  - apply Forall_forall. intros x Hx.
    rewrite Forall_forall in Hall. apply Hall. now apply In_removelast.
Qed.

Lemma inv_filter (f : ProcessInfo -> bool) (l : list ProcessInfo) :
  registryInvariant l -> registryInvariant (filter f l).
Proof.
  intros [Hnd Hall]. split.
  - clear Hall. induction l as [|a l IH]; cbn; [constructor|].
    inversion Hnd as [|? ? Hnotin Hnd']; subst.
    destruct (f a); [|now apply IH]. cbn. constructor; [|now apply IH].
    intros Hin. apply Hnotin. apply in_map_iff in Hin.
    destruct Hin as [y [Hy Hin]]. apply in_map_iff. exists y.
    split; [assumption|]. apply filter_In in Hin. tauto.
  - apply Forall_forall. intros x Hx. apply filter_In in Hx.
    rewrite Forall_forall in Hall. now apply Hall.
Qed.

(** A write leaves in the file either what was passed or what was there. *)
Lemma inv_write (ps : list ProcessInfo) (w : World) :
  registryInvariant ps ->
  registryInvariant (readProcesses w) ->
  registryInvariant (readProcesses (snd (writeProcesses ps w))).
Proof.
  intros Hps Hw. unfold writeProcesses.
  destruct (storeWritable w); assumption.
Qed.

(** The registry after a call of [startGTR], whatever the call returns. *)
Lemma startGTR_registry (name0 script0 : string) (options : Options)
    (existingId : option Z) (w : World) :
  readProcesses (snd (startGTR name0 script0 options existingId w))
  = readProcesses w
  \/ exists i pid0 c u,
       storeWritable w = true
       /\ match existingId with
          | Some x => i = x
          | None => leastUnused (idsOf w) i
          end
       /\ readProcesses (snd (startGTR name0 script0 options existingId w))
          = (readProcesses w
               ++ [buildProcessInfo i name0 pid0 script0 options existingId
                     c u])%list.
Proof.
  destruct (startGTR name0 script0 options existingId w) as [r w'] eqn:E.
  destruct r as [e| | |i].
  - left. revert E. unfold startGTR.
    destruct (existsSync script0); cbn [negb];
      [|intros E; now inversion E].
    destruct (existsb (onlineNamed name0) (readProcesses w));
      [intros E; now inversion E|].
    destruct (openSync_ok (logFileOf name0)); cbn [negb]; [|discriminate].
    destruct (openSync_ok (errorLogFileOf name0)); cbn [negb];
      [|discriminate].
    destruct (spawn (spawnCalls w) script0);
      [intros E; now inversion E|].
    destruct existingId as [x|].
    + cbn. destruct (writeProcesses _ _). discriminate.
    + change (generateId (with_spawnCalls (S (spawnCalls w)) w))
        with (generateId w).
      destruct (generateId w); [|discriminate].
      cbn. destruct (writeProcesses _ _). discriminate.
  - left. revert E. unfold startGTR.
    destruct (existsSync script0); cbn [negb]; [|discriminate].
    destruct (existsb (onlineNamed name0) (readProcesses w)); [discriminate|].
    destruct (openSync_ok (logFileOf name0)); cbn [negb];
      [|intros E; now inversion E].
    destruct (openSync_ok (errorLogFileOf name0)); cbn [negb];
      [|intros E; now inversion E].
    destruct (spawn (spawnCalls w) script0); [discriminate|].
    destruct existingId as [x|].
    + cbn. destruct (writeProcesses _ _). discriminate.
    + change (generateId (with_spawnCalls (S (spawnCalls w)) w))
        with (generateId w).
      destruct (generateId w); [|discriminate].
      cbn. destruct (writeProcesses _ _). discriminate.
  - exfalso. apply (startGTR_returns name0 script0 options existingId w).
    now rewrite E.
  - destruct (startGTR_Started _ _ _ _ _ _ _ E)
      as [pid0 [_ [_ [_ [Hid [_ [_ [_ [Happ Hsame]]]]]]]]].
    cbn [snd]. destruct (storeWritable w).
    + right. exists i, pid0. eexists. eexists.
      split; [reflexivity|]. split; [|exact (Happ eq_refl)].
      destruct existingId as [x|]; [assumption|].
      destruct (generateId_least w) as [g [Hg Hleast]].
      rewrite Hg in Hid. now inversion Hid; subst.
    + left. exact (Hsame eq_refl).
Qed.

(** Appending a record with an unused id keeps the invariant. *)
Lemma inv_startGTR (name0 script0 : string) (options : Options)
    (existingId : option Z) (w : World) :
  match existingId with
  | Some x => ~ In x (idsOf w)
  | None => True
  end ->
  registryInvariant (readProcesses w) ->
  registryInvariant
    (readProcesses (snd (startGTR name0 script0 options existingId w))).
Proof.
  intros Hfree Hinv.
  destruct (startGTR_registry name0 script0 options existingId w)
    as [Hsame | [i [pid0 [c [u [_ [Hi Happ]]]]]]].
  - now rewrite Hsame.
  - rewrite Happ. destruct Hinv as [Hnd Hall]. split.
    + rewrite map_app. cbn. apply NoDup_app_unused; [assumption|].
      destruct existingId as [x|]; [now subst|].
      exact (proj1 (proj2 Hi)).
    + apply Forall_app. split; [assumption|].
      constructor; [apply buildProcessInfo_instances|constructor].
Qed.

Lemma inv_markStopped (process : ProcessInfo) (w : World) :
  registryInvariant (readProcesses w) ->
  registryInvariant (readProcesses (markStopped process w)).
Proof.
  intros Hinv. unfold markStopped.
  destruct (Js.findIndex (sameId process) (readProcesses w)); [|assumption].
  cbn. apply inv_write; [|assumption].
  apply inv_updateAt; auto.
Qed.

Lemma stopGTR_registry (identifier : Js.Value) (w : World) :
  readProcesses (snd (fst (fst (stopGTR identifier w)))) = readProcesses w.
Proof.
  unfold stopGTR. destruct (findProcess identifier w) as [p|]; [|reflexivity].
  unfold newDate, writeProcesses. cbn.
  destruct (storeWritable w) eqn:Hw; cbn; rewrite ?Hw;
    destruct (pidTruthy _); reflexivity.
Qed.

Lemma inv_onRestartTimeout (process : ProcessInfo) (w : World) :
  registryInvariant (readProcesses w) ->
  registryInvariant (readProcesses (snd (onRestartTimeout process w))).
Proof.
  intros Hinv. unfold onRestartTimeout.
  destruct (find (sameId process) (readProcesses w)) as [y|] eqn:Hfind;
    [|assumption].
  destruct (find_sameId_split _ _ _ Hfind) as [l1 [l2 [Hl [Hy Hb]]]].
  destruct (Js.findIndex (sameId process) (readProcesses w)) as [ix|] eqn:Hix.
  - destruct (findIndex_Some _ _ _ _ Hix)
      as [k1 [x [k2 [Hk [_ [Hx [_ Hsp]]]]]]].
    rewrite Hsp.
    destruct (storeWritable w) eqn:Hw.
    + destruct (startGTR _ _ _ _ (snd (writeProcesses (k1 ++ k2)%list w)))
        as [r w2] eqn:Hst. cbn [snd].
      replace w2 with (snd (startGTR (name process) (script process)
                              (restartOptions process) (Some (id process))
                              (snd (writeProcesses (k1 ++ k2)%list w))))
        by now rewrite Hst.
      assert (Hinv1 : registryInvariant (k1 ++ k2)%list).
      { rewrite <- Hsp. now apply inv_splice1. }
      apply inv_startGTR.
      * unfold idsOf. rewrite readProcesses_write by assumption.
        destruct Hinv as [Hnd _]. rewrite Hk, map_app in Hnd. cbn in Hnd.
        apply NoDup_remove_2 in Hnd. rewrite map_app.
        unfold sameId in Hx. replace (id process) with (id x) by lia.
        exact Hnd.
      * now rewrite readProcesses_write.
    + rewrite writeProcesses_readonly by assumption.
      destruct (startGTR_registry (name process) (script process)
                  (restartOptions process) (Some (id process)) w)
        as [Hsame | [i [pid0 [c [u [Hw' _]]]]]]; [|congruence].
      destruct (startGTR _ _ _ _ w) as [r w2]. cbn [snd] in *.
      now rewrite Hsame.
  - exfalso. apply find_some in Hfind. destruct Hfind as [Hin Hy'].
    pose proof (findIndex_None _ _ _ Hix y Hin). congruence.
Qed.

End Invariant.

(** ** The invariant along the program's steps *)

Section InvariantSteps.

Context `{Host}.

Lemma inv_delete (identifier : Js.Value) (stop : bool) (w : World) :
  registryInvariant (readProcesses w) ->
  registryInvariant (readProcesses (snd (fst (delete identifier stop w)))).
Proof.
  intros Hinv. unfold delete.
  destruct (findProcess identifier w) as [p|]; [|assumption].
  destruct (stop && Status_eqb (status p) online).
  - pose proof (stopGTR_registry (Js.VNum (id p)) w) as Hst.
    destruct (stopGTR (Js.VNum (id p)) w) as [[[b w1] tasks] o].
    cbn in *. now rewrite Hst.
  - cbn. apply inv_write; [|assumption].
    destruct (Js.findIndex (sameId p) (readProcesses w));
      [now apply inv_splice1|now apply inv_removelast].
Qed.

Lemma inv_onDeleteTimeout (process : ProcessInfo) (w : World) :
  registryInvariant (readProcesses w) ->
  registryInvariant (readProcesses (onDeleteTimeout process w)).
Proof.
  intros Hinv. unfold onDeleteTimeout.
  destruct (Js.findIndex (sameId process) (readProcesses w)); [|assumption].
  apply inv_write; [now apply inv_splice1|assumption].
Qed.

Lemma inv_resurrectEach (saved : list ProcessInfo) :
  forall w : World,
    registryInvariant (readProcesses w) ->
    registryInvariant (readProcesses (snd (resurrectEach saved w))).
Proof.
  induction saved as [|e rest IH]; intros w Hinv; [assumption|].
  cbn [resurrectEach].
  destruct (existsSync (script e)).
  - pose proof (inv_startGTR (name e) (script e) (resurrectOptions e) None w
                  I Hinv) as Hinv1.
    destruct (startGTR (name e) (script e) (resurrectOptions e) None w)
      as [r w1]. cbn [snd] in Hinv1.
    specialize (IH w1 Hinv1).
    destruct (resurrectEach rest w1) as [items w2].
    destruct r; assumption.
  - specialize (IH w Hinv).
    destruct (resurrectEach rest w) as [items w2]. assumption.
Qed.

Lemma inv_livenessCallback (i : nat) (a : Answers) (m : Poll) (w : World) :
  registryInvariant (polled m) ->
  registryInvariant (polled (fst (livenessCallback i a m w))).
Proof.
  intros Hinv. unfold livenessCallback, stopInMemory, usageCallback, newDate.
  destruct (nth_error (polled m) i) as [process|]; [|assumption].
  destruct (reportsDead (liveness a)).
  - destruct (negb (Status_eqb (status process) stopped)); [|assumption].
    cbn. apply inv_updateAt; auto.
  - destruct (Status_eqb (status process) stopping).
    + destruct (_ >? 30000); [|assumption]. cbn. apply inv_updateAt; auto.
    + destruct (usage a) as [|error stdout]; [assumption|].
      destruct (negb error && negb (String.eqb stdout "")); [|assumption].
      destruct (1 <? _)%nat; [|assumption].
      cbn. apply inv_updateAt; auto.
Qed.

Lemma inv_monitorLoop (answers : nat -> Answers) :
  forall (count k : nat) (m : Poll) (w : World),
    registryInvariant (polled m) ->
    registryInvariant (polled (fst (monitorLoop answers count k m w))).
Proof.
  induction count as [|count IH]; intros k m w Hinv; [assumption|].
  cbn [monitorLoop].
  destruct (nth_error (polled m) k) as [process|]; [|now apply IH].
  destruct (isPolled process); [|now apply IH].
  destruct (liveness (answers k)) eqn:Hl; [|now apply IH].
  pose proof (inv_livenessCallback k (answers k) m w Hinv) as Hinv1.
  destruct (livenessCallback k (answers k) m w) as [m1 w1].
  now apply IH.
Qed.

Lemma monitorLoop_file (answers : nat -> Answers) :
  forall (count k : nat) (m : Poll) (w : World),
    processFile (snd (monitorLoop answers count k m w)) = processFile w
    /\ storeWritable (snd (monitorLoop answers count k m w))
       = storeWritable w.
Proof.
  induction count as [|count IH]; intros k m w; [auto|].
  cbn [monitorLoop].
  destruct (nth_error (polled m) k) as [process|] eqn:Hk; [|apply IH].
  destruct (isPolled process); [|apply IH].
  destruct (liveness (answers k)) eqn:Hl; [|apply IH].
  unfold livenessCallback. rewrite Hk, Hl. cbn [reportsDead].
  destruct (negb (Status_eqb (status process) stopped)); [|apply IH].
  unfold stopInMemory, newDate.
  destruct (IH (S k)
              (mkPoll (Js.updateAt k
                         (fun p => set_updatedAt (Date_now (clockReads w))
                                     (set_status stopped p)) (polled m)) true)
              (with_clockReads (S (clockReads w)) w)) as [H1 H2].
  split; [exact H1|exact H2].
Qed.

Lemma inv_monitorProcesses (answers : nat -> Answers) (w : World) :
  registryInvariant (readProcesses w) ->
  registryInvariant (readProcesses (snd (monitorProcesses answers w))).
Proof.
  intros Hinv. unfold monitorProcesses.
  pose proof (inv_monitorLoop answers (List.length (readProcesses w)) 0
                (mkPoll (readProcesses w) false) w Hinv) as Hm.
  destruct (monitorLoop_file answers (List.length (readProcesses w)) 0
              (mkPoll (readProcesses w) false) w) as [Hf _].
  destruct (monitorLoop answers _ 0 _ w) as [m w1]. cbn [fst snd] in *.
  assert (Hw1 : registryInvariant (readProcesses w1))
    by (unfold readProcesses; now rewrite Hf).
  destruct (updated m); cbn [snd]; [|assumption].
  now apply inv_write.
Qed.

(** Every command and every callback keeps the invariant. *)
Lemma Step_invariant (w w' : World) :
  Step w w' ->
  registryInvariant (readProcesses w) -> registryInvariant (readProcesses w').
Proof.
  intros Hstep Hinv. destruct Hstep.
  - now apply inv_startGTR.
  - now rewrite stopGTR_registry.
  - unfold onKillDone. destruct error; [assumption|].
    now apply inv_markStopped.
  - unfold onKillForceDone. destruct error; [assumption|].
    now apply inv_markStopped.
  - unfold restart. destruct (findProcess identifier w) as [p|]; [|assumption].
    pose proof (stopGTR_registry (Js.VNum (id p)) w) as Hst.
    destruct (stopGTR (Js.VNum (id p)) w) as [[[b w1] tasks] o].
    cbn in *. now rewrite Hst.
  - now apply inv_onRestartTimeout.
  - now apply inv_delete.
  - now apply inv_onDeleteTimeout.
  - unfold save. destruct (storeWritable w); assumption.
  - unfold resurrect. destruct (ecosystemFile w) as [saved|]; [|assumption].
    destruct (List.length saved =? 0)%nat; [assumption|].
    pose proof (inv_resurrectEach saved w Hinv) as Hr.
    destruct (resurrectEach saved w) as [items w1]. assumption.
  - unfold prune.
    destruct (List.length (filter isOnline (readProcesses w))
              =? List.length (readProcesses w))%nat; [assumption|].
    cbn [snd]. apply inv_write; [now apply inv_filter|assumption].
  - now apply inv_monitorProcesses.
Qed.

(** In every world the program reaches from an empty registry, ids are
    pairwise distinct and every record has a non-zero [instances]. *)
Lemma Reachable_invariant (w : World) :
  Reachable w -> registryInvariant (readProcesses w).
Proof.
  intros Hr. induction Hr as [eco writable spawns reads|w w' Hr IH Hstep].
  - split; constructor.
  - exact (Step_invariant w w' Hstep IH).
Qed.

End InvariantSteps.

(** ** Claim about id allocation *)

Section AllocationClaim.

Context `{Host}.

(** The ids handed out by a run of starts are new and pairwise distinct. *)
Lemma StartsAll_new (w w' : World) (reqs : list StartRequest)
    (ids : list Z) :
  storeWritable w = true ->
  StartsAll w reqs ids w' ->
  NoDup ids /\ forall i, In i ids -> ~ In i (idsOf w).
Proof.
  intros Hw Hall. induction Hall as [w|w r rs i0 ids w1 w2 Hstart Hall IH].
  - split; [constructor|intros i []].
  - destruct (fresh_start_ids _ _ _ _ _ _ Hw Hstart) as [Hids Hw1].
    destruct (IH Hw1) as [Hnd Hnew]. rewrite Hids in Hnew.
    split.
    + constructor; [|assumption].
      intros Hin. apply (Hnew i0 Hin). rewrite in_app_iff. right. now left.
    + intros i [<- | Hin].
      * exact (proj1 (proj2 (fresh_start_least _ _ _ _ _ _ Hstart))).
      * intros Hold. apply (Hnew i Hin). rewrite in_app_iff. now left.
Qed.

(** A run of start calls with pairwise distinct names, none of them
    online, on scripts that exist: every call returns an id when log
    files open and spawn returns a child. *)
Lemma StartsAll_exists (reqs : list StartRequest) :
  (forall n, openSync_ok (logFileOf n) = true
             /\ openSync_ok (errorLogFileOf n) = true) ->
  (forall k s, exists pid0, spawn k s = Spawned pid0) ->
  forall w : World,
    (forall r, In r reqs -> existsSync (req_script r) = true) ->
    NoDup (map req_name reqs) ->
    (forall r, In r reqs ->
               existsb (onlineNamed (req_name r)) (readProcesses w) = false) ->
    exists ids w', StartsAll w reqs ids w'.
Proof.
  intros Hopen Hspawn.
  induction reqs as [|r rest IH]; intros w Hex Hnd Hfree.
  - exists [], w. constructor.
  - destruct (Hspawn (spawnCalls w) (req_script r)) as [pid0 Hsp].
    destruct (startGTR_succeeds (req_name r) (req_script r) (req_options r)
                None w pid0 (Hex r (or_introl eq_refl))
                (Hfree r (or_introl eq_refl))
                (proj1 (Hopen (req_name r))) (proj2 (Hopen (req_name r)))
                Hsp) as [i [w1 Hst]].
    destruct (startGTR_Started _ _ _ _ _ _ _ Hst)
      as [pid1 [_ [_ [_ [_ [_ [_ [_ [Happ Hsame]]]]]]]]].
    cbn [map] in Hnd. inversion Hnd as [|? ? Hnotin Hnd']; subst.
    destruct (IH w1) as [ids [w2 Hruns]].
    + intros r' Hr'. apply Hex. now right.
    + exact Hnd'.
    + intros r' Hr'. destruct (storeWritable w) eqn:Hw.
      * rewrite (Happ eq_refl), existsb_app.
        rewrite (Hfree r' (or_intror Hr')). cbn [existsb orb].
        rewrite orb_false_r. unfold onlineNamed.
        cbn [name status buildProcessInfo Status_eqb].
        rewrite andb_true_r. apply String.eqb_neq. intros Heq.
        apply Hnotin. rewrite Heq. now apply in_map.
      * rewrite (Hsame eq_refl). apply Hfree. now right.
    + exists (i :: ids), w2. eapply StartsAll_cons; eassumption.
Qed.

(** C3. The allocation loop of [generateId] terminates, on the smallest
    non-negative integer that no record of the registry uses; a fresh
    start that passes the checks of [startGTR] returns that id, and a run
    of start calls with pairwise distinct names all succeed.  In every run
    of start calls that all succeed, from any registry whose file is
    writable, each new record gets the smallest non-negative integer that
    no record of the registry uses at that moment; the ids handed out are
    pairwise distinct and differ from every id already present, so a
    registry with pairwise distinct ids keeps pairwise distinct ids; in
    particular the ids of every registry the program reaches from an
    empty one are pairwise distinct.  Allocation is not monotonic: after a
    record with non-negative id [d] has been deleted, the next start gets
    an id not above [d], and exactly [d] when every smaller id is in
    use. *)
Theorem start_ids_least_unused :
  (forall (w w' : World) (reqs : list StartRequest) (ids : list Z),
      storeWritable w = true ->
      StartsAll w reqs ids w' ->
      idsOf w' = (idsOf w ++ ids)%list
      /\ (forall k i, nth_error ids k = Some i ->
                      leastUnused (idsOf w ++ firstn k ids) i)
      /\ NoDup ids
      /\ (forall i, In i ids -> ~ In i (idsOf w))
      /\ (NoDup (idsOf w) -> NoDup (idsOf w')))
  /\ (forall w : World, Reachable w -> NoDup (idsOf w))
  /\ (forall (w w1 w2 : World) (identifier : Js.Value) (p : ProcessInfo)
             (name0 script0 : string) (options : Options) (i : Z),
         storeWritable w = true ->
         NoDup (idsOf w) ->
         findProcess identifier w = Some p ->
         0 <= id p ->
         delete identifier false w = (Deleted, w1, []) ->
         startGTR name0 script0 options None w1 = (Started i, w2) ->
         i <= id p
         /\ ((forall j, 0 <= j < id p -> In j (idsOf w)) -> i = id p))
  /\ (forall w : World,
         exists i, generateId w = Some i /\ leastUnused (idsOf w) i)
  /\ (forall (name0 script0 : string) (options : Options) (w : World)
             (pid0 : option Z),
         existsSync script0 = true ->
         existsb (onlineNamed name0) (readProcesses w) = false ->
         openSync_ok (logFileOf name0) = true ->
         openSync_ok (errorLogFileOf name0) = true ->
         spawn (spawnCalls w) script0 = Spawned pid0 ->
         exists i w',
           startGTR name0 script0 options None w = (Started i, w')
           /\ leastUnused (idsOf w) i)
  /\ (forall (w : World) (reqs : list StartRequest),
         (forall n, openSync_ok (logFileOf n) = true
                    /\ openSync_ok (errorLogFileOf n) = true) ->
         (forall k s, exists pid0, spawn k s = Spawned pid0) ->
         (forall r, In r reqs -> existsSync (req_script r) = true) ->
         NoDup (map req_name reqs) ->
         (forall r, In r reqs ->
                    existsb (onlineNamed (req_name r)) (readProcesses w)
                    = false) ->
         exists ids w', StartsAll w reqs ids w')
  /\ (forall (w w1 : World) (identifier : Js.Value) (p : ProcessInfo)
             (name0 script0 : string) (options : Options)
             (pid0 : option Z),
         storeWritable w = true ->
         NoDup (idsOf w) ->
         findProcess identifier w = Some p ->
         0 <= id p ->
         delete identifier false w = (Deleted, w1, []) ->
         existsSync script0 = true ->
         existsb (onlineNamed name0) (readProcesses w1) = false ->
         openSync_ok (logFileOf name0) = true ->
         openSync_ok (errorLogFileOf name0) = true ->
         spawn (spawnCalls w1) script0 = Spawned pid0 ->
         exists i w2,
           startGTR name0 script0 options None w1 = (Started i, w2)
           /\ i <= id p
           /\ ((forall j, 0 <= j < id p -> In j (idsOf w)) -> i = id p)).
Proof.
  assert (Hreuse :
    forall (w w1 w2 : World) (identifier : Js.Value) (p : ProcessInfo)
           (name0 script0 : string) (options : Options) (i : Z),
      storeWritable w = true ->
      NoDup (idsOf w) ->
      findProcess identifier w = Some p ->
      0 <= id p ->
      delete identifier false w = (Deleted, w1, []) ->
      startGTR name0 script0 options None w1 = (Started i, w2) ->
      i <= id p
      /\ ((forall j, 0 <= j < id p -> In j (idsOf w)) -> i = id p)).
  { intros w w1 w2 identifier p name0 script0 options i
           Hw Hnd Hfind Hpos Hdel Hstart.
    destruct (delete_now_ids identifier w p Hw Hfind)
      as [l1 [x [l2 [Hl [Hx [_ [Hdel' Hread]]]]]]].
    rewrite Hdel' in Hdel. inversion Hdel as [Hw1]. clear Hdel.
    rewrite Hw1 in Hread.
    pose proof (fresh_start_least _ _ _ _ _ _ Hstart) as [Hi0 [Hi1 Hi2]].
    unfold idsOf in *. rewrite Hread in Hi1, Hi2. rewrite Hl in Hnd.
    rewrite map_app in Hnd. cbn in Hnd. apply NoDup_remove in Hnd.
    destruct Hnd as [_ Hfree]. rewrite Hx, <- map_app in Hfree.
    assert (Hle : i <= id p).
    { destruct (Z_le_gt_dec i (id p)) as [Hle | Hgt]; [assumption|].
      exfalso. apply Hfree, Hi2. lia. }
    split; [assumption|].
    intros Hsmall.
    destruct (Z.eq_dec i (id p)) as [Heq | Hne]; [assumption|].
    exfalso. apply Hi1.
    assert (Hin : In i (map id (readProcesses w))) by (apply Hsmall; lia).
    rewrite Hl, map_app in Hin. cbn in Hin.
    rewrite map_app. rewrite in_app_iff in *.
    destruct Hin as [Hin | [Heq | Hin]]; auto. congruence. }
  split; [|split; [|split; [|split; [|split; [|split]]]]].
  - intros w w' reqs ids Hw Hall.
    destruct (StartsAll_new _ _ _ _ Hw Hall) as [Hnd Hnew].
    split; [|split; [|split; [|split]]].
    + exact (proj1 (StartsAll_ids _ _ _ _ Hw Hall)).
    + exact (StartsAll_least _ _ _ _ Hw Hall).
    + exact Hnd.
    + exact Hnew.
    + exact (StartsAll_NoDup _ _ _ _ Hw Hall).
  - intros w Hr. exact (proj1 (Reachable_invariant w Hr)).
  - exact Hreuse.
  - exact generateId_least.
  - intros name0 script0 options w pid0 Hex Hon Hlog Herr Hsp.
    destruct (startGTR_succeeds name0 script0 options None w pid0
                Hex Hon Hlog Herr Hsp) as [i [w' Hst]].
    exists i, w'. split; [exact Hst|].
    exact (fresh_start_least _ _ _ _ _ _ Hst).
  - intros w reqs Hopen Hspawn Hex Hnd Hfree.
    exact (StartsAll_exists reqs Hopen Hspawn w Hex Hnd Hfree).
  - intros w w1 identifier p name0 script0 options pid0
           Hw Hnd Hfind Hpos Hdel Hex Hon Hlog Herr Hsp.
    destruct (startGTR_succeeds name0 script0 options None w1 pid0
                Hex Hon Hlog Herr Hsp) as [i [w2 Hst]].
    exists i, w2. split; [exact Hst|].
    exact (Hreuse w w1 w2 identifier p name0 script0 options i
             Hw Hnd Hfind Hpos Hdel Hst).
Qed.

End AllocationClaim.

(** ** Claims about restart *)

Section RestartClaims.

Context `{Host}.

(** A record found in a reachable world has a non-zero [instances]. *)
Lemma Reachable_instances (identifier : Js.Value) (w : World)
    (x : ProcessInfo) :
  Reachable w -> findProcess identifier w = Some x -> instances x <> Some 0.
Proof.
  intros Hr Hfind. destruct (Reachable_invariant w Hr) as [_ Hall].
  rewrite Forall_forall in Hall. apply Hall.
  unfold findProcess in Hfind. apply find_some in Hfind. tauto.
Qed.





End RestartClaims.





(** ** Identifier resolution and stop *)

Section ResolutionClaims.

Context `{Host}.

Lemma find_ext (A : Type) (f g : A -> bool) (l : list A) :
  (forall x, In x l -> f x = g x) -> find f l = find g l.
Proof.
  induction l as [|a l IH]; intros Hfg; [reflexivity|].
  cbn. rewrite (Hfg a (or_introl eq_refl)).
  destruct (g a); [reflexivity|]. apply IH. intros x Hx. apply Hfg. now right.
Qed.

(** The predicate of [findProcess], by cases on the parse. *)
Lemma matchesIdentifier_cases (identifier : Js.Value) (p : ProcessInfo) :
  matchesIdentifier identifier p
  = match Js.parseInt identifier with
    | Some n =>
        (id p =? n) || Js.strictEqString (name p) identifier
        || match pid p with Some q => q =? n | None => false end
    | None => Js.strictEqString (name p) identifier
    end.
Proof.
  unfold matchesIdentifier, Js.parseInt.
  destruct (Js.parseIntNum identifier) as [|n|b]; cbn.
  - now rewrite orb_false_r.
  - destruct (pid p); reflexivity.
  - destruct (pid p); now rewrite orb_false_r.
Qed.

(** C1, as amended. [findProcess] returns the first record, in file
    order, that matches; an identifier is always compared against [name],
    and in addition against [id] and [pid] when it parses as an integer.
    So an identifier that does not parse is resolved by name only, a
    numeric identifier can also be matched by a record's name, and the
    result agrees with the specified resolution whenever no record is
    named like the numeric identifier.  When no record matches, stop,
    restart, delete, show and logs report NotFound and the world is
    unchanged. *)
Theorem findProcess_resolution (identifier : Js.Value) (w : World) :
  (Js.parseInt identifier = None ->
   findProcess identifier w
   = find (fun p => Js.strictEqString (name p) identifier) (readProcesses w))
  /\ (forall n, Js.parseInt identifier = Some n ->
      findProcess identifier w
      = find (fun p => (id p =? n) || Js.strictEqString (name p) identifier
                       || match pid p with
                          | Some q => q =? n
                          | None => false
                          end)
          (readProcesses w))
  /\ (forall n, Js.parseInt identifier = Some n ->
      (forall p, In p (readProcesses w) ->
                 Js.strictEqString (name p) identifier = false) ->
      findProcess identifier w
      = resolveAsSpecified identifier (readProcesses w))
  /\ (Js.parseInt identifier = None ->
      findProcess identifier w
      = resolveAsSpecified identifier (readProcesses w))
  /\ (findProcess identifier w = None <->
      forall p, In p (readProcesses w) ->
        Js.strictEqString (name p) identifier = false
        /\ forall n, Js.parseInt identifier = Some n ->
                     id p <> n /\ pid p <> Some n)
  /\ (findProcess identifier w = None ->
      stopGTR identifier w = (false, w, [], None)
      /\ restart identifier w = (RestartNotFound, w, [])
      /\ (forall stop, delete identifier stop w = (DeleteNotFound, w, []))
      /\ show identifier w = ShowNotFound
      /\ forall error, logs identifier error w = LogsNotFound).
Proof.
  unfold findProcess.
  split; [|split; [|split; [|split; [|split]]]].
  - intros Hp. apply find_ext. intros p _.
    rewrite matchesIdentifier_cases, Hp. reflexivity.
  - intros n Hp. apply find_ext. intros p _.
    rewrite matchesIdentifier_cases, Hp. reflexivity.
  - intros n Hp Hname. unfold resolveAsSpecified. rewrite Hp.
    apply find_ext. intros p Hin.
    rewrite matchesIdentifier_cases, Hp, (Hname p Hin).
    now rewrite orb_false_r.
  - intros Hp. unfold resolveAsSpecified. rewrite Hp.
    apply find_ext. intros p _.
    rewrite matchesIdentifier_cases, Hp. reflexivity.
  - rewrite find_None_iff. split.
    + intros Hall p Hin. specialize (Hall p Hin).
      rewrite matchesIdentifier_cases in Hall.
      destruct (Js.parseInt identifier) as [n|].
      * apply orb_false_iff in Hall. destruct Hall as [Hall Hpid].
        apply orb_false_iff in Hall. destruct Hall as [Hid Hname].
        split; [assumption|]. intros m Hm. inversion Hm; subst m.
        split; [lia|]. destruct (pid p) as [q|]; [|discriminate].
        intros Heq. inversion Heq; subst. lia.
      * split; [assumption|]. intros n Hn. discriminate.
    + intros Hall p Hin. destruct (Hall p Hin) as [Hname Hnum].
      rewrite matchesIdentifier_cases.
      destruct (Js.parseInt identifier) as [n|]; [|assumption].
      destruct (Hnum n eq_refl) as [Hid Hpid].
      rewrite Hname. replace (id p =? n) with false by lia. cbn.
      destruct (pid p) as [q|]; [|reflexivity].
      destruct (q =? n) eqn:E; [|reflexivity].
      exfalso. apply Hpid. f_equal. lia.
  - intros Hnone. fold (findProcess identifier w) in Hnone.
    unfold stopGTR, restart, delete, show, logs. rewrite Hnone. auto.
Qed.

(** What [stopGTR] does on a matched record whose [pid] is falsy: it
    returns [true], schedules no termination request, sets the status of
    the object it holds to [stopped], and what it writes is the array it
    read first, so the registry keeps its content. *)
Lemma stopGTR_no_pid (identifier : Js.Value) (w : World) (p : ProcessInfo) :
  findProcess identifier w = Some p ->
  pidTruthy p = false ->
  exists w' p',
    stopGTR identifier w = (true, w', [], Some p')
    /\ status p' = stopped
    /\ readProcesses w' = readProcesses w.
Proof.
  unfold stopGTR. intros Hfind Hpid. rewrite Hfind.
  unfold newDate, writeProcesses. cbn.
  replace (pidTruthy _) with false by (symmetry; exact Hpid).
  destruct (storeWritable w) eqn:Hw; cbn; rewrite ?Hw; cbn;
    eexists; eexists; repeat split.
Qed.

End ResolutionClaims.

(** C1, counterexample: the identifier ["7"] parses as the integer 7; no
    record has id 7 or pid 7, so the specified resolution finds nothing,
    yet [findProcess] returns the record named ["7"]. *)
Lemma numeric_identifier_matched_by_name :
  Js.parseInt (Js.VStr "7") = Some 7
  /\ resolveAsSpecified (Js.VStr "7") (readProcesses sevenWorld) = None
  /\ option_map (fun p => (id p, name p, pid p))
       (findProcess (Js.VStr "7") sevenWorld)
     = Some (0, "7", Some 1000).
Proof.
  repeat split.
Qed.

(** C9, evaluated on the code: [start] on a host whose spawn gives no pid
    leaves one online record without pid; stopping it returns [true] and
    schedules no termination request, but the registry file still holds
    the record as [online]. *)
Lemma stop_without_pid_stays_online :
  readProcesses orphanWorld = [orphanRecord]
  /\ findProcess (Js.VStr "app") orphanWorld = Some orphanRecord
  /\ pid orphanRecord = None
  /\ fst (@stopGTR pidlessHost (Js.VStr "app") orphanWorld)
     = (true, mkWorld (Some [orphanRecord]) None true 1 3, [])
  /\ option_map status (snd (@stopGTR pidlessHost (Js.VStr "app") orphanWorld))
     = Some stopped
  /\ map status
       (readProcesses
          (snd (fst (fst (@stopGTR pidlessHost (Js.VStr "app") orphanWorld)))))
     = [online].
Proof.
  repeat split.
Qed.

(** ** prune *)

Section PruneClaims.

Lemma filter_length_le (A : Type) (f : A -> bool) (l : list A) :
  (List.length (filter f l) <= List.length l)%nat.
Proof.
  induction l as [|a l IH]; cbn; [lia|]. destruct (f a); cbn; lia.
Qed.

(** [filter] keeps the length only when it keeps every element. *)
Lemma filter_same_length (A : Type) (f : A -> bool) (l : list A) :
  List.length (filter f l) = List.length l -> filter f l = l.
Proof.
  induction l as [|a l IH]; cbn; [reflexivity|].
  destruct (f a); cbn; intros Hlen.
  - f_equal. apply IH. lia.
  - pose proof (filter_length_le A f l). lia.
Qed.

Lemma filter_idem (A : Type) (f : A -> bool) (l : list A) :
  filter f (filter f l) = filter f l.
Proof.
  induction l as [|a l IH]; cbn; [reflexivity|].
  destruct (f a) eqn:Ha; cbn; rewrite ?Ha, IH; reflexivity.
Qed.

(** C6. With a writable registry file, prune leaves exactly the online
    records, in their order: a record is in the registry afterwards if
    and only if it was there and is online.  The count it reports is the
    number of records removed.  A second prune right after removes
    nothing and reports that there was nothing to prune, and a prune that
    finds only online records changes nothing and raises no error. *)
Theorem prune_removes_non_online (w : World) :
  storeWritable w = true ->
  readProcesses (snd (prune w)) = filter isOnline (readProcesses w)
  /\ (forall p, In p (readProcesses (snd (prune w)))
                <-> In p (readProcesses w) /\ status p = online)
  /\ (forall n, fst (prune w) = Pruned n ->
                (n + List.length (readProcesses (snd (prune w))))%nat
                = List.length (readProcesses w))
  /\ prune (snd (prune w)) = (NothingToPrune, snd (prune w))
  /\ ((forall p, In p (readProcesses w) -> status p = online) ->
      prune w = (NothingToPrune, w)).
Proof.
  intros Hw.
  assert (Hread : readProcesses (snd (prune w))
                  = filter isOnline (readProcesses w)).
  { unfold prune.
    destruct (List.length (filter isOnline (readProcesses w))
              =? List.length (readProcesses w))%nat eqn:E; cbn [snd].
    - apply Nat.eqb_eq in E. symmetry. now apply filter_same_length.
    - now apply readProcesses_write. }
  split; [exact Hread|]. split; [|split; [|split]].
  - intros p. rewrite Hread, filter_In. unfold isOnline.
    destruct (status p); cbn; intuition discriminate.
  - intros n Hn. rewrite Hread. unfold prune in Hn.
    destruct (List.length (filter isOnline (readProcesses w))
              =? List.length (readProcesses w))%nat; [discriminate|].
    cbn in Hn. inversion Hn; subst.
    pose proof (filter_length_le _ isOnline (readProcesses w)). lia.
  - unfold prune at 1. rewrite Hread, filter_idem, Nat.eqb_refl. reflexivity.
  - intros Hall. unfold prune.
    assert (Hall' : filter isOnline (readProcesses w) = readProcesses w).
    { revert Hall. generalize (readProcesses w). intros l.
      induction l as [|a l IH]; intros Hall; [reflexivity|].
      cbn. unfold isOnline at 1. rewrite (Hall a (or_introl eq_refl)). cbn.
      f_equal. apply IH. intros p Hp. apply Hall. now right. }
    now rewrite Hall', Nat.eqb_refl.
Qed.

End PruneClaims.

(** C6, witness: pruning [mixedWorld] removes the stopped record and keeps
    the two online ones. *)
Lemma prune_removes_non_online_witness :
  storeWritable mixedWorld = true
  /\ map id (readProcesses (snd (prune mixedWorld))) = [0; 2]
  /\ prune (snd (prune mixedWorld)) = (NothingToPrune, snd (prune mixedWorld)).
Proof.
  destruct (prune_removes_non_online mixedWorld eq_refl)
    as [Hread [_ [_ [Hidem _]]]].
  split; [reflexivity|]. split; [now rewrite Hread|exact Hidem].
Defined.

(** ** Monitoring: a failed usage query *)

Section MonitorClaims.

Context `{Host}.

Lemma usageCallback_unavailable (i : nat) (a : ExecAnswer) (m : Poll)
    (w : World) :
  usageUnavailable a = true -> usageCallback i a m w = (m, w).
Proof.
  unfold usageUnavailable, usageCallback.
  destruct a as [|error stdout]; [reflexivity|].
  intros Hlines.
  destruct error; [reflexivity|]. cbn [negb andb orb] in *.
  destruct (String.eqb stdout ""); [reflexivity|]. cbn [negb andb orb] in *.
  apply Nat.leb_le in Hlines.
  destruct (1 <? List.length
                   (JsString.split "010"%char (JsString.trim stdout)))%nat
    eqn:E; [|reflexivity].
  apply Nat.ltb_lt in E. lia.
Qed.

(** A callback for the object at index [j] leaves the other objects of the
    array and the files alone. *)
Lemma usageCallback_frame (j : nat) (a : ExecAnswer) (m : Poll) (w : World)
    (i : nat) :
  j <> i ->
  nth_error (polled (fst (usageCallback j a m w))) i = nth_error (polled m) i
  /\ processFile (snd (usageCallback j a m w)) = processFile w.
Proof.
  intros Hne. unfold usageCallback.
  destruct a as [|error stdout]; [auto|].
  destruct (negb error && negb (String.eqb stdout "")); [|auto].
  destruct (1 <? _)%nat; [|auto].
  cbn. split; [now apply updateAt_other|reflexivity].
Qed.

Lemma stopInMemory_frame (j : nat) (m : Poll) (w : World) (i : nat) :
  j <> i ->
  nth_error (polled (fst (stopInMemory j m w))) i = nth_error (polled m) i
  /\ processFile (snd (stopInMemory j m w)) = processFile w.
Proof.
  intros Hne. unfold stopInMemory. cbn.
  split; [now apply updateAt_other|reflexivity].
Qed.

Lemma livenessCallback_frame (j : nat) (a : Answers) (m : Poll) (w : World)
    (i : nat) :
  j <> i ->
  nth_error (polled (fst (livenessCallback j a m w))) i
  = nth_error (polled m) i
  /\ processFile (snd (livenessCallback j a m w)) = processFile w.
Proof.
  intros Hne. unfold livenessCallback.
  destruct (nth_error (polled m) j) as [process|]; [|auto].
  destruct (reportsDead (liveness a)).
  - destruct (negb (Status_eqb (status process) stopped)); [|auto].
    now apply stopInMemory_frame.
  - destruct (Status_eqb (status process) stopping).
    + cbn. destruct (_ >? 30000); [|auto].
      destruct (stopInMemory_frame j m
                  (with_clockReads (S (clockReads w)) w) i Hne) as [H1 H2].
      split; [exact H1|exact H2].
    + now apply usageCallback_frame.
Qed.

(** The liveness callback of an online record whose process is alive and
    whose usage query gives nothing changes neither the array nor the
    world. *)
Lemma livenessCallback_alive_no_usage (i : nat) (a : Answers) (m : Poll)
    (w : World) (p : ProcessInfo) :
  nth_error (polled m) i = Some p ->
  status p = online ->
  reportsDead (liveness a) = false ->
  usageUnavailable (usage a) = true ->
  livenessCallback i a m w = (m, w).
Proof.
  intros Hp Hs Halive Hnone. unfold livenessCallback.
  rewrite Hp, Halive, Hs. cbn. now apply usageCallback_unavailable.
Qed.

Lemma monitorLoop_keeps (answers : nat -> Answers) (i : nat) :
  reportsDead (liveness (answers i)) = false ->
  forall (count k : nat) (m : Poll) (w : World),
    nth_error (polled (fst (monitorLoop answers count k m w))) i
    = nth_error (polled m) i
    /\ processFile (snd (monitorLoop answers count k m w)) = processFile w.
Proof.
  intros Halive. induction count as [|count IH]; intros k m w; [auto|].
  cbn [monitorLoop].
  assert (Hstep :
    forall mw : Poll * World,
      mw = match nth_error (polled m) k with
           | Some process =>
               if isPolled process
               then match liveness (answers k) with
                    | ExecThrows => livenessCallback k (answers k) m w
                    | ExecCalls _ _ => (m, w)
                    end
               else (m, w)
           | None => (m, w)
           end ->
      nth_error (polled (fst mw)) i = nth_error (polled m) i
      /\ processFile (snd mw) = processFile w).
  { intros mw ->.
    destruct (nth_error (polled m) k) as [process|]; [|auto].
    destruct (isPolled process); [|auto].
    destruct (liveness (answers k)) eqn:Hl; [|auto].
    destruct (Nat.eq_dec k i) as [-> | Hne].
    - rewrite Hl in Halive. discriminate.
    - now apply livenessCallback_frame. }
  destruct (match nth_error (polled m) k with
            | Some process => _
            | None => _
            end) as [m1 w1] eqn:E.
  destruct (Hstep (m1, w1) eq_refl) as [H1 H2]. cbn in H1, H2.
  destruct (IH (S k) m1 w1) as [H3 H4].
  split; congruence.
Qed.

Lemma settle_keeps (answers : nat -> Answers) (i : nat) (p : ProcessInfo)
    (registered : list ProcessInfo) :
  status p = online ->
  reportsDead (liveness (answers i)) = false ->
  usageUnavailable (usage (answers i)) = true ->
  forall (order : list nat) (m : Poll) (w : World),
    nth_error (polled m) i = Some p ->
    nth_error (polled (fst (settle answers registered order m w))) i = Some p
    /\ processFile (snd (settle answers registered order m w))
       = processFile w.
Proof.
  intros Hs Halive Hnone.
  induction order as [|k rest IH]; intros m w Hp; [auto|].
  cbn [settle].
  assert (Hstep :
    forall mw : Poll * World,
      mw = (if pendingCallback answers registered k
            then livenessCallback k (answers k) m w
            else (m, w)) ->
      nth_error (polled (fst mw)) i = Some p
      /\ processFile (snd mw) = processFile w).
  { intros mw ->.
    destruct (pendingCallback answers registered k); [|auto].
    destruct (Nat.eq_dec k i) as [-> | Hne].
    - rewrite (livenessCallback_alive_no_usage i (answers i) m w p); auto.
    - destruct (livenessCallback_frame k (answers k) m w i Hne) as [H1 H2].
      split; congruence. }
  destruct (if pendingCallback answers registered k then _ else _)
    as [m1 w1] eqn:E.
  destruct (Hstep (m1, w1) eq_refl) as [H1 H2]. cbn in H1, H2.
  destruct (IH m1 w1 H1) as [H3 H4].
  split; congruence.
Qed.

(** C8. Take a poll over any registry, any answers of the operating
    system and any order in which the queries complete.  For an online
    record whose liveness query reports the process alive and whose usage
    query fails or returns no data, the object in the poll's array is the
    same after the callbacks have run, so its [cpu] and [memory] keep
    their previous values; the record in the registry file is the same as
    well, both when [monitorProcesses] returns and after the callbacks.
    The poll has no failing outcome: [monitorProcesses] and its callbacks
    return normally. *)
Theorem usage_failure_keeps_metrics (answers : nat -> Answers) (w : World)
    (order : list nat) (i : nat) (p : ProcessInfo) :
  nth_error (readProcesses w) i = Some p ->
  status p = online ->
  reportsDead (liveness (answers i)) = false ->
  usageUnavailable (usage (answers i)) = true ->
  let returned := monitorProcesses answers w in
  let settled :=
    settle answers (readProcesses w) order (fst returned) (snd returned) in
  (exists p', nth_error (polled (fst settled)) i = Some p'
              /\ cpu p' = cpu p /\ memory p' = memory p /\ p' = p)
  /\ nth_error (readProcesses (snd returned)) i = Some p
  /\ nth_error (readProcesses (snd settled)) i = Some p.
Proof.
  intros Hp Hs Halive Hnone returned settled.
  assert (Hret : nth_error (polled (fst returned)) i = Some p
                 /\ nth_error (readProcesses (snd returned)) i = Some p).
  { subst returned. unfold monitorProcesses.
    destruct (monitorLoop_keeps answers i Halive
                (List.length (readProcesses w)) 0
                (mkPoll (readProcesses w) false) w) as [H1 H2].
    destruct (monitorLoop answers _ 0 _ w) as [m w1]. cbn in H1, H2.
    assert (Hr1 : readProcesses w1 = readProcesses w)
      by (unfold readProcesses; now rewrite H2).
    destruct (updated m); cbn [fst snd].
    - split; [congruence|].
      unfold writeProcesses. destruct (storeWritable w1); cbn; congruence.
    - split; congruence. }
  destruct Hret as [Hmem Hfile].
  destruct (settle_keeps answers i p (readProcesses w) Hs Halive Hnone order
              (fst returned) (snd returned) Hmem) as [H1 H2].
  fold settled in H1, H2.
  split; [exists p; auto|]. split; [exact Hfile|].
  unfold readProcesses in *. now rewrite H2.
Qed.

End MonitorClaims.

(** C8, witness: a poll over [appWorld] in which [ps] finds pid 1000 and
    the usage query reports an error. *)
Lemma usage_failure_keeps_metrics_witness :
  nth_error (readProcesses appWorld) 0 = Some appRecord
  /\ reportsDead (liveness (aliveNoUsage 0)) = false
  /\ usageUnavailable (usage (aliveNoUsage 0)) = true
  /\ exists p',
       nth_error
         (polled
            (fst (@settle demoHost aliveNoUsage (readProcesses appWorld) [0%nat]
                    (fst (@monitorProcesses demoHost aliveNoUsage appWorld))
                    (snd (@monitorProcesses demoHost aliveNoUsage appWorld)))))
         0 = Some p'
       /\ cpu p' = cpu appRecord /\ memory p' = memory appRecord.
Proof.
  split; [reflexivity|]. split; [reflexivity|]. split; [reflexivity|].
  destruct (@usage_failure_keeps_metrics demoHost aliveNoUsage appWorld
              [0%nat] 0%nat appRecord eq_refl eq_refl eq_refl eq_refl)
    as [[p' [Hp' [Hc [Hm _]]]] _].
  exists p'. repeat split; assumption.
Defined.

(** ** save and resurrect *)

Section ResurrectClaims.

Context `{Host}.

Lemma existsb_onlineNamed_app (n : string) (l1 l2 : list ProcessInfo) :
  existsb (onlineNamed n) (l1 ++ l2)
  = existsb (onlineNamed n) l1 || existsb (onlineNamed n) l2.
Proof.
  apply existsb_app.
Qed.

(** The record a fresh start builds for a saved entry. *)
Lemma buildProcessInfo_resurrected (e : ProcessInfo) (i : Z)
    (pid0 : option Z) (w : World) :
  resurrectedFrom e
    (buildProcessInfo i (name e) pid0 (script e) (resurrectOptions e) None
       (fst (stampsOf (resurrectOptions e) None w))
       (snd (stampsOf (resurrectOptions e) None w))).
Proof.
  unfold resurrectedFrom.
  split; [reflexivity|]. split; [reflexivity|]. split; [reflexivity|].
  split; [reflexivity|].
  split; [intros Hplain; exact (storedInstances_plain _ Hplain)|].
  split; [reflexivity|]. split; [reflexivity|].
  now exists (clockReads w).
Qed.

(** The loop of resurrect when no start is rejected: one record is
    appended per entry whose script exists, in the order of the snapshot,
    and every entry whose script is missing is reported. *)
Lemma resurrectEach_all (saved : list ProcessInfo) :
  (forall n, openSync_ok (logFileOf n) = true
             /\ openSync_ok (errorLogFileOf n) = true) ->
  (forall k s, exists pid0, spawn k s = Spawned pid0) ->
  forall w : World,
    storeWritable w = true ->
    NoDup (map name (resurrectable saved)) ->
    (forall e, In e (resurrectable saved) ->
               existsb (onlineNamed (name e)) (readProcesses w) = false) ->
    exists news,
      readProcesses (snd (resurrectEach saved w))
      = (readProcesses w ++ news)%list
      /\ Forall2 resurrectedFrom (resurrectable saved) news
      /\ StartsAll w (map resurrectRequest (resurrectable saved))
           (map id news) (snd (resurrectEach saved w))
      /\ List.length (fst (resurrectEach saved w)) = List.length saved
      /\ (forall e, In e saved -> existsSync (script e) = false ->
                    In (CannotResurrect (name e)) (fst (resurrectEach saved w)))
      /\ storeWritable (snd (resurrectEach saved w)) = true
      /\ ecosystemFile (snd (resurrectEach saved w)) = ecosystemFile w.
Proof.
  intros Hopen Hspawn.
  induction saved as [|e rest IH]; intros w Hw Hnd Hfree.
  - exists []. cbn. rewrite app_nil_r.
    split; [reflexivity|]. split; [constructor|]. split; [constructor|].
    split; [reflexivity|]. split; [intros e []|].
    split; [assumption|reflexivity].
  - cbn [resurrectEach]. unfold resurrectable in *. cbn [filter] in *.
    destruct (existsSync (script e)) eqn:Hex.
    + destruct (Hspawn (spawnCalls w) (script e)) as [pid0 Hsp].
      destruct (startGTR_succeeds (name e) (script e) (resurrectOptions e)
                  None w pid0 Hex (Hfree e (or_introl eq_refl))
                  (proj1 (Hopen (name e))) (proj2 (Hopen (name e))) Hsp)
        as [i [w1 Hst]].
      rewrite Hst.
      destruct (startGTR_Started _ _ _ _ _ _ _ Hst)
        as [pid1 [_ [_ [_ [_ [Hsw [Heco [_ [Happ _]]]]]]]]].
      specialize (Happ Hw).
      assert (Hw1 : storeWritable w1 = true) by congruence.
      cbn [map] in Hnd. inversion Hnd as [|? ? Hnotin Hnd']; subst.
      destruct (IH w1 Hw1 Hnd') as [news [Hread [Hall [Hruns [Hlen [Hmiss
                                      [Hw2 Heco2]]]]]]].
      { intros e' He'. rewrite Happ, existsb_onlineNamed_app.
        rewrite (Hfree e' (or_intror He')). cbn.
        unfold onlineNamed. cbn.
        destruct (String.eqb (name e) (name e')) eqn:E; [|reflexivity].
        apply String.eqb_eq in E. exfalso. apply Hnotin. rewrite E.
        now apply in_map. }
      destruct (resurrectEach rest w1) as [items w2] eqn:Hrest.
      cbn [fst snd] in *.
      eexists (_ :: news). split; [|split; [|split; [|split; [|split]]]].
      * rewrite Hread, Happ, <- app_assoc. reflexivity.
      * constructor; [apply buildProcessInfo_resurrected|exact Hall].
      * cbn [map]. eapply StartsAll_cons; [|exact Hruns].
        cbn. exact Hst.
      * cbn. now rewrite Hlen.
      * intros e' [<- | He'] Hmissing; [congruence|].
        right. now apply Hmiss.
      * split; congruence.
    + destruct (IH w Hw Hnd Hfree) as [news [Hread [Hall [Hruns [Hlen [Hmiss
                                         [Hw2 Heco2]]]]]]].
      destruct (resurrectEach rest w) as [items w2] eqn:Hrest.
      cbn [fst snd] in *.
      exists news. split; [|split; [|split; [|split; [|split]]]]; auto.
      * cbn. now rewrite Hlen.
      * intros e' [<- | He'] Hmissing; [now left|].
        right. now apply Hmiss.
Qed.

Lemma onlineNamed_built (n : string) (i : Z) (name0 : string)
    (pid0 : option Z) (script0 : string) (options : Options)
    (existingId c : option Z) (u : Z) :
  onlineNamed n
    (buildProcessInfo i name0 pid0 script0 options existingId c u)
  = String.eqb name0 n.
Proof.
  unfold onlineNamed. cbn [name status buildProcessInfo Status_eqb].
  apply andb_true_r.
Qed.

(** The step of the plan at position [k]: the entry is skipped when its
    script is missing, rejected when its name is taken or is the name of
    an earlier entry whose script exists, and started otherwise. *)
Lemma resurrectPlan_nth (saved : list ProcessInfo) :
  forall (taken : string -> bool) (k : nat) (e : ProcessInfo),
    nth_error saved k = Some e ->
    nth_error (resurrectPlan taken saved) k
    = Some (if existsSync (script e)
            then
              if taken (name e)
                 || existsb (fun e' => String.eqb (name e') (name e)
                                       && existsSync (script e'))
                      (firstn k saved)
              then PlanRejected (name e)
              else PlanStart e
            else PlanMissing (name e)).
Proof.
  induction saved as [|a rest IH]; intros taken k e Hk;
    [destruct k; discriminate|].
  destruct k as [|k].
  - cbn in Hk. inversion Hk; subst a. cbn [resurrectPlan firstn existsb].
    rewrite orb_false_r.
    destruct (existsSync (script e)); [|reflexivity].
    destruct (taken (name e)); reflexivity.
  - cbn [nth_error] in Hk. cbn [resurrectPlan firstn existsb].
    destruct (existsSync (script a)) eqn:Ha.
    + destruct (taken (name a)) eqn:Ht.
      * cbn [nth_error]. rewrite (IH taken k e Hk).
        destruct (String.eqb (name a) (name e)) eqn:E; [|reflexivity].
        apply String.eqb_eq in E. rewrite <- E, Ht. reflexivity.
      * cbn [nth_error]. rewrite (IH _ k e Hk). cbn [andb].
        rewrite andb_true_r.
        destruct (String.eqb (name a) (name e)); cbn [orb];
          [now rewrite orb_true_r|reflexivity].
    + cbn [nth_error]. rewrite (IH taken k e Hk).
      now rewrite andb_false_r.
Qed.

(** The loop of resurrect follows the plan when every start that passes
    the checks succeeds: the registry file is writable, log files open and
    spawn returns a child. *)
Lemma resurrectEach_plan (saved : list ProcessInfo) :
  (forall n, openSync_ok (logFileOf n) = true
             /\ openSync_ok (errorLogFileOf n) = true) ->
  (forall k s, exists pid0, spawn k s = Spawned pid0) ->
  forall (w : World) (taken : string -> bool),
    storeWritable w = true ->
    (forall n, taken n = onlineIn w n) ->
    exists news,
      readProcesses (snd (resurrectEach saved w))
      = (readProcesses w ++ news)%list
      /\ Forall2 reportedAs (resurrectPlan taken saved)
           (fst (resurrectEach saved w))
      /\ Forall2 resurrectedFrom (planStarts (resurrectPlan taken saved))
           news
      /\ StartsAll w
           (map resurrectRequest (planStarts (resurrectPlan taken saved)))
           (map id news) (snd (resurrectEach saved w)).
Proof.
  intros Hopen Hspawn.
  induction saved as [|e rest IH]; intros w taken Hw Htaken.
  - exists []. cbn. rewrite app_nil_r.
    split; [reflexivity|]. split; [constructor|]. split; constructor.
  - cbn [resurrectEach resurrectPlan].
    destruct (existsSync (script e)) eqn:Hex.
    + destruct (taken (name e)) eqn:Ht.
      * assert (Hon : existsb (onlineNamed (name e)) (readProcesses w)
                      = true) by (rewrite <- Ht; symmetry; apply Htaken).
        rewrite (startGTR_online_name (name e) (script e)
                   (resurrectOptions e) None w Hon). rewrite Hex.
        destruct (IH w taken Hw Htaken) as [news [Hread [Hrep [Hall Hruns]]]].
        destruct (resurrectEach rest w) as [items w2].
        cbn [fst snd] in *.
        exists news. split; [exact Hread|]. split; [|split; assumption].
        constructor; [reflexivity|exact Hrep].
      * assert (Hoff : existsb (onlineNamed (name e)) (readProcesses w)
                       = false) by (rewrite <- Ht; symmetry; apply Htaken).
        destruct (Hspawn (spawnCalls w) (script e)) as [pid0 Hsp].
        destruct (startGTR_succeeds (name e) (script e) (resurrectOptions e)
                    None w pid0 Hex Hoff (proj1 (Hopen (name e)))
                    (proj2 (Hopen (name e))) Hsp) as [i [w1 Hst]].
        rewrite Hst.
        destruct (startGTR_Started _ _ _ _ _ _ _ Hst)
          as [pid1 [_ [_ [_ [_ [Hsw [_ [_ [Happ _]]]]]]]]].
        specialize (Happ Hw).
        assert (Hw1 : storeWritable w1 = true) by congruence.
        destruct (IH w1 (fun n => String.eqb (name e) n || taken n) Hw1)
          as [news [Hread [Hrep [Hall Hruns]]]].
        { intros n. rewrite Htaken. unfold onlineIn.
          rewrite Happ, existsb_onlineNamed_app. cbn [existsb].
          rewrite onlineNamed_built, orb_false_r. apply orb_comm. }
        destruct (resurrectEach rest w1) as [items w2].
        cbn [fst snd] in *.
        eexists (_ :: news). split; [|split; [|split]].
        -- rewrite Hread, Happ, <- app_assoc. reflexivity.
        -- constructor; [now exists i|exact Hrep].
        -- cbn [planStarts flat_map app]. constructor;
             [apply buildProcessInfo_resurrected|exact Hall].
        -- cbn [planStarts flat_map app map]. eapply StartsAll_cons;
             [|exact Hruns]. cbn. exact Hst.
    + destruct (IH w taken Hw Htaken) as [news [Hread [Hrep [Hall Hruns]]]].
      destruct (resurrectEach rest w) as [items w2].
      cbn [fst snd] in *.
      exists news. split; [exact Hread|]. split; [|split; assumption].
      constructor; [reflexivity|exact Hrep].
Qed.

Lemma Forall2_nth_error (A B : Type) (R : A -> B -> Prop) (l : list A)
    (l' : list B) :
  Forall2 R l l' ->
  forall (k : nat) (a : A),
    nth_error l k = Some a -> exists b, nth_error l' k = Some b /\ R a b.
Proof.
  induction 1 as [|x y l l' Hxy Hl IH]; intros [|k] a Hk;
    try discriminate.
  - inversion Hk; subst. now exists y.
  - now apply IH.
Qed.

Lemma nth_error_firstn_lt (A : Type) (l : list A) :
  forall (j k : nat),
    (j < k)%nat -> nth_error (firstn k l) j = nth_error l j.
Proof.
  induction l as [|x l IH]; intros [|j] [|k] Hjk; try lia;
    try reflexivity.
  cbn. apply IH. lia.
Qed.

Lemma In_firstn_nth (A : Type) (l : list A) :
  forall (j k : nat) (a : A),
    (j < k)%nat -> nth_error l j = Some a -> In a (firstn k l).
Proof.
  induction l as [|x l IH]; intros [|j] [|k] a Hjk Hj;
    try discriminate; try lia.
  - inversion Hj; subst. now left.
  - right. apply (IH j k a); [lia|exact Hj].
Qed.

(** C7, as amended. Saving an empty registry and resurrecting changes
    nothing and calls no start.  On a non-empty snapshot resurrect calls
    [startGTR] afresh (no id, no restart counter, no createdAt carried over)
    with the name, script, instances and env of every entry whose script
    exists, and reports every entry whose script is missing.  A call is
    rejected when a record of that name is online in the registry at that
    moment, wherever the entry stands in the snapshot: the loop reports it
    as already running, leaves the registry as it is and goes on with the
    next entry.  When the registry file is writable, log files open, spawn
    does not throw, the entries to start have pairwise distinct names and
    none of these names is online in the registry, every call succeeds:
    the registry afterwards is the registry before followed by exactly one
    new online record per entry, in snapshot order, each with a freshly
    allocated id.  In general, under the same conditions on the host, the
    loop follows [resurrectPlan]: an entry whose script exists is rejected
    as already running when its name is online in the registry before
    resurrect or is the name of an earlier entry whose script exists, and
    is started otherwise; the new records are those of the started
    entries, in snapshot order.  The record of a started entry has the
    entry's name, resolved script and env, and the instances [startGTR]
    stores for the entry's: the entry's own count when that is a non-zero
    integer below [10^21]. *)
Theorem resurrect_starts_saved_entries :
  (forall w : World,
      storeWritable w = true -> readProcesses w = [] ->
      resurrect (save w) = (EmptyEcosystem, save w)
      /\ readProcesses (save w) = readProcesses w)
  /\ (forall (w : World) (saved : list ProcessInfo),
         ecosystemFile w = Some saved -> saved <> [] ->
         storeWritable w = true ->
         (forall n, openSync_ok (logFileOf n) = true
                    /\ openSync_ok (errorLogFileOf n) = true) ->
         (forall k s, exists pid0, spawn k s = Spawned pid0) ->
         NoDup (map name (resurrectable saved)) ->
         (forall e, In e (resurrectable saved) ->
                    existsb (onlineNamed (name e)) (readProcesses w) = false) ->
         exists items news,
           fst (resurrect w) = Resurrected items
           /\ List.length items = List.length saved
           /\ (forall e, In e saved -> existsSync (script e) = false ->
                         In (CannotResurrect (name e)) items)
           /\ readProcesses (snd (resurrect w))
              = (readProcesses w ++ news)%list
           /\ Forall2 resurrectedFrom (resurrectable saved) news
           /\ StartsAll w (map resurrectRequest (resurrectable saved))
                (map id news) (snd (resurrect w)))
  /\ (forall (w : World) (e : ProcessInfo) (rest : list ProcessInfo),
         ecosystemFile w = Some (e :: rest) ->
         existsSync (script e) = true ->
         existsb (onlineNamed (name e)) (readProcesses w) = true ->
         exists items,
           fst (resurrect w)
           = Resurrected (Resurrecting (name e) (StartNull AlreadyRunning)
                            :: items))
  /\ (forall (w : World) (e : ProcessInfo) (rest : list ProcessInfo),
         existsSync (script e) = true ->
         onlineIn w (name e) = true ->
         resurrectEach (e :: rest) w
         = (Resurrecting (name e) (StartNull AlreadyRunning)
              :: fst (resurrectEach rest w),
            snd (resurrectEach rest w)))
  /\ (forall (w : World) (saved : list ProcessInfo),
         ecosystemFile w = Some saved -> saved <> [] ->
         storeWritable w = true ->
         (forall n, openSync_ok (logFileOf n) = true
                    /\ openSync_ok (errorLogFileOf n) = true) ->
         (forall k s, exists pid0, spawn k s = Spawned pid0) ->
         exists items news,
           fst (resurrect w) = Resurrected items
           /\ Forall2 reportedAs (resurrectPlan (onlineIn w) saved) items
           /\ readProcesses (snd (resurrect w))
              = (readProcesses w ++ news)%list
           /\ Forall2 resurrectedFrom
                (planStarts (resurrectPlan (onlineIn w) saved)) news
           /\ StartsAll w
                (map resurrectRequest
                   (planStarts (resurrectPlan (onlineIn w) saved)))
                (map id news) (snd (resurrect w))
           /\ (forall k e,
                 nth_error saved k = Some e ->
                 existsSync (script e) = false ->
                 nth_error items k = Some (CannotResurrect (name e)))
           /\ (forall k e,
                 nth_error saved k = Some e ->
                 existsSync (script e) = true ->
                 onlineIn w (name e) = true
                 \/ (exists j e',
                        (j < k)%nat /\ nth_error saved j = Some e'
                        /\ name e' = name e
                        /\ existsSync (script e') = true) ->
                 nth_error items k
                 = Some (Resurrecting (name e) (StartNull AlreadyRunning)))
           /\ (forall k e,
                 nth_error saved k = Some e ->
                 existsSync (script e) = true ->
                 onlineIn w (name e) = false ->
                 (forall j e',
                     (j < k)%nat -> nth_error saved j = Some e' ->
                     existsSync (script e') = true -> name e' <> name e) ->
                 exists i,
                   nth_error items k
                   = Some (Resurrecting (name e) (Started i))))
  /\ (forall e r : ProcessInfo,
         resurrectedFrom e r ->
         name r = name e /\ script r = path_resolve (script e)
         /\ env r = env e /\ status r = online /\ restarts r = 0
         /\ instances r = storedInstances (Js.ofJson (instances e))
         /\ (plainCount (instances e) -> instances r = instances e)
         /\ (forall n, instances e = Some n -> 10 ^ 21 <= Z.abs n ->
                       exists d, instances r = Some d /\ 1 <= Z.abs d <= 9)
         /\ (instances e = None -> instances r = Some 1)).
Proof.
  split; [|split; [|split; [|split; [|split]]]].
  - intros w Hw Hempty. split.
    + unfold save, resurrect. rewrite Hw, Hempty. reflexivity.
    + unfold save. rewrite Hw. reflexivity.
  - intros w saved Heco Hne Hw Hopen Hspawn Hnd Hfree.
    destruct (resurrectEach_all saved Hopen Hspawn w Hw Hnd Hfree)
      as [news [Hread [Hall [Hruns [Hlen [Hmiss _]]]]]].
    unfold resurrect. rewrite Heco.
    destruct saved as [|e rest]; [congruence|].
    cbn [List.length Nat.eqb].
    destruct (resurrectEach (e :: rest) w) as [items w'] eqn:Hrun.
    cbn [fst snd] in *.
    exists items, news. repeat split; assumption.
  - intros w e rest Heco Hex Hon. unfold resurrect. rewrite Heco.
    cbn [List.length Nat.eqb resurrectEach]. rewrite Hex.
    rewrite (startGTR_online_name (name e) (script e) (resurrectOptions e)
               None w Hon). rewrite Hex.
    destruct (resurrectEach rest w) as [items w2]. cbn. eauto.
  - intros w e rest Hex Hon. cbn [resurrectEach]. rewrite Hex.
    rewrite (startGTR_online_name (name e) (script e) (resurrectOptions e)
               None w Hon). rewrite Hex.
    destruct (resurrectEach rest w) as [items w2]. reflexivity.
  - intros w saved Heco Hne Hw Hopen Hspawn.
    destruct (resurrectEach_plan saved Hopen Hspawn w (onlineIn w) Hw
                (fun n => eq_refl))
      as [news [Hread [Hrep [Hall Hruns]]]].
    unfold resurrect. rewrite Heco.
    destruct saved as [|e0 rest]; [congruence|].
    cbn [List.length Nat.eqb].
    destruct (resurrectEach (e0 :: rest) w) as [items w'] eqn:Hrun.
    cbn [fst snd] in *.
    exists items, news.
    split; [reflexivity|]. split; [exact Hrep|]. split; [exact Hread|].
    split; [exact Hall|]. split; [exact Hruns|].
    split; [|split].
    + intros k e Hk Hex.
      pose proof (resurrectPlan_nth (e0 :: rest) (onlineIn w) k e Hk) as Hp.
      rewrite Hex in Hp.
      destruct (Forall2_nth_error _ _ _ _ _ Hrep k _ Hp) as [b [Hb Hr]].
      cbn in Hr. now subst b.
    + intros k e Hk Hex Hblocked.
      pose proof (resurrectPlan_nth (e0 :: rest) (onlineIn w) k e Hk) as Hp.
      rewrite Hex in Hp.
      assert (Hb : onlineIn w (name e)
                   || existsb (fun e' => String.eqb (name e') (name e)
                                         && existsSync (script e'))
                        (firstn k (e0 :: rest)) = true).
      { destruct Hblocked as [Hon | [j [e' [Hj [He' [Hname Hex']]]]]].
        - now rewrite Hon.
        - apply orb_true_iff. right. apply existsb_exists. exists e'.
          split; [exact (In_firstn_nth _ _ j k e' Hj He')|].
          rewrite Hname, String.eqb_refl, Hex'. reflexivity. }
      rewrite Hb in Hp.
      destruct (Forall2_nth_error _ _ _ _ _ Hrep k _ Hp) as [b [Hb' Hr]].
      cbn in Hr. now subst b.
    + intros k e Hk Hex Hoff Hfirst.
      pose proof (resurrectPlan_nth (e0 :: rest) (onlineIn w) k e Hk) as Hp.
      rewrite Hex, Hoff in Hp.
      assert (Hb : existsb (fun e' => String.eqb (name e') (name e)
                                      && existsSync (script e'))
                     (firstn k (e0 :: rest)) = false).
      { destruct (existsb _ (firstn k (e0 :: rest))) eqn:E; [|reflexivity].
        exfalso. apply existsb_exists in E.
        destruct E as [e' [Hin He']].
        apply andb_true_iff in He'. destruct He' as [Hname Hex'].
        apply String.eqb_eq in Hname.
        apply In_nth_error in Hin. destruct Hin as [j Hj].
        assert (Hlt : (j < k)%nat).
        { assert (Hsome : nth_error (firstn k (e0 :: rest)) j <> None)
            by congruence.
          apply nth_error_Some in Hsome.
          pose proof (firstn_le_length k (e0 :: rest)). lia. }
        apply (Hfirst j e' Hlt); [|exact Hex'|exact Hname].
        rewrite <- Hj. symmetry. apply nth_error_firstn_lt. exact Hlt. }
      rewrite Hb in Hp. cbn [orb] in Hp.
      destruct (Forall2_nth_error _ _ _ _ _ Hrep k _ Hp) as [b [Hb' Hr]].
      cbn in Hr. destruct Hr as [i ->]. now exists i.
  - intros e r [Hn [Hs [He [Hi [Hp [Hst [Hr _]]]]]]].
    repeat (split; [assumption|]). split.
    + intros n Hsome Hbig. rewrite Hi, Hsome. cbn [Js.ofJson].
      now apply storedInstances_large.
    + intros Hnull. rewrite Hi, Hnull. exact storedInstances_null.
Qed.

End ResurrectClaims.

(** ** Concrete runs *)


(** C5, counterexample: [app] is online and a second start names a script
    that does not exist; the call fails with ScriptMissing, not with
    AlreadyRunning. *)
Lemma duplicate_start_script_missing :
  existsb (onlineNamed "app") (readProcesses appWorld) = true
  /\ @startGTR demoHost "app" "/missing.js" cliOptions None appWorld
     = (StartNull ScriptMissing, appWorld)
  /\ ~ DuplicateStartFailsAlreadyRunning demoHost "app" "/missing.js"
         cliOptions appWorld.
Proof.
  split; [reflexivity|]. split; [reflexivity|].
  intros Hclaim. specialize (Hclaim eq_refl). discriminate Hclaim.
Qed.

(** C5, witness of the amended statement: the second start of [app] with
    an existing script. *)
Lemma start_duplicate_rejected_witness :
  existsb (onlineNamed "app") (readProcesses appWorld) = true
  /\ snd (@startGTR demoHost "app" "/srv/app.js" cliOptions None appWorld)
     = appWorld
  /\ fst (@startGTR demoHost "app" "/srv/app.js" cliOptions None appWorld)
     = StartNull AlreadyRunning.
Proof.
  split; [reflexivity|].
  destruct (@start_duplicate_rejected demoHost "app" "/srv/app.js" cliOptions
              None appWorld eq_refl) as [Hsame [Hrun _]].
  split; [exact Hsame|exact (Hrun eq_refl)].
Defined.

(** C3, witness: two starts on a fresh registry get ids 0 and 1; after
    [app] (id 0) is deleted, the next start returns id 0 again. *)
Lemma start_ids_least_unused_witness :
  idsOf twoAppsWorld = [0; 1]
  /\ NoDup (idsOf twoAppsWorld)
  /\ idsOf afterDeleteApp = [1]
  /\ (exists w2,
        @startGTR demoHost "web" "/srv/web.js" cliOptions None afterDeleteApp
        = (Started 0, w2))
  /\ exists ids w',
       @StartsAll demoHost freshWorld
         [mkStartRequest "app" "/srv/app.js" cliOptions;
          mkStartRequest "api" "/srv/api.js" cliOptions]
         ids w'.
Proof.
  destruct (@start_ids_least_unused demoHost)
    as [Hruns [_ [_ [_ [_ [Hall' Hreuse]]]]]].
  assert (Hall : @StartsAll demoHost freshWorld
                   [mkStartRequest "app" "/srv/app.js" cliOptions;
                    mkStartRequest "api" "/srv/api.js" cliOptions]
                   [0; 1] twoAppsWorld).
  { eapply StartsAll_cons; [reflexivity|].
    eapply StartsAll_cons; [reflexivity|]. apply StartsAll_nil. }
  destruct (Hruns freshWorld twoAppsWorld _ _ eq_refl Hall)
    as [Hids [_ [_ [_ Hnd]]]].
  split; [exact Hids|]. split; [apply Hnd; constructor|].
  split; [reflexivity|]. split.
  - destruct (Hreuse twoAppsWorld afterDeleteApp (Js.VStr "app") appRecord
                "web" "/srv/web.js" cliOptions (Some 1002) eq_refl
                (Hnd (NoDup_nil Z)) eq_refl ltac:(cbn; lia) eq_refl
                eq_refl eq_refl eq_refl eq_refl eq_refl)
      as [i [w2 [Hst [_ Heq]]]].
    assert (Hi : i = 0) by (apply Heq; cbn; intros j Hj; lia).
    subst i. now exists w2.
  - apply (Hall' freshWorld).
    + intros n. split; reflexivity.
    + intros k s. now exists (Some (1000 + Z.of_nat k)).
    + intros r [<- | [<- | []]]; reflexivity.
    + cbn. constructor; [intros [Heq | []]; discriminate Heq|].
      constructor; [intros []|constructor].
    + intros r [<- | [<- | []]]; reflexivity.
Defined.

(** C7, counterexample: [app] is online and its script exists; after
    [save], resurrect calls [startGTR] for it, the call is rejected as
    already running, and the registry holds one record as before. *)
Lemma resurrect_rejects_online_entry :
  map (fun p => (name p, status p)) (readProcesses appWorld)
  = [("app", online)]
  /\ @existsSync demoHost "/srv/app.js" = true
  /\ @resurrect demoHost (save appWorld)
     = (Resurrected [Resurrecting "app" (StartNull AlreadyRunning)],
        save appWorld)
  /\ ~ RoundTripAddsRecords demoHost appWorld.
Proof.
  split; [reflexivity|]. split; [reflexivity|]. split; [reflexivity|].
  intros [news [Hread [Hlen _]]].
  destruct news as [|r news]; [discriminate Hlen|].
  vm_compute in Hread. discriminate Hread.
Qed.

(** C7, witness of the amended statement: resurrecting [snapshotWorld]
    starts [app] and reports [gone]; resurrecting [twiceWorld] starts the
    first [app], reports [gone] and rejects the second [app]. *)
Lemma resurrect_starts_saved_entries_witness :
  ecosystemFile snapshotWorld = Some [appRecord; goneRecord]
  /\ (exists items news,
        fst (@resurrect demoHost snapshotWorld) = Resurrected items
        /\ In (CannotResurrect "gone") items
        /\ readProcesses (snd (@resurrect demoHost snapshotWorld))
           = (readProcesses snapshotWorld ++ news)%list
        /\ List.length news = 1%nat)
  /\ ecosystemFile twiceWorld = Some [appRecord; goneRecord; appRecord]
  /\ exists items news,
       fst (@resurrect demoHost twiceWorld) = Resurrected items
       /\ nth_error items 1 = Some (CannotResurrect "gone")
       /\ nth_error items 2
          = Some (Resurrecting "app" (StartNull AlreadyRunning))
       /\ (exists i, nth_error items 0 = Some (Resurrecting "app" (Started i)))
       /\ readProcesses (snd (@resurrect demoHost twiceWorld))
          = (readProcesses twiceWorld ++ news)%list
       /\ List.length news = 1%nat.
Proof.
  split; [reflexivity|].
  destruct (@resurrect_starts_saved_entries demoHost)
    as [_ [Hstep [_ [_ [Hplan _]]]]].
  split; [|split; [reflexivity|]].
  - destruct (Hstep snapshotWorld [appRecord; goneRecord] eq_refl
                ltac:(discriminate) eq_refl
                (fun n => conj eq_refl eq_refl)
                (fun k s => ex_intro _ (Some (1000 + Z.of_nat k)) eq_refl)
                ltac:(cbn; repeat constructor; intros [])
                ltac:(intros e _; reflexivity))
      as [items [news [Hres [_ [Hmiss [Hread [Hall _]]]]]]].
    exists items, news. split; [exact Hres|].
    split; [apply (Hmiss goneRecord); [right; now left|reflexivity]|].
    split; [exact Hread|].
    apply Forall2_length in Hall. now rewrite <- Hall.
  - destruct (Hplan twiceWorld [appRecord; goneRecord; appRecord] eq_refl
                ltac:(discriminate) eq_refl
                (fun n => conj eq_refl eq_refl)
                (fun k s => ex_intro _ (Some (1000 + Z.of_nat k)) eq_refl))
      as [items [news [Hres [_ [Hread [Hall [_ [Hmiss [Hrej Hst]]]]]]]]].
    exists items, news. split; [exact Hres|].
    split; [exact (Hmiss 1%nat goneRecord eq_refl eq_refl)|].
    split.
    { apply (Hrej 2%nat appRecord eq_refl eq_refl). right.
      exists 0%nat, appRecord. repeat split. lia. }
    split.
    { apply (Hst 0%nat appRecord eq_refl eq_refl eq_refl).
      intros j e' Hj. lia. }
    split; [exact Hread|].
    apply Forall2_length in Hall. now rewrite <- Hall.
Defined.

(** * Further properties of the code *)

(** ** Uptime display *)

Section UptimeDisplay.

Lemma uptime_div_div (ms : Z) :
  ms / 1000 / 60 = ms / 60000
  /\ ms / 1000 / 60 / 60 = ms / 3600000
  /\ ms / 1000 / 60 / 60 / 24 = ms / 86400000.
Proof.
  repeat rewrite Zdiv.Zdiv_Zdiv by lia. repeat split.
Qed.

(** X1. [formatUptime] shows the two most significant units, truncated: seconds
    below one minute, minutes and seconds below one hour, hours and minutes
    below one day, days and hours from then on.  A negative difference is
    shown in (negative) seconds and an invalid date as ["NaNs"]. *)
Theorem formatUptime_units (ms : Z) :
  (ms < 60000 ->
   formatUptime (Some ms) = (numberToString (ms / 1000) ++ "s")%string)
  /\ (60000 <= ms < 3600000 ->
      formatUptime (Some ms)
      = (numberToString (ms / 60000) ++ "m "
         ++ numberToString ((ms / 1000) mod 60) ++ "s")%string)
  /\ (3600000 <= ms < 86400000 ->
      formatUptime (Some ms)
      = (numberToString (ms / 3600000) ++ "h "
         ++ numberToString ((ms / 60000) mod 60) ++ "m")%string)
  /\ (86400000 <= ms ->
      formatUptime (Some ms)
      = (numberToString (ms / 86400000) ++ "d "
         ++ numberToString ((ms / 3600000) mod 24) ++ "h")%string)
  /\ formatUptime None = "NaNs".
Proof.
  destruct (uptime_div_div ms) as [Hm [Hh Hd]].
  unfold formatUptime. cbv zeta. rewrite Hd, Hh, Hm.
  assert (Hdays : ms / 86400000 > 0 <-> 86400000 <= ms).
  { split; intros Hx.
    - destruct (Z_lt_le_dec ms 86400000) as [Hlt|]; [|assumption].
      assert (ms / 86400000 < 1) by (apply Z.div_lt_upper_bound; lia). lia.
    - assert (1 <= ms / 86400000) by (apply Z.div_le_lower_bound; lia). lia. }
  assert (Hhours : ms / 3600000 > 0 <-> 3600000 <= ms).
  { split; intros Hx.
    - destruct (Z_lt_le_dec ms 3600000) as [Hlt|]; [|assumption].
      assert (ms / 3600000 < 1) by (apply Z.div_lt_upper_bound; lia). lia.
    - assert (1 <= ms / 3600000) by (apply Z.div_le_lower_bound; lia). lia. }
  assert (Hmins : ms / 60000 > 0 <-> 60000 <= ms).
  { split; intros Hx.
    - destruct (Z_lt_le_dec ms 60000) as [Hlt|]; [|assumption].
      assert (ms / 60000 < 1) by (apply Z.div_lt_upper_bound; lia). lia.
    - assert (1 <= ms / 60000) by (apply Z.div_le_lower_bound; lia). lia. }
  split; [|split; [|split; [|split]]].
  - intros Hlt.
    destruct (Z.gtb_spec (ms / 86400000) 0); [lia|].
    destruct (Z.gtb_spec (ms / 3600000) 0); [lia|].
    destruct (Z.gtb_spec (ms / 60000) 0); [lia|]. reflexivity.
  - intros Hrange.
    destruct (Z.gtb_spec (ms / 86400000) 0); [lia|].
    destruct (Z.gtb_spec (ms / 3600000) 0); [lia|].
    destruct (Z.gtb_spec (ms / 60000) 0); [|lia].
    rewrite Z.rem_mod_nonneg; [reflexivity| |lia].
    apply Z.div_pos; lia.
  - intros Hrange.
    destruct (Z.gtb_spec (ms / 86400000) 0); [lia|].
    destruct (Z.gtb_spec (ms / 3600000) 0); [|lia].
    rewrite Z.rem_mod_nonneg; [reflexivity| |lia].
    apply Z.div_pos; lia.
  - intros Hrange.
    destruct (Z.gtb_spec (ms / 86400000) 0); [|lia].
    rewrite Z.rem_mod_nonneg; [reflexivity| |lia].
    apply Z.div_pos; lia.
  - reflexivity.
Qed.

End UptimeDisplay.

(** ** Numerals on the command line *)

Section NumeralOptions.

Context `{Host}.

(** From [2^1024] on an integer is beyond every Number. *)
Lemma toNumber_overflow (n : Z) :
  2 ^ 1024 <= Z.abs n -> Js.toNumber n = Js.Infinite (n <? 0).
Proof.
  intros Hn. unfold Js.toNumber. cbv zeta.
  destruct (Z.ltb_spec (Z.abs n) (2 ^ 53)) as [Hlt|_].
  { exfalso. assert (2 ^ 53 < 2 ^ 1024) by (apply Z.pow_lt_mono_r; lia).
    lia. }
  set (a := Z.abs n) in *.
  assert (Hpos : 0 < 2 ^ 1024) by (apply Z.pow_pos_nonneg; lia).
  assert (Ha : 0 < a) by lia.
  destruct (Z.log2_spec a Ha) as [Hlo Hhi].
  assert (Hlog : 1024 <= Z.log2 a).
  { apply Z.log2_le_pow2; assumption. }
  set (e := Z.log2 a - 52) in *.
  assert (He : 0 <= e) by lia.
  assert (Hsplit : 2 ^ Z.log2 a = 2 ^ 52 * 2 ^ e).
  { rewrite <- Z.pow_add_r by lia. f_equal. lia. }
  assert (Hpe : 0 < 2 ^ e) by (apply Z.pow_pos_nonneg; lia).
  assert (Hq : 2 ^ 52 <= Z.shiftr a e).
  { rewrite Z.shiftr_div_pow2 by exact He.
    apply Z.div_le_lower_bound; [exact Hpe|]. rewrite Z.mul_comm. lia. }
  match goal with
  | |- (if 2 ^ 1024 <=? Z.shiftl ?q' e then _ else _) = _ =>
      assert (Hq' : 2 ^ 52 <= q')
  end.
  { destruct ((_ <? _) || _); lia. }
  match goal with
  | |- (if 2 ^ 1024 <=? ?m then _ else _) = _ =>
      assert (Hm : 2 ^ 1024 <= m)
  end.
  { rewrite Z.shiftl_mul_pow2 by exact He.
    assert (H1024 : 2 ^ 1024 <= 2 ^ Z.log2 a)
      by (apply Z.pow_le_mono_r; lia).
    rewrite Hsplit in H1024.
    eapply Z.le_trans; [exact H1024|].
    apply Z.mul_le_mono_nonneg_r; lia. }
  destruct (Z.leb_spec (2 ^ 1024)
              (Z.shiftl
                 (if (Z.shiftl 1 (e - 1) <? a - Z.shiftl (Z.shiftr a e) e)
                     || ((a - Z.shiftl (Z.shiftr a e) e
                          =? Z.shiftl 1 (e - 1))
                         && Z.odd (Z.shiftr a e))
                  then Z.shiftr a e + 1 else Z.shiftr a e) e))
    as [_|Hbad]; [reflexivity|lia].
Qed.

(** X2. The instance count [startGTR] stores is [parseInt] of the option,
    or 1.  A count given as a decimal numeral, possibly followed by other
    text, is stored as the Number nearest to that integer: the integer
    itself below [2^53], except that 0 becomes 1, and [null] from [2^1024]
    on, where the Number is infinite; a text without leading numeral and
    a missing option give 1.  The stored count is never 0. *)
Theorem start_instances_from_option (name0 script0 : string)
    (options : Options) (existingId : option Z) (w w' : World) (i : Z) :
  storeWritable w = true ->
  startGTR name0 script0 options existingId w = (Started i, w') ->
  exists others r,
    readProcesses w' = (others ++ [r])%list
    /\ instances r <> Some 0
    /\ (forall n rest,
           stopsDigits rest ->
           opt_instances options = Js.VStr (numberToString n ++ rest) ->
           instances r = Js.jsonNumber (Js.orNum (Js.toNumber n) 1)
           /\ (Z.abs n < 2 ^ 53 ->
               instances r = Some (if n =? 0 then 1 else n))
           /\ (2 ^ 1024 <= Z.abs n -> instances r = None))
    /\ (forall s,
           opt_instances options = Js.VStr s ->
           Js.mathInt s = None -> instances r = Some 1)
    /\ (opt_instances options = Js.VUndefined -> instances r = Some 1).
Proof.
  intros Hw Hrun.
  destruct (startGTR_Started _ _ _ _ _ _ _ Hrun)
    as [pid0 [_ [_ [_ [_ [_ [_ [_ [Happ _]]]]]]]]].
  exists (readProcesses w). eexists. split; [exact (Happ Hw)|].
  split; [apply buildProcessInfo_instances|].
  cbn [instances buildProcessInfo]. split; [|split].
  - intros n rest Hrest ->. cbn [Js.parseIntNum].
    rewrite (parseIntString_numeral n rest Hrest).
    split; [reflexivity|]. split.
    + intros Hsmall. rewrite (toNumber_small n Hsmall). unfold Js.orNum.
      destruct (n =? 0); reflexivity.
    + intros Hbig. rewrite (toNumber_overflow n Hbig). reflexivity.
  - intros s -> Hnan. cbn [Js.parseIntNum]. unfold Js.parseIntString.
    now rewrite Hnan.
  - intros ->. reflexivity.
Qed.

(** X3. Every record whose id is a Number can be addressed by the numeral
    of its id: the lookup succeeds, what it returns carries that id, that
    number as pid, or the numeral as name, and it is the record itself
    when no other record does so. *)
Theorem record_found_by_its_id (w : World) (p : ProcessInfo) :
  In p (readProcesses w) ->
  Js.toNumber (id p) = Js.Finite (id p) ->
  let identifier := Js.VStr (numberToString (id p)) in
  (exists q,
      findProcess identifier w = Some q
      /\ In q (readProcesses w)
      /\ (id q = id p \/ name q = numberToString (id p)
          \/ pid q = Some (id p)))
  /\ ((forall r, In r (readProcesses w) ->
                 id r = id p \/ name r = numberToString (id p)
                 \/ pid r = Some (id p) ->
                 r = p) ->
      findProcess identifier w = Some p).
Proof.
  intros Hin Hnum identifier.
  assert (Hparse : Js.parseIntNum identifier = Js.Finite (id p)).
  { subst identifier. cbn [Js.parseIntNum].
    rewrite <- (append_empty_r (numberToString (id p))).
    rewrite (parseIntString_numeral (id p) EmptyString I). exact Hnum. }
  assert (Hmatch : matchesIdentifier identifier p = true).
  { unfold matchesIdentifier. rewrite Hparse. cbn.
    now rewrite Z.eqb_refl. }
  assert (Hcases : forall q, matchesIdentifier identifier q = true ->
            id q = id p \/ name q = numberToString (id p)
            \/ pid q = Some (id p)).
  { intros q Hq. unfold matchesIdentifier in Hq. rewrite Hparse in Hq.
    cbn in Hq. apply orb_true_iff in Hq. destruct Hq as [Hq | Hq].
    - apply orb_true_iff in Hq. destruct Hq as [Hq | Hq].
      + left. lia.
      + right. left. now apply String.eqb_eq in Hq.
    - right. right. destruct (pid q) as [x|]; [|discriminate].
      f_equal. lia. }
  split.
  - destruct (findProcess identifier w) as [q|] eqn:Hfind.
    + exists q. unfold findProcess in Hfind. apply find_some in Hfind.
      destruct Hfind as [Hq Hm]. auto.
    + exfalso. unfold findProcess in Hfind.
      pose proof (find_none _ _ Hfind p Hin). congruence.
  - intros Honly. unfold findProcess.
    revert Hin Honly. generalize (readProcesses w). intros l.
    induction l as [|a l IH]; intros Hin Honly; [contradiction|].
    cbn [find].
    destruct (matchesIdentifier identifier a) eqn:Ha.
    + f_equal. apply Honly; [now left|]. now apply Hcases.
    + destruct Hin as [-> | Hin]; [congruence|].
      apply IH; [assumption|]. intros r Hr. apply Honly. now right.
Qed.

End NumeralOptions.

(** ** The [--env] parser *)

Section SplitFacts.

Variable sep : ascii.

Lemma list_ascii_app (a b : string) :
  list_ascii_of_string (a ++ b)
  = (list_ascii_of_string a ++ list_ascii_of_string b)%list.
Proof.
  induction a as [|c a IH]; cbn; [reflexivity|]. now rewrite IH.
Qed.

(** Without separator there is one piece. *)
Lemma splitChars_none (l cur : list ascii) :
  ~ In sep l ->
  JsString.splitChars sep l cur = [string_of_list_ascii (rev cur ++ l)].
Proof.
  revert cur. induction l as [|c l IH]; intros cur Hno; cbn.
  - now rewrite app_nil_r.
  - destruct (Ascii.eqb c sep) eqn:E.
    + apply Ascii.eqb_eq in E. exfalso. apply Hno. now left.
    + rewrite IH by (intros Hin; apply Hno; now right).
      cbn. now rewrite <- app_assoc.
Qed.

(** The first piece ends at the first separator. *)
Lemma splitChars_first (l1 l2 cur : list ascii) :
  ~ In sep l1 ->
  JsString.splitChars sep (l1 ++ sep :: l2) cur
  = string_of_list_ascii (rev cur ++ l1) :: JsString.splitChars sep l2 [].
Proof.
  revert cur. induction l1 as [|c l1 IH]; intros cur Hno; cbn.
  - rewrite Ascii.eqb_refl, app_nil_r. reflexivity.
  - destruct (Ascii.eqb c sep) eqn:E.
    + apply Ascii.eqb_eq in E. exfalso. apply Hno. now left.
    + rewrite IH by (intros Hin; apply Hno; now right).
      cbn. now rewrite <- app_assoc.
Qed.

(** The last piece starts after the last separator. *)
Lemma splitChars_last (l item cur : list ascii) :
  ~ In sep item ->
  JsString.splitChars sep (l ++ sep :: item) cur
  = (JsString.splitChars sep l cur ++ [string_of_list_ascii item])%list.
Proof.
  intros Hno. revert cur. induction l as [|c l IH]; intros cur; cbn.
  - rewrite Ascii.eqb_refl. now rewrite splitChars_none.
  - destruct (Ascii.eqb c sep); [cbn; f_equal|]; apply IH.
Qed.

Lemma split_none (s : string) :
  noChar sep s -> JsString.split sep s = [s].
Proof.
  intros Hno. unfold JsString.split. rewrite splitChars_none by assumption.
  cbn. now rewrite string_of_list_ascii_of_string.
Qed.

Lemma split_first (a b : string) :
  noChar sep a ->
  JsString.split sep (a ++ String sep b) = a :: JsString.split sep b.
Proof.
  intros Hno. unfold JsString.split. rewrite list_ascii_app. cbn.
  rewrite splitChars_first by assumption.
  cbn. now rewrite string_of_list_ascii_of_string.
Qed.

Lemma split_last (a b : string) :
  noChar sep b ->
  JsString.split sep (a ++ String sep b)
  = (JsString.split sep a ++ [b])%list.
Proof.
  intros Hno. unfold JsString.split. rewrite list_ascii_app. cbn.
  rewrite splitChars_last by assumption.
  now rewrite string_of_list_ascii_of_string.
Qed.

End SplitFacts.

Section EnvFacts.

Lemma envLookup_app_new (key value : string) (env0 : Env) (k : string) :
  existsb (hasKey key) env0 = false ->
  envLookup k (env0 ++ [(key, value)])%list
  = if String.eqb key k then
      match envLookup k env0 with Some v => Some v | None => Some value end
    else envLookup k env0.
Proof.
  intros Hnew. unfold envLookup.
  induction env0 as [|[a b] env0 IH]; cbn in *.
  - destruct (String.eqb key k); reflexivity.
  - apply orb_false_iff in Hnew. destruct Hnew as [Ha Hnew].
    destruct (String.eqb a k) eqn:E; cbn.
    + destruct (String.eqb key k); reflexivity.
    + now apply IH.
Qed.

Lemma envLookup_absent (key : string) (env0 : Env) :
  existsb (hasKey key) env0 = false -> envLookup key env0 = None.
Proof.
  unfold envLookup. induction env0 as [|[a b] env0 IH]; cbn; [reflexivity|].
  intros Hnew. apply orb_false_iff in Hnew. destruct Hnew as [Ha Hnew].
  unfold hasKey in Ha. cbn in Ha. rewrite Ha. now apply IH.
Qed.

Lemma envLookup_insertIndexKey (n : Z) (key value : string) (env0 : Env)
    (k : string) :
  existsb (hasKey key) env0 = false ->
  envLookup k (insertIndexKey n key value env0)
  = if String.eqb key k then Some value else envLookup k env0.
Proof.
  intros Hnew. induction env0 as [|[a b] env0 IH].
  - unfold envLookup. cbn. destruct (String.eqb key k); reflexivity.
  - cbn in Hnew. apply orb_false_iff in Hnew. destruct Hnew as [Ha Hnew].
    unfold hasKey in Ha. cbn in Ha.
    assert (Hhead : envLookup k ((key, value) :: (a, b) :: env0)
                    = if String.eqb key k then Some value
                      else envLookup k ((a, b) :: env0)).
    { unfold envLookup. cbn. destruct (String.eqb key k); reflexivity. }
    cbn [insertIndexKey].
    destruct (arrayIndex a) as [m|]; [|exact Hhead].
    destruct (m <? n); [|exact Hhead].
    specialize (IH Hnew). unfold envLookup in *. cbn.
    destruct (String.eqb a k) eqn:E; cbn.
    + apply String.eqb_eq in E. subst k. now rewrite String.eqb_sym, Ha.
    + exact IH.
Qed.

Lemma envLookup_replace (key value : string) (env0 : Env) (k : string) :
  existsb (hasKey key) env0 = true ->
  envLookup k
    (map (fun kv => if String.eqb (fst kv) key then (key, value) else kv) env0)
  = if String.eqb key k then Some value else envLookup k env0.
Proof.
  unfold envLookup. intros Hex.
  destruct (String.eqb key k) eqn:Ek.
  - apply String.eqb_eq in Ek. subst k.
    induction env0 as [|[a b] env0 IH]; cbn in *; [discriminate|].
    unfold hasKey at 1 in Hex. cbn in Hex.
    destruct (String.eqb a key) eqn:Ea; cbn.
    + now rewrite String.eqb_refl.
    + rewrite Ea. now apply IH.
  - clear Hex. induction env0 as [|[a b] env0 IH]; cbn; [reflexivity|].
    destruct (String.eqb a key) eqn:Ea; cbn.
    + rewrite Ek. apply String.eqb_eq in Ea. subst a. rewrite Ek. exact IH.
    + destruct (String.eqb a k); [reflexivity|exact IH].
Qed.

(** Reading a property after an assignment. *)
Lemma envLookup_envAssign (key value : string) (env0 : Env) (k : string) :
  key <> "__proto__" ->
  envLookup k (envAssign key value env0)
  = if String.eqb key k then Some value else envLookup k env0.
Proof.
  intros Hproto. unfold envAssign.
  replace (String.eqb key "__proto__") with false
    by (symmetry; now apply String.eqb_neq).
  fold (hasKey key).
  destruct (existsb (hasKey key) env0) eqn:Hex.
  - now apply envLookup_replace.
  - destruct (arrayIndex key) as [n|].
    + now apply envLookup_insertIndexKey.
    + rewrite envLookup_app_new by assumption.
      destruct (String.eqb key k) eqn:E; [|reflexivity].
      apply String.eqb_eq in E. subst k.
      now rewrite envLookup_absent.
Qed.

End EnvFacts.

Section EnvOption.

Lemma parseEnv_snoc (val item : string) :
  noChar "," item ->
  parseEnv (val ++ String "," item) = parseEnvItem (parseEnv val) item.
Proof.
  intros Hno. unfold parseEnv. rewrite split_last by assumption.
  now rewrite fold_left_app.
Qed.

Lemma parseEnv_single (item : string) :
  noChar "," item -> parseEnv item = parseEnvItem [] item.
Proof.
  intros Hno. unfold parseEnv. now rewrite split_none.
Qed.

(** An item [K=V...]: the key is the text before the first [=], the value
    the text between the first [=] and the second one (or the end). *)
Lemma parseEnvItem_assignment (env0 : Env) (key value more : string) :
  noChar "=" key -> noChar "=" value -> key <> "" ->
  parseEnvItem env0 (key ++ String "=" value)
  = envAssign (JsString.trim key) (JsString.trim value) env0
  /\ parseEnvItem env0 (key ++ String "=" (value ++ String "=" more))
     = envAssign (JsString.trim key) (JsString.trim value) env0.
Proof.
  intros Hk Hv Hne.
  assert (Hkey : String.eqb key "" = false) by now apply String.eqb_neq.
  unfold parseEnvItem. split.
  - rewrite split_first, split_none by assumption. now rewrite Hkey.
  - rewrite split_first by assumption. rewrite split_first by assumption.
    now rewrite Hkey.
Qed.

Lemma noChar_app (c : ascii) (a b : string) :
  noChar c a -> noChar c b -> noChar c (a ++ b).
Proof.
  unfold noChar. rewrite list_ascii_app, in_app_iff. tauto.
Qed.

Lemma noChar_cons (c d : ascii) (a : string) :
  c <> d -> noChar c a -> noChar c (String d a).
Proof.
  unfold noChar. cbn. intros Hne Ha [Heq | Hin]; [congruence|tauto].
Qed.

(** X4. The [--env] option, item by item: an item [K=V] added at the end sets
    the variable named by the trimmed [K] to the trimmed [V], replacing an
    earlier value, and leaves every other variable as the items before it
    defined it. *)
Theorem env_option_last_assignment_wins (val key value : string) :
  noChar "," key -> noChar "," value ->
  noChar "=" key -> noChar "=" value ->
  key <> "" -> JsString.trim key <> "__proto__" ->
  let item := (key ++ String "=" value)%string in
  envLookup (JsString.trim key) (parseEnv (val ++ String "," item))
  = Some (JsString.trim value)
  /\ envLookup (JsString.trim key) (parseEnv item)
     = Some (JsString.trim value)
  /\ forall k, k <> JsString.trim key ->
               envLookup k (parseEnv (val ++ String "," item))
               = envLookup k (parseEnv val).
Proof.
  intros Hck Hcv Hek Hev Hne Hproto item.
  assert (Hitem : noChar "," item).
  { subst item. apply noChar_app; [assumption|].
    apply noChar_cons; [discriminate|assumption]. }
  rewrite (parseEnv_snoc val item Hitem), (parseEnv_single item Hitem).
  subst item.
  rewrite !(proj1 (parseEnvItem_assignment _ key value "" Hek Hev Hne)).
  rewrite !envLookup_envAssign by assumption.
  rewrite String.eqb_refl. split; [reflexivity|]. split; [reflexivity|].
  intros k Hk. rewrite envLookup_envAssign by assumption.
  replace (String.eqb (JsString.trim key) k) with false; [reflexivity|].
  symmetry. apply String.eqb_neq. congruence.
Qed.

(** X5. Items the parser drops: an item without [=], an item whose key is
    empty, and an assignment to [__proto__] leave the environment as it
    was; of an item with several [=] only the text up to the second one
    counts. *)
Theorem env_option_dropped_items (val : string) :
  (forall item,
      noChar "," item -> noChar "=" item ->
      parseEnv (val ++ String "," item) = parseEnv val)
  /\ (forall value,
         noChar "," value ->
         parseEnv (val ++ String "," (String "=" value)) = parseEnv val)
  /\ (forall key value,
         noChar "," key -> noChar "," value ->
         noChar "=" key -> noChar "=" value ->
         JsString.trim key = "__proto__" ->
         parseEnv (val ++ String "," (key ++ String "=" value))
         = parseEnv val)
  /\ (forall key value more,
         noChar "," key -> noChar "," value -> noChar "," more ->
         noChar "=" key -> noChar "=" value -> key <> "" ->
         parseEnv (val ++ String ","
                     (key ++ String "=" (value ++ String "=" more)))
         = parseEnv (val ++ String "," (key ++ String "=" value))).
Proof.
  split; [|split; [|split]].
  - intros item Hc He. rewrite parseEnv_snoc by assumption.
    unfold parseEnvItem. now rewrite split_none.
  - intros value Hc.
    rewrite parseEnv_snoc
      by (apply noChar_cons; [discriminate|assumption]).
    unfold parseEnvItem.
    change (String "=" value) with ("" ++ String "=" value)%string.
    rewrite split_first by (intros []).
    destruct (JsString.split "=" value); reflexivity.
  - intros key value Hck Hcv Hek Hev Hproto.
    rewrite parseEnv_snoc
      by (apply noChar_app;
          [assumption|apply noChar_cons; [discriminate|assumption]]).
    unfold parseEnvItem.
    rewrite split_first, split_none by assumption.
    destruct (negb (String.eqb key "")); [|reflexivity].
    unfold envAssign. now rewrite Hproto.
  - intros key value more Hck Hcv Hcm Hek Hev Hne.
    rewrite !parseEnv_snoc.
    + destruct (parseEnvItem_assignment (parseEnv val) key value more
                  Hek Hev Hne) as [H1 H2].
      now rewrite H1, H2.
    + apply noChar_app;
        [assumption|apply noChar_cons; [discriminate|assumption]].
    + apply noChar_app; [assumption|].
      apply noChar_cons; [discriminate|].
      apply noChar_app;
        [assumption|apply noChar_cons; [discriminate|assumption]].
Qed.

End EnvOption.

Section EnvKeys.

Lemma hasKey_absent (key : string) (env0 : Env) :
  existsb (hasKey key) env0 = false <-> ~ In key (map fst env0).
Proof.
  induction env0 as [|[a b] env0 IH]; cbn; [tauto|].
  rewrite orb_false_iff, IH. unfold hasKey. cbn.
  rewrite String.eqb_neq. tauto.
Qed.

Lemma keys_insertIndexKey (n : Z) (key value : string) (env0 : Env)
    (k : string) :
  In k (map fst (insertIndexKey n key value env0))
  <-> k = key \/ In k (map fst env0).
Proof.
  induction env0 as [|[a b] env0 IH]; cbn; [intuition congruence|].
  destruct (arrayIndex a) as [m|]; [|cbn; intuition congruence].
  destruct (m <? n); cbn; [|intuition congruence].
  rewrite IH. intuition congruence.
Qed.

Lemma NoDup_insertIndexKey (n : Z) (key value : string) (env0 : Env) :
  ~ In key (map fst env0) -> NoDup (map fst env0) ->
  NoDup (map fst (insertIndexKey n key value env0)).
Proof.
  induction env0 as [|[a b] env0 IH]; intros Hnew Hnd; cbn.
  - constructor; [intros []|constructor].
  - cbn in Hnew, Hnd. inversion Hnd as [|? ? Ha Hnd']; subst.
    assert (Hhead : NoDup (key :: a :: map fst env0))
      by (constructor; [exact Hnew|exact Hnd]).
    destruct (arrayIndex a) as [m|]; [|exact Hhead].
    destruct (m <? n); [|exact Hhead].
    cbn. constructor.
    + rewrite keys_insertIndexKey. intros [-> | Hin]; [|contradiction].
      apply Hnew. now left.
    + apply IH; [|assumption]. intros Hin. apply Hnew. now right.
Qed.

Lemma envAssign_wellFormed (key value : string) (env0 : Env) :
  envWellFormed env0 -> envWellFormed (envAssign key value env0).
Proof.
  intros [Hnd Hproto]. unfold envAssign.
  destruct (String.eqb key "__proto__") eqn:Ep; [now split|].
  apply String.eqb_neq in Ep. fold (hasKey key).
  destruct (existsb (hasKey key) env0) eqn:Hex.
  - assert (Hkeys : map fst
                      (map (fun kv => if String.eqb (fst kv) key
                                      then (key, value) else kv) env0)
                    = map fst env0).
    { rewrite map_map. apply map_ext. intros [a b]. cbn.
      destruct (String.eqb a key) eqn:E; [|reflexivity].
      apply String.eqb_eq in E. now subst. }
    unfold envWellFormed. now rewrite Hkeys.
  - apply hasKey_absent in Hex.
    destruct (arrayIndex key) as [n|].
    + split; [now apply NoDup_insertIndexKey|].
      rewrite keys_insertIndexKey. intros [Heq | Hin]; congruence.
    + split.
      * rewrite map_app. cbn. clear Hproto.
        induction Hnd as [|a l Ha Hnd IH]; cbn.
        -- constructor; [intros []|constructor].
        -- constructor.
           ++ rewrite in_app_iff. cbn. intros [Hin | [Heq | []]];
                [contradiction|]. subst. apply Hex. now left.
           ++ apply IH. intros Hin. apply Hex. now right.
      * rewrite map_app, in_app_iff. cbn. intros [Hin | [Heq | []]];
          congruence.
Qed.

(** X6. Whatever text is given to [--env], the environment parsed from it
    names every variable once and has no [__proto__] entry. *)
Theorem env_option_keys_unique (val : string) :
  NoDup (map fst (parseEnv val)) /\ ~ In "__proto__" (map fst (parseEnv val)).
Proof.
  unfold parseEnv.
  assert (Hgen : forall items env0,
            envWellFormed env0 ->
            envWellFormed (fold_left parseEnvItem items env0)).
  { induction items as [|item items IH]; intros env0 Hwf; [assumption|].
    cbn [fold_left]. apply IH. unfold parseEnvItem.
    destruct (JsString.split "=" item) as [|key [|value rest]];
      try assumption.
    destruct (negb (String.eqb key "")); [|assumption].
    now apply envAssign_wellFormed. }
  apply Hgen. split; [constructor|intros []].
Qed.

End EnvKeys.

(** ** clearlogs *)

Section ClearLogs.

Context `{Host}.



End ClearLogs.

(** ** More on start *)

Section StartMore.

Context `{Host}.

(** X8. The checks of [startGTR] in their order.  A missing script is reported
    first, then an online record of the same name, then a log file that
    cannot be opened, and only then is a process spawned.  A call that ends
    at one of the first three checks leaves the world exactly as it was; a
    call whose spawn throws changes nothing but the count of spawn calls;
    no failing call changes the registry. *)
Theorem startGTR_failure_order (name0 script0 : string) (options : Options)
    (existingId : option Z) (w : World) :
  let r := fst (startGTR name0 script0 options existingId w) in
  let w' := snd (startGTR name0 script0 options existingId w) in
  (r = StartNull ScriptMissing <-> existsSync script0 = false)
  /\ (r = StartNull AlreadyRunning <->
      existsSync script0 = true
      /\ existsb (onlineNamed name0) (readProcesses w) = true)
  /\ (r = StartThrows <->
      existsSync script0 = true
      /\ existsb (onlineNamed name0) (readProcesses w) = false
      /\ (openSync_ok (logFileOf name0) = false
          \/ openSync_ok (errorLogFileOf name0) = false))
  /\ (r = StartNull ScriptMissing \/ r = StartNull AlreadyRunning
      \/ r = StartThrows -> w' = w)
  /\ (r = StartNull SpawnFailed ->
      w' = with_spawnCalls (S (spawnCalls w)) w)
  /\ ((forall i, r <> Started i) -> readProcesses w' = readProcesses w).
Proof.
  cbv zeta. unfold startGTR.
  destruct (existsSync script0) eqn:Hex; cbn [negb fst snd].
  2: { repeat split; try discriminate; try tauto; intuition discriminate. }
  destruct (existsb (onlineNamed name0) (readProcesses w)) eqn:Hon;
    cbn [fst snd].
  1: { repeat split; try discriminate; try tauto; intuition discriminate. }
  destruct (openSync_ok (logFileOf name0)) eqn:Ho1; cbn [negb fst snd].
  2: { repeat split; try discriminate; try tauto; intuition discriminate. }
  destruct (openSync_ok (errorLogFileOf name0)) eqn:Ho2; cbn [negb fst snd].
  2: { repeat split; try discriminate; try tauto; intuition discriminate. }
  destruct (spawn (spawnCalls w) script0) as [|pid0]; cbn [fst snd].
  1: { repeat split; try discriminate; try tauto; intuition discriminate. }
  destruct existingId as [x|].
  - cbn. destruct (writeProcesses _ _) as [b w4] eqn:Hwr. cbn [fst snd].
    repeat split; try discriminate; try tauto;
      try (intuition discriminate).
    intros Hno. exfalso. now apply (Hno x).
  - change (generateId (with_spawnCalls (S (spawnCalls w)) w))
      with (generateId w).
    destruct (generateId_least w) as [g [Hg _]]. rewrite Hg.
    cbn. destruct (writeProcesses _ _) as [b w4] eqn:Hwr. cbn [fst snd].
    repeat split; try discriminate; try tauto;
      try (intuition discriminate).
    intros Hno. exfalso. now apply (Hno g).
Qed.

(** Every integer below a least unused one is in use, so there are at
    least that many ids. *)
Lemma leastUnused_le_length (ids : list Z) (i : Z) :
  leastUnused ids i -> i <= Z.of_nat (List.length ids).
Proof.
  intros [Hpos [_ Hall]].
  assert (Hincl : incl (map Z.of_nat (seq 0 (Z.to_nat i))) ids).
  { intros j Hj. apply in_map_iff in Hj. destruct Hj as [k [<- Hk]].
    apply in_seq in Hk. apply Hall. lia. }
  assert (Hnd : NoDup (map Z.of_nat (seq 0 (Z.to_nat i)))).
  { apply Injective_map_NoDup; [|apply seq_NoDup].
    intros a b Hab. lia. }
  pose proof (NoDup_incl_length Hnd Hincl) as Hlen.
  rewrite length_map, length_seq in Hlen. lia.
Qed.

(** X9. Ids stay small: a fresh start gets an id between 0 and the number of
    records in the registry, 0 on an empty registry, and exactly the
    number of records when the ids in use are pairwise distinct and all
    below that number. *)
Theorem fresh_id_bounded_by_count (name0 script0 : string)
    (options : Options) (w w' : World) (i : Z) :
  startGTR name0 script0 options None w = (Started i, w') ->
  0 <= i <= Z.of_nat (List.length (readProcesses w))
  /\ (readProcesses w = [] -> i = 0)
  /\ (NoDup (idsOf w) ->
      (forall j, In j (idsOf w) ->
                 0 <= j < Z.of_nat (List.length (readProcesses w))) ->
      i = Z.of_nat (List.length (readProcesses w))).
Proof.
  intros Hrun.
  pose proof (fresh_start_least _ _ _ _ _ _ Hrun) as Hleast.
  pose proof (leastUnused_le_length _ _ Hleast) as Hle.
  unfold idsOf in Hle. rewrite length_map in Hle.
  destruct Hleast as [Hpos [Hfree Hall]].
  split; [lia|]. split.
  - intros Hempty. rewrite Hempty in Hle. cbn in Hle. lia.
  - intros Hnd Hrange.
    destruct (Z.eq_dec i (Z.of_nat (List.length (readProcesses w))))
      as [Heq | Hne]; [assumption|]. exfalso.
    set (n := List.length (readProcesses w)) in *.
    assert (Hincl : incl (idsOf w) (map Z.of_nat (seq 0 n))).
    { intros j Hj. apply in_map_iff. exists (Z.to_nat j).
      specialize (Hrange j Hj). split; [lia|]. apply in_seq. lia. }
    assert (Hlen : (List.length (map Z.of_nat (seq 0 n))
                    <= List.length (idsOf w))%nat)
      by (unfold idsOf; rewrite !length_map, length_seq; subst n; lia).
    pose proof (NoDup_length_incl Hnd Hlen Hincl) as Hback.
    apply Hfree. apply Hback. apply in_map_iff. exists (Z.to_nat i).
    split; [lia|]. apply in_seq. lia.
Qed.

(** X10. resurrect only appends: the registry it found is a prefix of the
    registry it leaves, every record it adds is online with a restart
    count of 0 and carries the name of a snapshot entry whose script
    exists, and the snapshot itself is untouched. *)
Theorem resurrect_only_appends (w : World) :
  exists news,
    readProcesses (snd (resurrect w)) = (readProcesses w ++ news)%list
    /\ (forall r, In r news ->
          status r = online /\ restarts r = 0
          /\ exists saved e, ecosystemFile w = Some saved /\ In e saved
                             /\ existsSync (script e) = true
                             /\ name r = name e)
    /\ ecosystemFile (snd (resurrect w)) = ecosystemFile w.
Proof.
  unfold resurrect. destruct (ecosystemFile w) as [saved|] eqn:Heco.
  2: { exists []. rewrite app_nil_r.
       split; [reflexivity|]. split; [intros r []|exact Heco]. }
  destruct (List.length saved =? 0)%nat.
  1: { exists []. rewrite app_nil_r.
       split; [reflexivity|]. split; [intros r []|exact Heco]. }
  assert (Hgen : forall entries w0,
            exists news,
              readProcesses (snd (resurrectEach entries w0))
              = (readProcesses w0 ++ news)%list
              /\ (forall r, In r news ->
                    status r = online /\ restarts r = 0
                    /\ exists e, In e entries
                                 /\ existsSync (script e) = true
                                 /\ name r = name e)
              /\ ecosystemFile (snd (resurrectEach entries w0))
                 = ecosystemFile w0).
  { induction entries as [|e rest IH]; intros w0.
    - exists []. cbn. rewrite app_nil_r.
      split; [reflexivity|]. split; [intros r []|reflexivity].
    - cbn [resurrectEach]. destruct (existsSync (script e)) eqn:Hex.
      + pose proof (startGTR_registry (name e) (script e)
                      (resurrectOptions e) None w0) as Hreg.
        assert (Heco0 : ecosystemFile
                          (snd (startGTR (name e) (script e)
                                  (resurrectOptions e) None w0))
                        = ecosystemFile w0).
        { unfold startGTR.
          repeat match goal with
                 | |- context [if ?b then _ else _] => destruct b
                 | |- context [match spawn ?a ?b with _ => _ end] =>
                     destruct (spawn a b)
                 | |- context [match generateId ?a with _ => _ end] =>
                     destruct (generateId a)
                 end; cbn; try reflexivity;
            unfold writeProcesses; cbn;
            destruct (storeWritable w0); reflexivity. }
        destruct (startGTR (name e) (script e) (resurrectOptions e) None w0)
          as [r w1]. cbn [snd] in Hreg, Heco0.
        destruct (IH w1) as [news [Hread [Hnews Heco1]]].
        assert (Hfirst : exists first,
                  readProcesses w1 = (readProcesses w0 ++ first)%list
                  /\ forall q, In q first ->
                       status q = online /\ restarts q = 0
                       /\ name q = name e).
        { destruct Hreg as [Hsame | [i [pid0 [c [u [_ [_ Happ]]]]]]].
          - exists []. rewrite app_nil_r. split; [assumption|intros q []].
          - eexists [_]. split; [exact Happ|].
            intros q [<- | []]. cbn. auto. }
        destruct Hfirst as [first [Hread1 Hfirst]].
        destruct (resurrectEach rest w1) as [items w2]. cbn [snd] in *.
        destruct r; cbn [snd].
        * exists (first ++ news)%list. rewrite Hread, Hread1, app_assoc.
          split; [reflexivity|]. split; [|congruence].
          intros q Hq. apply in_app_iff in Hq. destruct Hq as [Hq | Hq].
          -- destruct (Hfirst q Hq) as [Hs [Hr Hn]].
             split; [assumption|]. split; [assumption|].
             exists e. split; [now left|]. auto.
          -- destruct (Hnews q Hq) as [Hs [Hr [e' [He' Hrest]]]].
             split; [assumption|]. split; [assumption|].
             exists e'. split; [now right|assumption].
        * exists first. split; [assumption|]. split; [|assumption].
          intros q Hq. destruct (Hfirst q Hq) as [Hs [Hr Hn]].
          split; [assumption|]. split; [assumption|].
          exists e. split; [now left|]. auto.
        * exists first. split; [assumption|]. split; [|assumption].
          intros q Hq. destruct (Hfirst q Hq) as [Hs [Hr Hn]].
          split; [assumption|]. split; [assumption|].
          exists e. split; [now left|]. auto.
        * exists (first ++ news)%list. rewrite Hread, Hread1, app_assoc.
          split; [reflexivity|]. split; [|congruence].
          intros q Hq. apply in_app_iff in Hq. destruct Hq as [Hq | Hq].
          -- destruct (Hfirst q Hq) as [Hs [Hr Hn]].
             split; [assumption|]. split; [assumption|].
             exists e. split; [now left|]. auto.
          -- destruct (Hnews q Hq) as [Hs [Hr [e' [He' Hrest]]]].
             split; [assumption|]. split; [assumption|].
             exists e'. split; [now right|assumption].
      + destruct (IH w0) as [news [Hread [Hnews Heco1]]].
        destruct (resurrectEach rest w0) as [items w2]. cbn [snd] in *.
        exists news. split; [assumption|]. split; [|assumption].
        intros q Hq. destruct (Hnews q Hq) as [Hs [Hr [e' [He' Hrest]]]].
        split; [assumption|]. split; [assumption|].
        exists e'. split; [now right|assumption]. }
  destruct (Hgen saved w) as [news [Hread [Hnews Heco1]]].
  destruct (resurrectEach saved w) as [items w1]. cbn [snd] in *.
  exists news. split; [assumption|]. split; [|congruence].
  intros r Hr. destruct (Hnews r Hr) as [Hs [Hrs [e [He [Hex Hname]]]]].
  split; [assumption|]. split; [assumption|].
  exists saved, e. auto.
Qed.

End StartMore.

(** ** More on stop, delete and restart *)

Section StopDeleteMore.

Context `{Host}.


(** With pairwise distinct ids, the records around the first one with a
    given id all have another id. *)
Lemma NoDup_ids_split (l1 l2 : list ProcessInfo) (x : ProcessInfo) :
  NoDup (map id (l1 ++ x :: l2)) ->
  forall q, In q (l1 ++ l2) -> id q <> id x.
Proof.
  rewrite map_app. cbn. intros Hnd q Hq Heq.
  apply NoDup_remove_2 in Hnd. apply Hnd. rewrite <- Heq, <- map_app.
  now apply in_map.
Qed.

Lemma NoDup_ids_same (l : list ProcessInfo) (a b : ProcessInfo) :
  NoDup (map id l) -> In a l -> In b l -> id a = id b -> a = b.
Proof.
  induction l as [|c l IH]; intros Hnd Ha Hb Heq; [contradiction|].
  cbn in Hnd. inversion Hnd as [|? ? Hc Hnd']; subst.
  destruct Ha as [-> | Ha], Hb as [-> | Hb]; auto.
  - exfalso. apply Hc. rewrite Heq. now apply in_map.
  - exfalso. apply Hc. rewrite <- Heq. now apply in_map.
Qed.



(** X12. [stopGTR] writes back what it read: the status [stopping] never
    reaches the registry file.  When the termination request reports an
    error the forceful one is scheduled, and when that reports an error
    too nothing is written, so the registry is the one before the stop.
    A termination that is confirmed after the record has gone does not
    bring it back. *)
Theorem stop_persists_nothing (identifier : Js.Value) (w : World) :
  let w1 := snd (fst (fst (stopGTR identifier w))) in
  readProcesses w1 = readProcesses w
  /\ (forall p1,
        In (KillDone p1) (snd (fst (stopGTR identifier w))) ->
        status p1 = stopping /\ pidTruthy p1 = true
        /\ onKillDone p1 true w1 = (w1, [KillForceDone p1])
        /\ readProcesses (onKillForceDone p1 true w1) = readProcesses w)
  /\ (forall p1 w2,
        (forall q, In q (readProcesses w2) -> id q <> id p1) ->
        onKillDone p1 false w2 = (w2, [])
        /\ onKillForceDone p1 false w2 = w2).
Proof.
  cbv zeta. split; [apply stopGTR_registry|]. split.
  - intros p1 Hin.
    assert (Hshape : status p1 = stopping /\ pidTruthy p1 = true).
    { revert Hin. unfold stopGTR.
      destruct (findProcess identifier w) as [p|]; [|intros []].
      unfold newDate. cbv beta iota zeta.
      destruct (writeProcesses (readProcesses w) _) as [b w2].
      destruct (pidTruthy _) eqn:Hpid.
      - cbn [fst snd In]. intros [Heq | []]. inversion Heq; subst p1.
        split; [reflexivity|assumption].
      - destruct (writeProcesses (readProcesses w) w2) as [b3 w3].
        intros []. }
    destruct Hshape as [Hst Hpid].
    split; [assumption|]. split; [assumption|].
    split; [reflexivity|].
    unfold onKillForceDone. apply stopGTR_registry.
  - intros p1 w2 Hgone.
    assert (Hmark : markStopped p1 w2 = w2).
    { unfold markStopped.
      destruct (Js.findIndex (sameId p1) (readProcesses w2)) as [ix|] eqn:Hix;
        [|reflexivity].
      destruct (findIndex_Some _ _ _ _ Hix)
        as [l1 [x [l2 [Hl [_ [Hx _]]]]]].
      exfalso. apply (Hgone x).
      - rewrite Hl. apply in_app_iff. right. now left.
      - unfold sameId in Hx. lia. }
    unfold onKillDone, onKillForceDone. now rewrite Hmark.
Qed.

(** X13. delete without a stop (asked for with [--no-stop], or because the
    record is not online) removes the first record that carries the
    matched record's id, at once and without any termination request; the
    other records keep their order.  With pairwise distinct ids the record
    removed is the matched one and no record with its id is left. *)
Theorem delete_now_removes_record (identifier : Js.Value) (stop : bool)
    (w : World) (p : ProcessInfo) :
  storeWritable w = true ->
  findProcess identifier w = Some p ->
  stop = false \/ status p <> online ->
  exists l1 x l2,
    readProcesses w = (l1 ++ x :: l2)%list
    /\ id x = id p
    /\ (forall y, In y l1 -> id y <> id p)
    /\ delete identifier stop w
       = (Deleted, with_processFile (l1 ++ l2)%list w, [])
    /\ (NoDup (idsOf w) ->
        x = p /\ forall q, In q (l1 ++ l2)%list -> id q <> id p).
Proof.
  intros Hw Hfind Hnow. unfold delete. rewrite Hfind.
  assert (Hbranch : stop && Status_eqb (status p) online = false).
  { destruct Hnow as [-> | Hs]; [reflexivity|].
    destruct (status p); try congruence; now rewrite andb_false_r. }
  rewrite Hbranch.
  assert (Hin : In p (readProcesses w))
    by (unfold findProcess in Hfind; apply find_some in Hfind; tauto).
  destruct (Js.findIndex (sameId p) (readProcesses w)) as [ix|] eqn:Hix.
  - destruct (findIndex_Some _ _ _ _ Hix)
      as [l1 [x [l2 [Hl [_ [Hx [Hbefore Hsp]]]]]]].
    exists l1, x, l2. rewrite Hsp. unfold sameId in Hx.
    split; [assumption|]. split; [lia|]. split.
    + intros y Hy. specialize (Hbefore y Hy). unfold sameId in Hbefore. lia.
    + split; [unfold writeProcesses; now rewrite Hw|].
      intros Hnd. unfold idsOf in Hnd. split.
      * apply (NoDup_ids_same (readProcesses w)); auto; [|lia].
        rewrite Hl. apply in_app_iff. right. now left.
      * rewrite Hl in Hnd. intros q Hq.
        replace (id p) with (id x) by lia.
        now apply (NoDup_ids_split l1 l2 x).
  - pose proof (findIndex_None _ _ _ Hix p Hin) as Hp.
    unfold sameId in Hp. lia.
Qed.


(** X15. A restart whose start fails loses the application.  When the timer
    fires and the script has gone, or another record of the same name is
    online, the old record has already been removed and no new one is
    written; when no record with the captured id is left, the callback
    reports the loss and changes nothing. *)
Theorem restart_failed_start_drops_record (x y : ProcessInfo) (w : World)
    (l1 l2 : list ProcessInfo) :
  storeWritable w = true ->
  readProcesses w = (l1 ++ y :: l2)%list ->
  id y = id x ->
  (forall z, In z l1 -> id z <> id x) ->
  (existsSync (script x) = false ->
   onRestartTimeout x w
   = (Restarted (StartNull ScriptMissing),
      with_processFile (l1 ++ l2)%list w))
  /\ (existsSync (script x) = true ->
      existsb (onlineNamed (name x)) (l1 ++ l2)%list = true ->
      onRestartTimeout x w
      = (Restarted (StartNull AlreadyRunning),
         with_processFile (l1 ++ l2)%list w))
  /\ (forall w0,
        find (sameId x) (readProcesses w0) = None ->
        onRestartTimeout x w0 = (RestartLost, w0)).
Proof.
  intros Hw Hl Hy Hb.
  rewrite (onRestartTimeout_present x w l1 l2 y Hw Hl Hy Hb).
  split; [|split].
  - intros Hex. unfold startGTR. now rewrite Hex.
  - intros Hex Hon.
    rewrite (startGTR_online_name (name x) (script x) (restartOptions x)
               (Some (id x)) (with_processFile (l1 ++ l2)%list w) Hon).
    now rewrite Hex.
  - intros w0 Hnone. unfold onRestartTimeout. now rewrite Hnone.
Qed.

End StopDeleteMore.

(** ** One online record per name *)

Section SubseqFacts.

Variable A : Type.

Lemma Subseq_refl (l : list A) : Subseq l l.
Proof.
  induction l; constructor; assumption.
Qed.

Lemma Subseq_In (l l' : list A) (x : A) : Subseq l l' -> In x l -> In x l'.
Proof.
  induction 1; cbn; intuition.
Qed.

Lemma Subseq_NoDup (l l' : list A) : Subseq l l' -> NoDup l' -> NoDup l.
Proof.
  induction 1 as [|x l l' Hs IH|x l l' Hs IH]; intros Hnd;
    [assumption| |]; inversion Hnd; subst; auto.
  constructor; auto. intros Hin. eauto using Subseq_In.
Qed.

Lemma Subseq_splice1 (i : nat) (l : list A) : Subseq (Js.splice1 i l) l.
Proof.
  revert i. induction l as [|a l IH]; intros [|i]; cbn.
  - constructor.
  - constructor.
  - apply Subseq_skip, Subseq_refl.
  - apply Subseq_keep, IH.
Qed.

Lemma Subseq_removelast (l : list A) : Subseq (removelast l) l.
Proof.
  induction l as [|a l IH]; [constructor|].
  destruct l as [|b l]; [repeat constructor|].
  change (removelast (a :: b :: l)) with (a :: removelast (b :: l)).
  now constructor.
Qed.

Lemma Subseq_filter (f : A -> bool) (l : list A) : Subseq (filter f l) l.
Proof.
  induction l as [|a l IH]; cbn; [constructor|].
  destruct (f a); now constructor.
Qed.

Lemma Subseq_filter_mono (f : A -> bool) (l l' : list A) :
  Subseq l l' -> Subseq (filter f l) (filter f l').
Proof.
  induction 1 as [|x l l' Hs IH|x l l' Hs IH]; cbn; [constructor| |];
    destruct (f x); try constructor; assumption.
Qed.

Lemma Subseq_map (B : Type) (g : A -> B) (l l' : list A) :
  Subseq l l' -> Subseq (map g l) (map g l').
Proof.
  induction 1; cbn; constructor; assumption.
Qed.

End SubseqFacts.

Section OnlineNames.

Context `{Host}.

Lemma onlineNames_Subseq (l l' : list ProcessInfo) :
  Subseq l l' -> Subseq (onlineNames l) (onlineNames l').
Proof.
  intros Hs. unfold onlineNames. apply Subseq_map.
  now apply Subseq_filter_mono.
Qed.

(** An update that keeps the name and does not turn a record online can
    only take names out of the list. *)
Lemma onlineNames_updateAt (f : ProcessInfo -> ProcessInfo) (i : nat)
    (l : list ProcessInfo) :
  (forall p, name (f p) = name p) ->
  (forall p, isOnline (f p) = true -> isOnline p = true) ->
  Subseq (onlineNames (Js.updateAt i f l)) (onlineNames l).
Proof.
  intros Hname Hdown. unfold onlineNames. revert i.
  induction l as [|a l IH]; intros [|i]; cbn; try apply Subseq_nil.
  - destruct (isOnline (f a)) eqn:E.
    + rewrite (Hdown a E). cbn. rewrite Hname.
      apply Subseq_keep, Subseq_refl.
    + destruct (isOnline a); cbn; [apply Subseq_skip|]; apply Subseq_refl.
  - destruct (isOnline a); cbn; [apply Subseq_keep|]; apply IH.
Qed.

Lemma onlineNamed_absent (n : string) (l : list ProcessInfo) :
  existsb (onlineNamed n) l = false -> ~ In n (onlineNames l).
Proof.
  unfold onlineNames. induction l as [|a l IH]; cbn; [tauto|].
  intros Hno. apply orb_false_iff in Hno. destruct Hno as [Ha Hno].
  unfold onlineNamed in Ha. unfold isOnline at 1.
  destruct (Status_eqb (status a) online); cbn.
  - rewrite andb_true_r in Ha. apply String.eqb_neq in Ha.
    intros [Heq | Hin]; [congruence|]. now apply IH.
  - now apply IH.
Qed.

Lemma onlineNames_app (l1 l2 : list ProcessInfo) :
  onlineNames (l1 ++ l2) = (onlineNames l1 ++ onlineNames l2)%list.
Proof.
  unfold onlineNames. now rewrite filter_app, map_app.
Qed.

Lemma NoDup_snoc (A : Type) (l : list A) (x : A) :
  NoDup l -> ~ In x l -> NoDup (l ++ [x]).
Proof.
  intros Hnd Hx. induction Hnd as [|a l Ha Hnd IH]; cbn.
  - constructor; [intros []|constructor].
  - constructor.
    + rewrite in_app_iff. intros [Hin | [Heq | []]]; [contradiction|].
      subst. apply Hx. now left.
    + apply IH. intros Hin. apply Hx. now right.
Qed.

Lemma names_write (ps : list ProcessInfo) (w : World) :
  namesUnique ps -> namesUnique (readProcesses w) ->
  namesUnique (readProcesses (snd (writeProcesses ps w))).
Proof.
  unfold writeProcesses. destruct (storeWritable w); auto.
Qed.

Lemma names_Subseq (l l' : list ProcessInfo) :
  Subseq l l' -> namesUnique l' -> namesUnique l.
Proof.
  intros Hs. apply Subseq_NoDup. now apply onlineNames_Subseq.
Qed.

Lemma names_startGTR (name0 script0 : string) (options : Options)
    (existingId : option Z) (w : World) :
  namesUnique (readProcesses w) ->
  namesUnique
    (readProcesses (snd (startGTR name0 script0 options existingId w))).
Proof.
  intros Hinv. unfold startGTR.
  destruct (existsSync script0); cbn [negb]; [|assumption].
  destruct (existsb (onlineNamed name0) (readProcesses w)) eqn:Hon;
    [assumption|].
  destruct (openSync_ok (logFileOf name0)); cbn [negb]; [|assumption].
  destruct (openSync_ok (errorLogFileOf name0)); cbn [negb]; [|assumption].
  destruct (spawn (spawnCalls w) script0) as [|pid0]; [assumption|].
  assert (Hnew : forall i c u,
            namesUnique
              (readProcesses w
                 ++ [buildProcessInfo i name0 pid0 script0 options
                       existingId c u])).
  { intros i c u. unfold namesUnique. rewrite onlineNames_app. cbn.
    apply NoDup_snoc; [assumption|]. now apply onlineNamed_absent. }
  destruct existingId as [x|].
  - cbn. unfold writeProcesses. cbn.
    destruct (storeWritable w); cbn; [apply Hnew|assumption].
  - change (generateId (with_spawnCalls (S (spawnCalls w)) w))
      with (generateId w).
    destruct (generateId w) as [g|]; [|assumption].
    cbn. unfold writeProcesses. cbn.
    destruct (storeWritable w); cbn; [apply Hnew|assumption].
Qed.

Lemma names_markStopped (process : ProcessInfo) (w : World) :
  namesUnique (readProcesses w) ->
  namesUnique (readProcesses (markStopped process w)).
Proof.
  intros Hinv. unfold markStopped.
  destruct (Js.findIndex (sameId process) (readProcesses w)); [|assumption].
  cbn. apply names_write; [|assumption].
  unfold namesUnique.
  eapply Subseq_NoDup; [|exact Hinv].
  apply onlineNames_updateAt; [reflexivity|]. intros p. cbn. discriminate.
Qed.

Lemma names_resurrectEach (saved : list ProcessInfo) :
  forall w : World,
    namesUnique (readProcesses w) ->
    namesUnique (readProcesses (snd (resurrectEach saved w))).
Proof.
  induction saved as [|e rest IH]; intros w Hinv; [assumption|].
  cbn [resurrectEach].
  destruct (existsSync (script e)).
  - pose proof (names_startGTR (name e) (script e) (resurrectOptions e) None
                  w Hinv) as Hinv1.
    destruct (startGTR (name e) (script e) (resurrectOptions e) None w)
      as [r w1]. cbn [snd] in Hinv1.
    specialize (IH w1 Hinv1).
    destruct (resurrectEach rest w1) as [items w2].
    destruct r; assumption.
  - specialize (IH w Hinv).
    destruct (resurrectEach rest w) as [items w2]. assumption.
Qed.

Lemma names_livenessCallback (i : nat) (a : Answers) (m : Poll) (w : World) :
  namesUnique (polled m) ->
  namesUnique (polled (fst (livenessCallback i a m w))).
Proof.
  intros Hinv. unfold livenessCallback, stopInMemory, usageCallback, newDate.
  assert (Hstop : forall t,
            namesUnique
              (Js.updateAt i
                 (fun p => set_updatedAt t (set_status stopped p))
                 (polled m))).
  { intros t. unfold namesUnique. eapply Subseq_NoDup; [|exact Hinv].
    apply onlineNames_updateAt; [reflexivity|]. intros p. cbn.
    discriminate. }
  destruct (nth_error (polled m) i) as [process|]; [|assumption].
  destruct (reportsDead (liveness a)).
  - destruct (negb (Status_eqb (status process) stopped)); [|assumption].
    cbn. apply Hstop.
  - destruct (Status_eqb (status process) stopping).
    + destruct (_ >? 30000); [|assumption]. cbn. apply Hstop.
    + destruct (usage a) as [|error stdout]; [assumption|].
      destruct (negb error && negb (String.eqb stdout "")); [|assumption].
      destruct (1 <? _)%nat; [|assumption].
      cbn. unfold namesUnique. eapply Subseq_NoDup; [|exact Hinv].
      apply onlineNames_updateAt; [reflexivity|]. intros p. cbn. auto.
Qed.

Lemma names_monitorLoop (answers : nat -> Answers) :
  forall (count k : nat) (m : Poll) (w : World),
    namesUnique (polled m) ->
    namesUnique (polled (fst (monitorLoop answers count k m w))).
Proof.
  induction count as [|count IH]; intros k m w Hinv; [assumption|].
  cbn [monitorLoop].
  destruct (nth_error (polled m) k) as [process|]; [|now apply IH].
  destruct (isPolled process); [|now apply IH].
  destruct (liveness (answers k)) eqn:Hl; [|now apply IH].
  pose proof (names_livenessCallback k (answers k) m w Hinv) as Hinv1.
  destruct (livenessCallback k (answers k) m w) as [m1 w1].
  now apply IH.
Qed.

Lemma names_Step (w w' : World) :
  Step w w' ->
  namesUnique (readProcesses w) -> namesUnique (readProcesses w').
Proof.
  intros Hstep Hinv. destruct Hstep.
  - now apply names_startGTR.
  - now rewrite stopGTR_registry.
  - unfold onKillDone. destruct error; [assumption|].
    now apply names_markStopped.
  - unfold onKillForceDone. destruct error; [assumption|].
    now apply names_markStopped.
  - unfold restart. destruct (findProcess identifier w) as [p|]; [|assumption].
    pose proof (stopGTR_registry (Js.VNum (id p)) w) as Hst.
    destruct (stopGTR (Js.VNum (id p)) w) as [[[b w1] tasks] o].
    cbn in *. now rewrite Hst.
  - unfold onRestartTimeout.
    destruct (find (sameId process) (readProcesses w)); [|assumption].
    assert (Hw1 : namesUnique
                    (readProcesses
                       match Js.findIndex (sameId process) (readProcesses w)
                       with
                       | Some processIndex =>
                           snd (writeProcesses
                                  (Js.splice1 processIndex (readProcesses w))
                                  w)
                       | None => w
                       end)).
    { destruct (Js.findIndex (sameId process) (readProcesses w));
        [|assumption].
      apply names_write; [|assumption].
      eapply names_Subseq; [apply Subseq_splice1|assumption]. }
    pose proof (names_startGTR (name process) (script process)
                  (restartOptions process) (Some (id process)) _ Hw1) as Hst.
    destruct (startGTR _ _ _ _ _) as [r w2]. exact Hst.
  - unfold delete. destruct (findProcess identifier w) as [p|]; [|assumption].
    destruct (stop && Status_eqb (status p) online).
    + pose proof (stopGTR_registry (Js.VNum (id p)) w) as Hst.
      destruct (stopGTR (Js.VNum (id p)) w) as [[[b w1] tasks] o].
      cbn in *. now rewrite Hst.
    + cbn. apply names_write; [|assumption].
      destruct (Js.findIndex (sameId p) (readProcesses w));
        (eapply names_Subseq; [|eassumption]);
        [apply Subseq_splice1|apply Subseq_removelast].
  - unfold onDeleteTimeout.
    destruct (Js.findIndex (sameId process) (readProcesses w));
      [|assumption].
    apply names_write; [|assumption].
    eapply names_Subseq; [apply Subseq_splice1|assumption].
  - unfold save. destruct (storeWritable w); assumption.
  - unfold resurrect. destruct (ecosystemFile w) as [saved|]; [|assumption].
    destruct (List.length saved =? 0)%nat; [assumption|].
    pose proof (names_resurrectEach saved w Hinv) as Hr.
    destruct (resurrectEach saved w) as [items w1]. assumption.
  - unfold prune.
    destruct (List.length (filter isOnline (readProcesses w))
              =? List.length (readProcesses w))%nat; [assumption|].
    cbn [snd]. apply names_write; [|assumption].
    eapply names_Subseq; [apply Subseq_filter|assumption].
  - unfold monitorProcesses.
    pose proof (names_monitorLoop answers (List.length (readProcesses w)) 0
                  (mkPoll (readProcesses w) false) w Hinv) as Hm.
    destruct (monitorLoop_file answers (List.length (readProcesses w)) 0
                (mkPoll (readProcesses w) false) w) as [Hf _].
    destruct (monitorLoop answers _ 0 _ w) as [m w1]. cbn [fst snd] in *.
    assert (Hw1 : namesUnique (readProcesses w1))
      by (unfold readProcesses; now rewrite Hf).
    destruct (updated m); cbn [snd]; [|assumption].
    now apply names_write.
Qed.

(** X16. In every world the program reaches from an empty registry, no two
    online records have the same name: whatever commands and callbacks
    have run, an application name identifies at most one online record. *)
Theorem reachable_online_names_unique (w : World) :
  Reachable w ->
  NoDup (onlineNames (readProcesses w))
  /\ forall p q, In p (readProcesses w) -> In q (readProcesses w) ->
       status p = online -> status q = online -> name p = name q ->
       id p = id q.
Proof.
  intros Hr.
  assert (Hnames : namesUnique (readProcesses w)).
  { induction Hr as [eco writable spawns reads|w w' Hr IH Hstep].
    - constructor.
    - exact (names_Step w w' Hstep IH). }
  split; [exact Hnames|].
  destruct (Reachable_invariant w Hr) as [Hids _].
  revert Hnames Hids. generalize (readProcesses w). intros l.
  unfold namesUnique, onlineNames.
  induction l as [|a l IH]; intros Hnames Hids p q Hp Hq Hsp Hsq Hname;
    [contradiction|].
  cbn in Hnames, Hids. inversion Hids as [|? ? Ha Hids']; subst.
  assert (Hrest : NoDup (map name (filter isOnline l)))
    by (destruct (isOnline a); [now inversion Hnames|assumption]).
  assert (Hhead : forall r, In r l -> status r = online ->
                    status a = online -> name a <> name r).
  { intros r Hr' Hsr Hsa Heq. unfold isOnline in Hnames. rewrite Hsa in Hnames.
    cbn in Hnames. inversion Hnames as [|? ? Hnotin _]; subst.
    apply Hnotin. rewrite Heq. apply in_map. apply filter_In.
    split; [assumption|]. unfold isOnline. now rewrite Hsr. }
  destruct Hp as [Hp | Hp], Hq as [Hq | Hq].
  - congruence.
  - subst a. exfalso. now apply (Hhead q Hq).
  - subst a. exfalso. apply (Hhead p Hp); auto.
  - now apply IH.
Qed.

End OnlineNames.

(** ** What a monitoring pass changes *)

Section MonitorFrame.

Context `{Host}.

Lemma polledFrom_refl (p : ProcessInfo) : polledFrom p p.
Proof.
  unfold polledFrom. intuition.
Qed.

Lemma Forall2_polledFrom_refl (l : list ProcessInfo) :
  Forall2 polledFrom l l.
Proof.
  induction l; constructor; auto using polledFrom_refl.
Qed.

Lemma Forall2_updateAt (A : Type) (R : A -> A -> Prop) (f : A -> A)
    (i : nat) (l l' : list A) :
  (forall p q, R p q -> R p (f q)) ->
  Forall2 R l l' -> Forall2 R l (Js.updateAt i f l').
Proof.
  intros Hf Hl. revert i.
  induction Hl as [|x y l l' Hxy Hl IH]; intros [|i]; cbn;
    constructor; auto.
Qed.

Lemma polledFrom_stop (t : Z) (p q : ProcessInfo) :
  polledFrom p q -> polledFrom p (set_updatedAt t (set_status stopped q)).
Proof.
  unfold polledFrom. cbn. intuition.
Qed.

Lemma polledFrom_usage (t : Z) (c m : float) (p q : ProcessInfo) :
  polledFrom p q -> polledFrom p (set_updatedAt t (set_usage c m q)).
Proof.
  unfold polledFrom. cbn. intuition.
Qed.

Lemma frame_livenessCallback (l : list ProcessInfo) (i : nat) (a : Answers)
    (m : Poll) (w : World) :
  Forall2 polledFrom l (polled m) ->
  Forall2 polledFrom l (polled (fst (livenessCallback i a m w))).
Proof.
  intros Hl. unfold livenessCallback, stopInMemory, usageCallback, newDate.
  destruct (nth_error (polled m) i) as [process|]; [|assumption].
  destruct (reportsDead (liveness a)).
  - destruct (negb (Status_eqb (status process) stopped)); [|assumption].
    cbn. apply Forall2_updateAt; [|assumption].
    intros p q. apply polledFrom_stop.
  - destruct (Status_eqb (status process) stopping).
    + destruct (_ >? 30000); [|assumption]. cbn.
      apply Forall2_updateAt; [|assumption].
      intros p q. apply polledFrom_stop.
    + destruct (usage a) as [|error stdout]; [assumption|].
      destruct (negb error && negb (String.eqb stdout "")); [|assumption].
      destruct (1 <? _)%nat; [|assumption].
      cbn. apply Forall2_updateAt; [|assumption].
      intros p q. apply polledFrom_usage.
Qed.

Lemma livenessCallback_file (i : nat) (a : Answers) (m : Poll) (w : World) :
  processFile (snd (livenessCallback i a m w)) = processFile w
  /\ storeWritable (snd (livenessCallback i a m w)) = storeWritable w
  /\ ecosystemFile (snd (livenessCallback i a m w)) = ecosystemFile w.
Proof.
  unfold livenessCallback, stopInMemory, usageCallback, newDate.
  destruct (nth_error (polled m) i) as [process|]; [|auto].
  destruct (reportsDead (liveness a)).
  - destruct (negb (Status_eqb (status process) stopped)); cbn; auto.
  - destruct (Status_eqb (status process) stopping).
    + destruct (_ >? 30000); cbn; auto.
    + destruct (usage a) as [|error stdout]; [auto|].
      destruct (negb error && negb (String.eqb stdout "")); [|auto].
      destruct (1 <? _)%nat; cbn; auto.
Qed.

Lemma frame_monitorLoop (l : list ProcessInfo) (answers : nat -> Answers) :
  forall (count k : nat) (m : Poll) (w : World),
    Forall2 polledFrom l (polled m) ->
    Forall2 polledFrom l (polled (fst (monitorLoop answers count k m w))).
Proof.
  induction count as [|count IH]; intros k m w Hl; [assumption|].
  cbn [monitorLoop].
  destruct (nth_error (polled m) k) as [process|]; [|now apply IH].
  destruct (isPolled process); [|now apply IH].
  destruct (liveness (answers k)) eqn:Hlive; [|now apply IH].
  pose proof (frame_livenessCallback l k (answers k) m w Hl) as Hl1.
  destruct (livenessCallback k (answers k) m w) as [m1 w1].
  now apply IH.
Qed.


Lemma frame_settle (l : list ProcessInfo) (answers : nat -> Answers)
    (registered : list ProcessInfo) (order : list nat) :
  forall (m : Poll) (w : World),
    Forall2 polledFrom l (polled m) ->
    Forall2 polledFrom l
      (polled (fst (settle answers registered order m w))).
Proof.
  induction order as [|i rest IH]; intros m w Hl; [assumption|].
  cbn [settle].
  destruct (pendingCallback answers registered i); [|now apply IH].
  pose proof (frame_livenessCallback l i (answers i) m w Hl) as Hl1.
  destruct (livenessCallback i (answers i) m w) as [m1 w1].
  now apply IH.
Qed.

Lemma settle_file (answers : nat -> Answers) (registered : list ProcessInfo)
    (order : list nat) :
  forall (m : Poll) (w : World),
    processFile (snd (settle answers registered order m w)) = processFile w.
Proof.
  induction order as [|i rest IH]; intros m w; [reflexivity|].
  cbn [settle].
  destruct (pendingCallback answers registered i); [|apply IH].
  destruct (livenessCallback_file i (answers i) m w) as [Hf _].
  destruct (livenessCallback i (answers i) m w) as [m1 w1].
  cbn [snd] in Hf. rewrite <- Hf. apply IH.
Qed.

Lemma monitorLoop_no_throw (answers : nat -> Answers) :
  forall (count k : nat) (m : Poll) (w : World),
    (forall i p, nth_error (polled m) i = Some p -> isPolled p = true ->
                 liveness (answers i) <> ExecThrows) ->
    monitorLoop answers count k m w = (m, w).
Proof.
  induction count as [|count IH]; intros k m w Hno; [reflexivity|].
  cbn [monitorLoop].
  destruct (nth_error (polled m) k) as [process|] eqn:Hk; [|now apply IH].
  destruct (isPolled process) eqn:Hp; [|now apply IH].
  destruct (liveness (answers k)) eqn:Hlive; [|now apply IH].
  exfalso. exact (Hno k process Hk Hp Hlive).
Qed.

(** X17. A monitoring pass, with the callbacks that complete after it in any
    order, never adds, removes or reorders records, and changes nothing
    of a record but [status] (to ['stopped'] only), [cpu], [memory] and
    [updatedAt]: this holds of the registry file when [monitorProcesses]
    returns and of the array its callbacks go on mutating. *)
Theorem monitor_keeps_records (answers : nat -> Answers) (order : list nat)
    (w : World) :
  let result := monitorProcesses answers w in
  let settled :=
    settle answers (readProcesses w) order (fst result) (snd result) in
  Forall2 polledFrom (readProcesses w) (readProcesses (snd result))
  /\ Forall2 polledFrom (readProcesses w) (polled (fst settled))
  /\ List.length (readProcesses (snd result)) = List.length (readProcesses w)
  /\ map id (readProcesses (snd result)) = map id (readProcesses w).
Proof.
  cbv zeta.
  assert (Hframe : Forall2 polledFrom (readProcesses w)
                     (readProcesses (snd (monitorProcesses answers w)))
                   /\ Forall2 polledFrom (readProcesses w)
                        (polled (fst (monitorProcesses answers w)))).
  { unfold monitorProcesses.
    pose proof (frame_monitorLoop (readProcesses w) answers
                  (List.length (readProcesses w)) 0
                  (mkPoll (readProcesses w) false) w
                  (Forall2_polledFrom_refl _)) as Hm.
    destruct (monitorLoop_file answers (List.length (readProcesses w)) 0
                (mkPoll (readProcesses w) false) w) as [Hf Hw].
    destruct (monitorLoop answers _ 0 _ w) as [m w1]. cbn [fst snd] in *.
    assert (Hw1 : readProcesses w1 = readProcesses w)
      by (unfold readProcesses; now rewrite Hf).
    destruct (updated m); cbn [fst snd].
    - split; [|assumption]. unfold writeProcesses.
      destruct (storeWritable w1); cbn [snd].
      + exact Hm.
      + rewrite Hw1. apply Forall2_polledFrom_refl.
    - split; [|assumption]. rewrite Hw1. apply Forall2_polledFrom_refl. }
  destruct Hframe as [Hfile Harray].
  split; [exact Hfile|]. split.
  - now apply frame_settle.
  - split.
    + symmetry. exact (Forall2_length Hfile).
    + revert Hfile.
      generalize (readProcesses (snd (monitorProcesses answers w))).
      generalize (readProcesses w). intros l l' Hl.
      induction Hl as [|x y l l' Hxy Hl IH]; [reflexivity|].
      cbn. f_equal; [apply Hxy|exact IH].
Qed.

(** X18. Unless [exec] itself throws, a monitoring pass writes nothing: the
    answers of [ps] arrive after [monitorProcesses] has tested [updated],
    so whatever they report (process gone, cpu and memory figures) is
    recorded in the array only, and the registry file stays as it was,
    also after every callback has run. *)
Theorem monitor_answers_not_persisted (answers : nat -> Answers)
    (order : list nat) (w : World) :
  (forall i p, nth_error (readProcesses w) i = Some p -> isPolled p = true ->
               liveness (answers i) <> ExecThrows) ->
  monitorProcesses answers w = (mkPoll (readProcesses w) false, w)
  /\ processFile
       (snd (settle answers (readProcesses w) order
               (mkPoll (readProcesses w) false) w))
     = processFile w.
Proof.
  intros Hno. split.
  - unfold monitorProcesses.
    now rewrite (monitorLoop_no_throw answers
                   (List.length (readProcesses w)) 0
                   (mkPoll (readProcesses w) false) w Hno).
  - apply settle_file.
Qed.

End MonitorFrame.

Section MonitorThrow.

Context `{Host}.

Lemma updateAt_same (A : Type) (f : A -> A) (l : list A) (i : nat) (x : A) :
  nth_error l i = Some x -> nth_error (Js.updateAt i f l) i = Some (f x).
Proof.
  revert i. induction l as [|a l IH]; intros [|i]; cbn; try discriminate.
  - now intros [= ->].
  - apply IH.
Qed.

Lemma livenessCallback_other (i j : nat) (a : Answers) (m : Poll)
    (w : World) :
  i <> j ->
  nth_error (polled (fst (livenessCallback i a m w))) j
  = nth_error (polled m) j.
Proof.
  intros Hne. unfold livenessCallback, stopInMemory, usageCallback, newDate.
  destruct (nth_error (polled m) i) as [process|]; [|reflexivity].
  destruct (reportsDead (liveness a)).
  - destruct (negb (Status_eqb (status process) stopped)); [|reflexivity].
    cbn. now apply updateAt_other.
  - destruct (Status_eqb (status process) stopping).
    + destruct (_ >? 30000); [|reflexivity]. cbn. now apply updateAt_other.
    + destruct (usage a) as [|error stdout]; [reflexivity|].
      destruct (negb error && negb (String.eqb stdout "")); [|reflexivity].
      destruct (1 <? _)%nat; [|reflexivity].
      cbn. now apply updateAt_other.
Qed.

Lemma livenessCallback_updated (i : nat) (a : Answers) (m : Poll)
    (w : World) :
  updated m = true -> updated (fst (livenessCallback i a m w)) = true.
Proof.
  intros Hup. unfold livenessCallback, stopInMemory, usageCallback, newDate.
  destruct (nth_error (polled m) i) as [process|]; [|assumption].
  destruct (reportsDead (liveness a)).
  - destruct (negb (Status_eqb (status process) stopped)); [|assumption].
    reflexivity.
  - destruct (Status_eqb (status process) stopping).
    + destruct (_ >? 30000); [|assumption]. reflexivity.
    + destruct (usage a) as [|error stdout]; [assumption|].
      destruct (negb error && negb (String.eqb stdout "")); [|assumption].
      destruct (1 <? _)%nat; [|assumption]. reflexivity.
Qed.

(** The loop from index [k] on leaves the objects before [k] and a set
    flag as they are. *)
Lemma monitorLoop_before (answers : nat -> Answers) :
  forall (count k : nat) (m : Poll) (w : World) (j : nat),
    (j < k)%nat ->
    nth_error (polled (fst (monitorLoop answers count k m w))) j
    = nth_error (polled m) j
    /\ (updated m = true ->
        updated (fst (monitorLoop answers count k m w)) = true).
Proof.
  induction count as [|count IH]; intros k m w j Hj; [auto|].
  cbn [monitorLoop].
  assert (Hj' : (j < S k)%nat) by lia.
  destruct (nth_error (polled m) k) as [process|]; [|now apply IH].
  destruct (isPolled process); [|now apply IH].
  destruct (liveness (answers k)) eqn:Hlive; [|now apply IH].
  assert (Hne : k <> j) by lia.
  pose proof (livenessCallback_other k j (answers k) m w Hne) as Ho.
  pose proof (livenessCallback_updated k (answers k) m w) as Hu.
  destruct (livenessCallback k (answers k) m w) as [m1 w1].
  cbn [fst] in Ho, Hu.
  destruct (IH (S k) m1 w1 j Hj') as [H1 H2].
  split; [now rewrite H1|auto].
Qed.

Lemma monitorLoop_throw (answers : nat -> Answers) (i : nat)
    (p : ProcessInfo) :
  isPolled p = true ->
  liveness (answers i) = ExecThrows ->
  forall (count k : nat) (m : Poll) (w : World),
    (k <= i < k + count)%nat ->
    nth_error (polled m) i = Some p ->
    exists t,
      nth_error (polled (fst (monitorLoop answers count k m w))) i
      = Some (set_updatedAt t (set_status stopped p))
      /\ updated (fst (monitorLoop answers count k m w)) = true.
Proof.
  intros Hp Hlive.
  induction count as [|count IH]; intros k m w Hk Hi; [lia|].
  cbn [monitorLoop].
  destruct (Nat.eq_dec k i) as [->|Hne].
  - rewrite Hi, Hp, Hlive.
    unfold livenessCallback. rewrite Hi, Hlive. cbn [reportsDead].
    assert (Hst : negb (Status_eqb (status p) stopped) = true).
    { unfold isPolled in Hp. destruct (status p); cbn in *; congruence. }
    rewrite Hst. unfold stopInMemory, newDate.
    destruct (monitorLoop_before answers count (S i)
                (mkPoll (Js.updateAt i
                           (fun p0 => set_updatedAt (Date_now (clockReads w))
                                        (set_status stopped p0)) (polled m))
                   true)
                (with_clockReads (S (clockReads w)) w) i
                (Nat.lt_succ_diag_r i)) as [H1 H2].
    exists (Date_now (clockReads w)). split.
    + rewrite H1. cbn [polled].
      exact (updateAt_same _ _ _ _ _ Hi).
    + apply H2. reflexivity.
  - assert (Hk' : (S k <= i < S k + count)%nat) by lia.
    destruct (nth_error (polled m) k) as [process|]; [|now apply IH].
    destruct (isPolled process); [|now apply IH].
    destruct (liveness (answers k)) eqn:Hlk; [|now apply IH].
    pose proof (livenessCallback_other k i (answers k) m w Hne) as Ho.
    destruct (livenessCallback k (answers k) m w) as [m1 w1].
    cbn [fst] in Ho. apply IH; [assumption|]. now rewrite Ho.
Qed.

(** X19. When [exec] throws on the liveness query of an online or stopping
    record, [safeExec] runs the callback at once with the error, so the
    record is marked ['stopped'] before [monitorProcesses] tests [updated]:
    with a writable registry file the record is persisted as ['stopped'],
    at the same position and with a new [updatedAt] only. *)
Theorem monitor_exec_throw_persists_stopped (answers : nat -> Answers)
    (w : World) (i : nat) (p : ProcessInfo) :
  storeWritable w = true ->
  nth_error (readProcesses w) i = Some p ->
  isPolled p = true ->
  liveness (answers i) = ExecThrows ->
  exists t,
    nth_error (readProcesses (snd (monitorProcesses answers w))) i
    = Some (set_updatedAt t (set_status stopped p)).
Proof.
  intros Hw Hi Hp Hlive. unfold monitorProcesses.
  assert (Hrange : (0 <= i < 0 + List.length (readProcesses w))%nat).
  { split; [lia|]. apply nth_error_Some. congruence. }
  destruct (monitorLoop_throw answers i p Hp Hlive
              (List.length (readProcesses w)) 0
              (mkPoll (readProcesses w) false) w Hrange Hi) as [t [Hn Hu]].
  destruct (monitorLoop_file answers (List.length (readProcesses w)) 0
              (mkPoll (readProcesses w) false) w) as [_ Hw1].
  destruct (monitorLoop answers _ 0 _ w) as [m w1]. cbn [fst snd] in *.
  rewrite Hu. cbn [snd]. unfold writeProcesses. rewrite Hw1, Hw. cbn.
  exists t. exact Hn.
Qed.

End MonitorThrow.

(** ** The saved snapshot *)

Section Snapshot.

Context `{Host}.







End Snapshot.

(** ** Uptime shown for a restarted record *)

Section UptimeAfterRestart.

Context `{Host}.

(** X21. A restart does not reset the uptime shown by [list] and [monitor]:
    the record written by the restart timer is the last of the registry,
    is online, and its uptime cell at any later moment [now] is computed
    from the [createdAt] of the record that was restarted ([NaNs] when
    that record had none). *)
Theorem restart_keeps_uptime_origin (x : ProcessInfo) (w w' : World)
    (i now : Z) :
  storeWritable w = true ->
  onRestartTimeout x w = (Restarted (Started i), w') ->
  exists rest r,
    readProcesses w' = (rest ++ [r])%list
    /\ id r = id x
    /\ List.length (readProcesses w') = List.length (readProcesses w)
    /\ uptimeColumn now r
       = formatUptime (option_map (fun c => now - c) (createdAt x)).
Proof.
  intros Hw Hrun.
  destruct (onRestartTimeout_Started x w w' i Hw Hrun)
    as [l1 [y [l2 [pid0 [t [Hl [_ [_ [_ Hw']]]]]]]]].
  exists (l1 ++ l2)%list,
    (buildProcessInfo (id x) (name x) pid0 (script x) (restartOptions x)
       (Some (id x)) (createdAt x) t).
  split; [rewrite Hw'; now rewrite app_assoc|].
  split; [reflexivity|]. split; [|reflexivity].
  rewrite Hw', Hl. rewrite !length_app. cbn [List.length]. lia.
Qed.

End UptimeAfterRestart.

(** ** Concrete runs of the further properties *)

(** X2, witness: [start /srv/app.js --name app -i 9007199254740993]: the
    record has 9007199254740992 instances. *)
Lemma start_instances_from_option_witness :
  storeWritable freshWorld = true
  /\ @startGTR demoHost "app" "/srv/app.js"
       (mkOptions (Js.VStr "9007199254740993") (Some []) None None) None
       freshWorld
     = (Started 0,
        snd (@startGTR demoHost "app" "/srv/app.js"
               (mkOptions (Js.VStr "9007199254740993") (Some []) None None)
               None freshWorld))
  /\ exists others r,
       readProcesses
         (snd (@startGTR demoHost "app" "/srv/app.js"
                 (mkOptions (Js.VStr "9007199254740993") (Some []) None
                    None) None freshWorld))
       = (others ++ [r])%list
       /\ instances r = Some 9007199254740992.
Proof.
  assert (Hrun : @startGTR demoHost "app" "/srv/app.js"
                   (mkOptions (Js.VStr "9007199254740993") (Some []) None
                      None) None freshWorld
                 = (Started 0,
                    snd (@startGTR demoHost "app" "/srv/app.js"
                           (mkOptions (Js.VStr "9007199254740993") (Some [])
                              None None) None freshWorld)))
    by (vm_compute; reflexivity).
  split; [reflexivity|]. split; [exact Hrun|].
  destruct (@start_instances_from_option demoHost "app" "/srv/app.js"
              (mkOptions (Js.VStr "9007199254740993") (Some []) None None)
              None freshWorld _ 0 eq_refl Hrun)
    as [others [r [Hr [_ [Hnum _]]]]].
  exists others, r. split; [exact Hr|].
  rewrite (proj1 (Hnum 9007199254740993 EmptyString I eq_refl)).
  vm_compute. reflexivity.
Defined.

(** X3, witness: [show 0] with [app] (id 0) and [api] (id 1) registered. *)
Lemma record_found_by_its_id_witness :
  In appRecord (readProcesses twoAppsWorld)
  /\ Js.toNumber (id appRecord) = Js.Finite (id appRecord)
  /\ findProcess (Js.VStr "0") twoAppsWorld = Some appRecord.
Proof.
  assert (Hin : In appRecord (readProcesses twoAppsWorld))
    by (left; reflexivity).
  split; [exact Hin|]. split; [reflexivity|].
  apply (proj2 (record_found_by_its_id twoAppsWorld appRecord Hin eq_refl)).
  intros r Hr Hm.
  destruct Hr as [Hr | [Hr | []]]; [now symmetry|].
  subst r. exfalso. destruct Hm as [Hm | [Hm | Hm]]; discriminate Hm.
Defined.

(** X4, witness: [--env "PORT=3000,MODE=dev, PORT=8080 "]. *)
Lemma env_option_last_assignment_wins_witness :
  noChar "," " PORT" /\ noChar "," "8080 "
  /\ noChar "=" " PORT" /\ noChar "=" "8080 "
  /\ envLookup "PORT" (parseEnv "PORT=3000,MODE=dev, PORT=8080 ")
     = Some "8080"
  /\ envLookup "MODE" (parseEnv "PORT=3000,MODE=dev, PORT=8080 ")
     = envLookup "MODE" (parseEnv "PORT=3000,MODE=dev").
Proof.
  assert (H1 : noChar "," " PORT")
    by (intros Hin; cbn in Hin; intuition discriminate).
  assert (H2 : noChar "," "8080 ")
    by (intros Hin; cbn in Hin; intuition discriminate).
  assert (H3 : noChar "=" " PORT")
    by (intros Hin; cbn in Hin; intuition discriminate).
  assert (H4 : noChar "=" "8080 ")
    by (intros Hin; cbn in Hin; intuition discriminate).
  split; [exact H1|]. split; [exact H2|]. split; [exact H3|].
  split; [exact H4|].
  destruct (env_option_last_assignment_wins "PORT=3000,MODE=dev" " PORT"
              "8080 " H1 H2 H3 H4 ltac:(discriminate) ltac:(discriminate))
    as [Hlast [_ Hother]].
  split; [exact Hlast|].
  exact (Hother "MODE" ltac:(discriminate)).
Defined.

(** X9, witness: the second start on a registry holding id 0 alone returns
    id 1. *)
Lemma fresh_id_bounded_by_count_witness :
  @startGTR demoHost "api" "/srv/api.js" cliOptions None appWorld
  = (Started 1, twoAppsWorld)
  /\ 0 <= 1 <= Z.of_nat (List.length (readProcesses appWorld)).
Proof.
  split; [reflexivity|].
  exact (proj1 (@fresh_id_bounded_by_count demoHost "api" "/srv/api.js"
                  cliOptions appWorld twoAppsWorld 1 eq_refl)).
Defined.


(** X13, witness: [delete app --no-stop] with [app] and [api]
    registered. *)
Lemma delete_now_removes_record_witness :
  storeWritable twoAppsWorld = true
  /\ findProcess (Js.VStr "app") twoAppsWorld = Some appRecord
  /\ exists l1 x l2,
       readProcesses twoAppsWorld = (l1 ++ x :: l2)%list
       /\ id x = 0
       /\ @delete demoHost (Js.VStr "app") false twoAppsWorld
          = (Deleted, with_processFile (l1 ++ l2)%list twoAppsWorld, []).
Proof.
  split; [reflexivity|]. split; [reflexivity|].
  destruct (@delete_now_removes_record demoHost (Js.VStr "app") false
              twoAppsWorld appRecord eq_refl eq_refl (or_introl eq_refl))
    as [l1 [x [l2 [Hl [Hx [_ [Hd _]]]]]]].
  exists l1, x, l2. split; [exact Hl|]. split; [exact Hx|exact Hd].
Defined.


(** X15, witness: the restart timer of [gone] fires after its script was
    removed. *)
Lemma restart_failed_start_drops_record_witness :
  storeWritable (mkWorld (Some [appRecord; goneRecord]) None true 0 0) = true
  /\ @existsSync demoHost (script goneRecord) = false
  /\ @onRestartTimeout demoHost goneRecord
       (mkWorld (Some [appRecord; goneRecord]) None true 0 0)
     = (Restarted (StartNull ScriptMissing),
        with_processFile [appRecord]
          (mkWorld (Some [appRecord; goneRecord]) None true 0 0)).
Proof.
  split; [reflexivity|]. split; [reflexivity|].
  refine (proj1 (@restart_failed_start_drops_record demoHost goneRecord
                   goneRecord
                   (mkWorld (Some [appRecord; goneRecord]) None true 0 0)
                   [appRecord] [] eq_refl eq_refl eq_refl _) eq_refl).
  intros z [Hz | []]. subst z. discriminate.
Defined.

(** X18, witness: a pass over [appWorld] in which [ps] reports that pid 1000
    is gone:
    the array says ['stopped'], the registry file still says
    ['online']. *)
Lemma monitor_answers_not_persisted_witness :
  (forall i p, nth_error (readProcesses appWorld) i = Some p ->
               isPolled p = true ->
               liveness (mkAnswers (ExecCalls true "") ExecThrows)
               <> ExecThrows)
  /\ @monitorProcesses demoHost
       (fun _ => mkAnswers (ExecCalls true "") ExecThrows) appWorld
     = (mkPoll (readProcesses appWorld) false, appWorld)
  /\ processFile
       (snd (@settle demoHost
               (fun _ => mkAnswers (ExecCalls true "") ExecThrows)
               (readProcesses appWorld) [0%nat]
               (mkPoll (readProcesses appWorld) false) appWorld))
     = Some [appRecord]
  /\ map status
       (polled
          (fst (@settle demoHost
                  (fun _ => mkAnswers (ExecCalls true "") ExecThrows)
                  (readProcesses appWorld) [0%nat]
                  (mkPoll (readProcesses appWorld) false) appWorld)))
     = [stopped].
Proof.
  assert (Hno : forall i p, nth_error (readProcesses appWorld) i = Some p ->
                  isPolled p = true ->
                  liveness (mkAnswers (ExecCalls true "") ExecThrows)
                  <> ExecThrows)
    by (intros i p _ _; discriminate).
  split; [exact Hno|].
  destruct (@monitor_answers_not_persisted demoHost
              (fun _ => mkAnswers (ExecCalls true "") ExecThrows)
              [0%nat] appWorld Hno) as [Hm Hf].
  split; [exact Hm|]. split; [exact Hf|reflexivity].
Defined.

(** X19, witness: a pass over [appWorld] in which [exec] throws. *)
Lemma monitor_exec_throw_persists_stopped_witness :
  storeWritable appWorld = true
  /\ nth_error (readProcesses appWorld) 0 = Some appRecord
  /\ isPolled appRecord = true
  /\ exists t,
       nth_error
         (readProcesses
            (snd (@monitorProcesses demoHost
                    (fun _ => mkAnswers ExecThrows ExecThrows) appWorld))) 0
       = Some (set_updatedAt t (set_status stopped appRecord)).
Proof.
  split; [reflexivity|]. split; [reflexivity|]. split; [reflexivity|].
  exact (@monitor_exec_throw_persists_stopped demoHost
           (fun _ => mkAnswers ExecThrows ExecThrows) appWorld 0%nat
           appRecord eq_refl eq_refl eq_refl eq_refl).
Defined.

(** X16, witness: two starts from a fresh registry. *)
Lemma reachable_online_names_unique_witness :
  @Reachable demoHost twoAppsWorld
  /\ NoDup (onlineNames (readProcesses twoAppsWorld)).
Proof.
  assert (Hr : @Reachable demoHost twoAppsWorld).
  { apply (@Reachable_step demoHost appWorld).
    - apply (@Reachable_step demoHost freshWorld).
      + exact (@Reachable_init demoHost None true 0%nat 0%nat).
      + exact (@Step_start demoHost freshWorld "app" "/srv/app.js"
                 cliOptions).
    - exact (@Step_start demoHost appWorld "api" "/srv/api.js" cliOptions). }
  split; [exact Hr|].
  exact (proj1 (@reachable_online_names_unique demoHost twoAppsWorld Hr)).
Defined.


(** X21, witness: [restart app] a little over a day after the first start. *)
Lemma restart_keeps_uptime_origin_witness :
  storeWritable afterFailedKills = true
  /\ @onRestartTimeout demoHost appRecord afterFailedKills
     = (Restarted (Started 0), restartedOnce)
  /\ exists rest r,
       readProcesses restartedOnce = (rest ++ [r])%list
       /\ uptimeColumn 1700093784000 r = "1d 2h".
Proof.
  split; [reflexivity|]. split; [reflexivity|].
  destruct (@restart_keeps_uptime_origin demoHost appRecord afterFailedKills
              restartedOnce 0 1700093784000 eq_refl eq_refl)
    as [rest [r [Hr [_ [_ Hu]]]]].
  exists rest, r. split; [exact Hr|]. rewrite Hu. reflexivity.
Defined.
